(** * PgArachne: authentication and dispatch pipeline

  A shallow embedding of [internal/database/database.go] and
  [internal/server/server.go], and the properties of the gateway that
  are settled against it; then of [internal/config], [internal/auth],
  [internal/daemon], [cmd/pgarachne] and the token functions of
  [sql/schema.sql], with what holds of them. *)

From Stdlib Require Import ZArith String Ascii List Bool Lia.
From stdpp Require Import base option list gmap strings pretty.

(** ** Go's [strings] package, as far as the gateway uses it.

  A Go string is a sequence of bytes, here [string] (a list of [ascii]). *)
Module Strings.

Definition dquote : ascii := Ascii.ascii_of_nat 34.

(** The one-byte string holding a double quote. *)
Definition dq : string := String dquote EmptyString.

(** [strings.Contains(s, substr)]. *)
Definition Contains (s substr : string) : bool :=
  match String.index 0 substr s with
  | Some _ => true
  | None => false
  end.

(** [strings.ReplaceAll(s, old, new)] for a non-empty [old]: the
    occurrences are found left to right and do not overlap.  [skip] counts
    the bytes of the occurrence just replaced that are still to be
    dropped. *)
Fixpoint replace_from (skip : nat) (s old new : string) : string :=
  match s with
  | EmptyString => EmptyString
  | String c s' =>
      match skip with
      | S k => replace_from k s' old new
      | O =>
          if String.prefix old s
          then new +:+ replace_from (String.length old - 1) s' old new
          else String c (replace_from 0 s' old new)
      end
  end.

Definition ReplaceAll (s old new : string) : string :=
  match old with
  | EmptyString => s
  | _ => replace_from 0 s old new
  end.

(** [strings.SplitN(s, sep, n)] for a non-empty [sep] and [n >= 0]: at
    most [n] pieces, the last one holding the unsplit remainder. *)
Fixpoint SplitN (s sep : string) (n : nat) : list string :=
  match n with
  | O => []
  | S O => [s]
  | S n' =>
      match String.index 0 sep s with
      | None => [s]
      | Some i =>
          String.substring 0 i s ::
          SplitN (String.substring (i + String.length sep)
                    (String.length s - (i + String.length sep)) s) sep n'
      end
  end.

Definition lower_byte (c : ascii) : ascii :=
  let n := Ascii.nat_of_ascii c in
  if (Nat.leb 65 n && Nat.leb n 90)%bool
  then Ascii.ascii_of_nat (n + 32) else c.

(** [strings.ToLower(s)] on the ASCII range; bytes above it are kept.
    (No rune outside ASCII lowers to a letter of the word the gateway
    compares the result with.) *)
Fixpoint ToLower (s : string) : string :=
  match s with
  | EmptyString => EmptyString
  | String c s' => String (lower_byte c) (ToLower s')
  end.

End Strings.

(** ** PostgreSQL's lexical rule for a delimited identifier.

  The scanner opens the identifier at a double quote; inside it two
  double quotes in a row stand for one, any other byte stands for itself,
  and a lone double quote closes it.  An input that ends first is
  unterminated, and a zero-length identifier is refused. *)
Module PgLex.

(** The text after the opening quote: the identifier and what follows the
    closing quote. *)
Fixpoint scan_xd (s : string) : option (string * string) :=
  match s with
  | EmptyString => None
  | String c s1 =>
      if Ascii.eqb c Strings.dquote then
        match s1 with
        | String c2 s2 =>
            if Ascii.eqb c2 Strings.dquote
            then match scan_xd s2 with
                 | Some (id, rest) => Some (String Strings.dquote id, rest)
                 | None => None
                 end
            else Some (EmptyString, s1)
        | EmptyString => Some (EmptyString, EmptyString)
        end
      else match scan_xd s1 with
           | Some (id, rest) => Some (String c id, rest)
           | None => None
           end
  end.

Definition scan_quoted_ident (s : string) : option (string * string) :=
  match s with
  | String c s' =>
      if Ascii.eqb c Strings.dquote then
        match scan_xd s' with
        | Some (EmptyString, _) => None
        | r => r
        end
      else None
  | EmptyString => None
  end.

Fixpoint strip_prefix (p s : string) : option string :=
  match p, s with
  | EmptyString, _ => Some s
  | String a p', String b s' => if Ascii.eqb a b then strip_prefix p' s' else None
  | String _ _, EmptyString => None
  end.

(** A statement that is [SET LOCAL ROLE], one delimited identifier, and
    nothing more: the identifier. *)
Definition parse_set_local_role (stmt : string) : option string :=
  match strip_prefix "SET LOCAL ROLE " stmt with
  | Some s =>
      match scan_quoted_ident s with
      | Some (id, EmptyString) => Some id
      | _ => None
      end
  | None => None
  end.

End PgLex.

(** ** [internal/config]: the process-wide configuration. *)
Module Config.

Record Config := {
  DBHost : string;
  DBPort : Z;
  DBUser : string;
  HTTPPort : string;
  JWTSecret : string;
  JWTExpiryHours : Z;
  AllowedOrigins : list string;
  StaticFilesPath : string;
  LogLevel : string;
  LogOutput : string
}.

End Config.

(** ** [internal/database]: the pool registry. *)
Module Database.
Import Config.

(** A [*sql.DB]: the handle [sql.Open] returned and the data source name it
    was opened with.  Two pools are the same pool when their handles are. *)
Record DB := { db_id : nat; db_dsn : string }.

(** What the network and the data engine answer: whether [sql.Open] accepts
    a data source name, and whether the [n]-th probe of the process finds
    the pool's database reachable. *)
Record SqlEnv := {
  sql_Open : string -> bool;
  sql_Ping : nat -> DB -> bool
}.

(** A line written with [slog.Info]: the message and its [database]
    attribute. *)
Record LogRecord := { log_msg : string; log_database : string }.

(** The package variable [dbConnections], with what the model needs to
    name fresh handles ([handles]), to number probes ([clock]) and to count
    creations ([slog]). *)
Record Pools := {
  dbConnections : gmap string DB;
  clock : nat;
  handles : nat;
  slog : list LogRecord
}.

Definition connStr (cfg : Config) (dbName : string) : string :=
  "host=" +:+ DBHost cfg +:+ " port=" +:+ pretty (DBPort cfg) +:+
  " user=" +:+ DBUser cfg +:+ " dbname=" +:+ dbName +:+ " sslmode=disable".

(** [db.Ping()]: [true] when it returns no error. *)
Definition Ping (e : SqlEnv) (db : DB) (p : Pools) : bool * Pools :=
  (sql_Ping e (clock p) db,
   {| dbConnections := dbConnections p; clock := S (clock p);
      handles := handles p; slog := slog p |}).

(** [sql.Open("postgres", dsn)]: a fresh pool, or an error. *)
Definition Open (e : SqlEnv) (dsn : string) (p : Pools) : option DB * Pools :=
  if sql_Open e dsn
  then (Some {| db_id := handles p; db_dsn := dsn |},
        {| dbConnections := dbConnections p; clock := clock p;
           handles := S (handles p); slog := slog p |})
  else (None, p).

Definition Info (msg dbName : string) (p : Pools) : Pools :=
  {| dbConnections := dbConnections p; clock := clock p; handles := handles p;
     slog := {| log_msg := msg; log_database := dbName |} :: slog p |}.

Definition store (dbName : string) (db : DB) (p : Pools) : Pools :=
  {| dbConnections := <[dbName := db]> (dbConnections p); clock := clock p;
     handles := handles p; slog := slog p |}.

(** Lines 41 to 55 of [GetConnection]: open, probe, register. *)
Definition createPool (e : SqlEnv) (cfg : Config) (dbName : string) (p : Pools)
  : option DB * Pools :=
  let p := Info "Creating new connection pool" dbName p in
  match Open e (connStr cfg dbName) p with
  | (None, p) => (None, p)
  | (Some newDB, p) =>
      let '(ok, p) := Ping e newDB p in
      if ok
      then (Some newDB,
            Info "Successfully connected to database" dbName (store dbName newDB p))
      else (None, p)
  end.

(** [GetConnection] run by one caller alone ([None] is the error return).
    The read lock covers the first lookup only, the write lock everything
    from the second lookup on. *)
Definition GetConnection (e : SqlEnv) (cfg : Config) (dbName : string) (p : Pools)
  : option DB * Pools :=
  let fast :=
    match dbConnections p !! dbName with
    | Some db => let '(ok, p) := Ping e db p in ((if ok then Some db else None), p)
    | None => (None, p)
    end in
  match fast with
  | (Some db, p) => (Some db, p)
  | (None, p) =>
      match dbConnections p !! dbName with
      | Some db =>
          let '(ok, p) := Ping e db p in
          if ok then (Some db, p) else createPool e cfg dbName p
      | None => createPool e cfg dbName p
      end
  end.

(** *** Many callers: [GetConnection] statement by statement.

    [dbMutex] is a [sync.RWMutex]: any number of readers or one writer.  A
    reader is let in whenever no writer holds the mutex (Go also keeps new
    readers out while a writer waits, which only removes interleavings). *)
Record RWMutex := { readers : nat; writer : bool }.

Record Shared := { pools : Pools; mu : RWMutex }.

(** Where a caller stands in [GetConnection], with its local variables. *)
Inductive PC :=
| PcStart                      (* before dbMutex.RLock() *)
| PcRLocked                    (* read lock held, before the lookup *)
| PcRUnlock (r : option DB)    (* looked up, before dbMutex.RUnlock() *)
| PcFast (r : option DB)       (* line 24: if ok, probe *)
| PcLock                       (* before dbMutex.Lock() *)
| PcRecheck                    (* write lock held, before the second lookup *)
| PcSlow (r : option DB)       (* line 35: if ok, probe *)
| PcCreate                     (* before slog.Info and sql.Open *)
| PcPingNew (newDB : DB)       (* before newDB.Ping() *)
| PcStore (newDB : DB)         (* before dbConnections[dbName] = newDB *)
| PcUnlock (r : option DB)     (* the deferred dbMutex.Unlock() *)
| PcDone (r : option DB).      (* returned *)

Record Thread := { t_dbName : string; t_pc : PC }.

Definition at_pc (t : Thread) (pc : PC) : Thread :=
  {| t_dbName := t_dbName t; t_pc := pc |}.

Definition with_pools (sh : Shared) (p : Pools) : Shared :=
  {| pools := p; mu := mu sh |}.

Definition with_mu (sh : Shared) (m : RWMutex) : Shared :=
  {| pools := pools sh; mu := m |}.

(** One statement of one caller; [None] when the caller is blocked on the
    mutex or has returned. *)
Definition thread_step (e : SqlEnv) (cfg : Config) (sh : Shared) (t : Thread)
  : option (Shared * Thread) :=
  let name := t_dbName t in
  match t_pc t with
  | PcStart =>
      if writer (mu sh) then None
      else Some (with_mu sh {| readers := S (readers (mu sh)); writer := false |},
                 at_pc t PcRLocked)
  | PcRLocked =>
      Some (sh, at_pc t (PcRUnlock (dbConnections (pools sh) !! name)))
  | PcRUnlock r =>
      Some (with_mu sh {| readers := pred (readers (mu sh)); writer := writer (mu sh) |},
            at_pc t (PcFast r))
  | PcFast (Some db) =>
      let '(ok, p) := Ping e db (pools sh) in
      Some (with_pools sh p, at_pc t (if ok then PcDone (Some db) else PcLock))
  | PcFast None => Some (sh, at_pc t PcLock)
  | PcLock =>
      if writer (mu sh) then None
      else match readers (mu sh) with
           | O => Some (with_mu sh {| readers := O; writer := true |},
                        at_pc t PcRecheck)
           | S _ => None
           end
  | PcRecheck =>
      Some (sh, at_pc t (PcSlow (dbConnections (pools sh) !! name)))
  | PcSlow (Some db) =>
      let '(ok, p) := Ping e db (pools sh) in
      Some (with_pools sh p, at_pc t (if ok then PcUnlock (Some db) else PcCreate))
  | PcSlow None => Some (sh, at_pc t PcCreate)
  | PcCreate =>
      match Open e (connStr cfg name)
              (Info "Creating new connection pool" name (pools sh)) with
      | (Some newDB, p) => Some (with_pools sh p, at_pc t (PcPingNew newDB))
      | (None, p) => Some (with_pools sh p, at_pc t (PcUnlock None))
      end
  | PcPingNew newDB =>
      let '(ok, p) := Ping e newDB (pools sh) in
      Some (with_pools sh p,
            at_pc t (if ok then PcStore newDB else PcUnlock None))
  | PcStore newDB =>
      Some (with_pools sh
              (Info "Successfully connected to database" name
                 (store name newDB (pools sh))),
            at_pc t (PcUnlock (Some newDB)))
  | PcUnlock r =>
      Some (with_mu sh {| readers := readers (mu sh); writer := false |},
            at_pc t (PcDone r))
  | PcDone _ => None
  end.

Record System := { shared : Shared; threads : list Thread }.

(** Any caller that can move may move next. *)
Inductive step (e : SqlEnv) (cfg : Config) : System -> System -> Prop :=
| step_thread sh ts i t sh' t' :
    ts !! i = Some t ->
    thread_step e cfg sh t = Some (sh', t') ->
    step e cfg {| shared := sh; threads := ts |}
               {| shared := sh'; threads := <[i := t']> ts |}.

Definition reachable (e : SqlEnv) (cfg : Config) : System -> System -> Prop :=
  rtc (step e cfg).

(** A schedule names the caller to move at each turn; a caller that cannot
    move loses its turn. *)
Definition sched_step (e : SqlEnv) (cfg : Config) (i : nat) (s : System) : System :=
  match threads s !! i with
  | Some t =>
      match thread_step e cfg (shared s) t with
      | Some (sh', t') => {| shared := sh'; threads := <[i := t']> (threads s) |}
      | None => s
      end
  | None => s
  end.

Definition run (e : SqlEnv) (cfg : Config) (sched : list nat) (s : System) : System :=
  fold_left (fun s i => sched_step e cfg i s) sched s.

(** [n] callers about to call [GetConnection], each with its database
    name, while nobody holds the mutex. *)
Definition start (p : Pools) (names : list string) : System :=
  {| shared := {| pools := p; mu := {| readers := O; writer := false |} |};
     threads := map (fun n => {| t_dbName := n; t_pc := PcStart |}) names |}.

(** The creation counter: the pools created for a database name, counted
    by the log line written before each [sql.Open]. *)
Definition is_creation (dbName : string) (r : LogRecord) : bool :=
  String.eqb (log_msg r) "Creating new connection pool" &&
  String.eqb (log_database r) dbName.

Definition created (dbName : string) (p : Pools) : nat :=
  length (List.filter (is_creation dbName) (slog p)).

Definition returned (t : Thread) : option (option DB) :=
  match t_pc t with
  | PcDone r => Some r
  | _ => None
  end.

Definition all_returned (s : System) : Prop :=
  Forall (fun t => is_Some (returned t)) (threads s).

(** Every probe and every [sql.Open] succeeds. *)
Definition healthy (e : SqlEnv) : Prop :=
  (forall dsn, sql_Open e dsn = true) /\ (forall n db, sql_Ping e n db = true).

(** *** What holds of every state the callers can reach *)

Definition holds_rlock (t : Thread) : bool :=
  match t_pc t with
  | PcRLocked | PcRUnlock _ => true
  | _ => false
  end.

Definition holds_lock (t : Thread) : bool :=
  match t_pc t with
  | PcRecheck | PcSlow _ | PcCreate | PcPingNew _ | PcStore _ | PcUnlock _ => true
  | _ => false
  end.

(** The caller has created a pool for [d] and not registered it yet. *)
Definition in_flight (d : string) (t : Thread) : bool :=
  String.eqb (t_dbName t) d &&
  match t_pc t with
  | PcPingNew _ | PcStore _ => true
  | _ => false
  end.

Definition tally (f : Thread -> bool) (ts : list Thread) : nat :=
  length (List.filter f ts).

(** What a caller for [d] knows of the registry: a pool it has seen
    registered still is; past the second lookup that found none, under the
    write lock, there still is none; and it is not on an error path. *)
Definition local_ok (d : string) (reg : gmap string DB) (t : Thread) : Prop :=
  t_dbName t = d ->
  match t_pc t with
  | PcRUnlock (Some db) | PcFast (Some db) | PcSlow (Some db)
  | PcUnlock (Some db) | PcDone (Some db) => reg !! d = Some db
  | PcSlow None | PcCreate | PcPingNew _ | PcStore _ => reg !! d = None
  | PcUnlock None | PcDone None => False
  | _ => True
  end.

Definition registered (d : string) (reg : gmap string DB) : nat :=
  match reg !! d with
  | Some _ => 1
  | None => 0
  end.

Definition Inv (d : string) (s : System) : Prop :=
  let reg := dbConnections (pools (shared s)) in
  let m := mu (shared s) in
  readers m = tally holds_rlock (threads s) /\
  tally holds_lock (threads s) = (if writer m then 1 else 0) /\
  (writer m = true -> readers m = 0) /\
  created d (pools (shared s)) = registered d reg + tally (in_flight d) (threads s) /\
  Forall (local_ok d reg) (threads s).

End Database.

(** ** [internal/server]: the handlers. *)
Module Server.
Import Config.

(** *** Values *)

(** A Go [interface{}] as the handlers meet it: the JSON-RPC id, the values
    of a claims map or of the parameters.  A JSON number decodes to a
    [float64], kept here by its bits. *)
Inductive Any :=
| ANil
| AString (s : string)
| AInt64 (z : Z)
| AFloat64 (bits : Z)
| ABool (b : bool).

(** The type assertion [v.(string)] on a map element, with its [ok]. *)
Definition assertString (v : option Any) : string * bool :=
  match v with
  | Some (AString s) => (s, true)
  | _ => (EmptyString, false)
  end.

(** [sql.NullString]. *)
Record NullString := { NullString_String : string; NullString_Valid : bool }.

(** *** [time] *)

Definition int64 (z : Z) : Z := ((z + 2 ^ 63) mod 2 ^ 64 - 2 ^ 63)%Z.

(** [time.Hour], a [time.Duration]: nanoseconds in an [int64]. *)
Definition Hour : Z := (3600 * 1000000000)%Z.

(** [time.Duration(n) * time.Hour]. *)
Definition hours (n : Z) : Z := int64 (int64 n * Hour).

(** A [time.Time] is kept as its nanoseconds since the Unix epoch. *)
Definition Add (t d : Z) : Z := (t + d)%Z.
Definition Unix (t : Z) : Z := (t / 1000000000)%Z.

(** *** [github.com/golang-jwt/jwt/v4] *)

Inductive SigningMethod :=
| SigningMethodHMAC (alg : string)
| SigningMethodOther (alg : string).

Definition SigningMethodHS256 : SigningMethod := SigningMethodHMAC "HS256".

Inductive Claims :=
| MapClaims (m : gmap string Any)
| OtherClaims.

Record Token := { Method : SigningMethod; TokenClaims : Claims; Valid : bool }.

(** *** The wire types of package [server] *)

Module JSONRPCRequest.
Record t := {
  JSONRPC : string;
  Method : string;
  Params : gmap string Any;
  ID : Any
}.
End JSONRPCRequest.

Module JSONRPCError.
Record t := { Code : Z; Message : string }.
End JSONRPCError.

(** [Result] is a [json.RawMessage]; the empty string is the nil one. *)
Module JSONRPCResponse.
Record t := {
  JSONRPC : string;
  Result : string;
  Error : option JSONRPCError.t;
  ID : Any
}.
End JSONRPCResponse.

Module LoginRequest.
Record t := { Login : string; Password : string }.
End LoginRequest.

(** What [c.JSON(status, obj)] writes: a [JSONRPCResponse] or a [gin.H]. *)
Inductive Payload :=
| RPC (r : JSONRPCResponse.t)
| H (kv : list (string * string)).

Record Response := { Status : Z; Body : Payload }.

Definition StatusOK : Z := 200%Z.
Definition StatusBadRequest : Z := 400%Z.
Definition StatusUnauthorized : Z := 401%Z.
Definition StatusForbidden : Z := 403%Z.
Definition StatusNotFound : Z := 404%Z.
Definition StatusInternalServerError : Z := 500%Z.
Definition StatusServiceUnavailable : Z := 503%Z.

(** [JSONRPCResponse{Error: &JSONRPCError{Code: code, Message: msg}, ID: id}]. *)
Definition errorResponse (code : Z) (msg : string) (id : Any) : Payload :=
  RPC {| JSONRPCResponse.JSONRPC := EmptyString;
         JSONRPCResponse.Result := EmptyString;
         JSONRPCResponse.Error :=
           Some {| JSONRPCError.Code := code; JSONRPCError.Message := msg |};
         JSONRPCResponse.ID := id |}.

Definition JSON (status : Z) (obj : Payload) : Response :=
  {| Status := status; Body := obj |}.

(** The message a client reads in a response, and its correlation id. *)
Definition message (r : Response) : string :=
  match Body r with
  | RPC p =>
      match JSONRPCResponse.Error p with
      | Some e => JSONRPCError.Message e
      | None => EmptyString
      end
  | H kv =>
      match kv with
      | (_, v) :: _ => v
      | [] => EmptyString
      end
  end.

Definition responseID (r : Response) : Any :=
  match Body r with
  | RPC p => JSONRPCResponse.ID p
  | H _ => ANil
  end.

(** *** The request: a [gin.Context]

    The body is kept by what [encoding/json] decodes it to for either
    target struct ([None]: it does not decode). *)
Record Context := {
  Param : string -> string;
  GetHeader : string -> string;
  jsonLoginRequest : option LoginRequest.t;
  jsonJSONRPCRequest : option JSONRPCRequest.t;
  Keys : gmap string Any
}.

(** [c.Set(key, value)]. *)
Definition Set_ (c : Context) (key : string) (v : Any) : Context :=
  {| Param := Param c; GetHeader := GetHeader c;
     jsonLoginRequest := jsonLoginRequest c;
     jsonJSONRPCRequest := jsonJSONRPCRequest c;
     Keys := <[key := v]> (Keys c) |}.

(** [c.GetString(key)]: the empty string when the key is unset or is not a
    string. *)
Definition GetString (c : Context) (key : string) : string :=
  fst (assertString (Keys c !! key)).

(** [c.ShouldBindJSON(&loginReq)]: both fields are [binding:"required"]. *)
Definition ShouldBindJSON_LoginRequest (c : Context) : option LoginRequest.t :=
  match jsonLoginRequest c with
  | Some r =>
      if String.eqb (LoginRequest.Login r) EmptyString
         || String.eqb (LoginRequest.Password r) EmptyString
      then None else Some r
  | None => None
  end.

(** [c.ShouldBindJSON(&req)]: no field of a [JSONRPCRequest] is required. *)
Definition ShouldBindJSON_JSONRPCRequest (c : Context) : option JSONRPCRequest.t :=
  jsonJSONRPCRequest c.

(** What a middleware leaves behind: [c.Next()] with the keys it set, or
    the response written before [c.Abort()]. *)
Inductive Flow :=
| Next (c : Context)
| Abort (r : Response).

(** *** The world outside the process

    The data engine keeps the committed state of the target database
    ([Store]); a transaction works on a [Session] and publishes it only by
    a commit that succeeds.  Library calls whose code is not the gateway's
    are answered by the environment. *)
(** What a [tx.Commit()] that returns an error leaves behind.
    [CommitRefused engine]: COMMIT was sent and the driver returned an error;
    the [Tx] is done, and [engine] is the committed state the engine is in,
    the old one when it aborted the transaction, another when it had
    applied the commit before the error reached the gateway.
    [CommitNotSent]: the context of the request was done, [Commit] returns
    its error and has sent nothing; the [Tx] is rolled back once, by the
    deferred [Rollback] or by the goroutine of [database/sql] that watches
    the context, whichever gets to it first (the model has the deferred
    call do it). *)
Inductive CommitError (Store : Type) :=
| CommitRefused (engine : Store)
| CommitNotSent.

Arguments CommitRefused {Store} engine.
Arguments CommitNotSent {Store}.

Record Env (Store Session : Type) := {
  sqlenv : Database.SqlEnv;
  (* time.Now(), in nanoseconds since the Unix epoch *)
  time_Now : Z;
  (* token.SignedString(key), [None] for an error *)
  jwt_SignedString : SigningMethod -> gmap string Any -> string -> option string;
  (* jwt.Parse(tokenString, keyFunc), [None] for err != nil *)
  jwt_Parse : string -> (Token -> option string) -> option Token;
  (* json.Marshal(params) *)
  json_Marshal : gmap string Any -> option string;
  (* db.QueryRowContext(ctx, query, arg).Scan(&nullRole), autocommitted *)
  db_QueryRow : string -> string -> Store -> Store * option NullString;
  (* db.BeginTx *)
  db_BeginTx : Store -> option Session;
  (* tx.ExecContext *)
  tx_Exec : string -> Session -> option Session;
  (* tx.QueryRowContext(ctx, query, arg).Scan(&resultJSON): the error text,
     or the session after the call and the row *)
  tx_QueryRow : string -> string -> Session -> string + Session * string;
  (* tx.Commit(): the committed state it leaves, [None] when it returns
     an error *)
  tx_Commit : Session -> option Store;
  (* what that error leaves, given the state committed before *)
  tx_CommitError : Session -> Store -> CommitError Store
}.

Arguments sqlenv {Store Session}.
Arguments time_Now {Store Session}.
Arguments jwt_SignedString {Store Session}.
Arguments jwt_Parse {Store Session}.
Arguments json_Marshal {Store Session}.
Arguments db_QueryRow {Store Session}.
Arguments db_BeginTx {Store Session}.
Arguments tx_Exec {Store Session}.
Arguments tx_QueryRow {Store Session}.
Arguments tx_Commit {Store Session}.
Arguments tx_CommitError {Store Session}.

(** What the engine is asked to do, in order. *)
Inductive Event :=
| EvQueryRow (query arg : string)
| EvBeginTx
| EvExec (stmt : string) (ok : bool)
| EvTxQueryRow (query arg : string) (ok : bool)
| EvCommit (ok : bool)
| EvRollback.

(** The pool registry, the committed state of the target database, and the
    transaction of the request at hand ([None]: none open; a [*sql.Tx] that
    is done).  A call that fails, for whatever reason, a cancelled request
    among them, is a call that returns an error; what the error of a commit
    leaves is the engine's to say ([CommitError]). *)
Record World (Store Session : Type) := {
  pools : Database.Pools;
  committed : Store;
  tx : option Session
}.

Arguments pools {Store Session}.
Arguments committed {Store Session}.
Arguments tx {Store Session}.

(** The sub-checks of the protected route that end in a 401, and the
    message [authMiddleware] writes for each. *)
Inductive AuthFailure :=
| AuthMissing
| AuthMalformed
| AuthScopeMismatch
| AuthInvalid.

Definition authFailureMessage (f : AuthFailure) : string :=
  match f with
  | AuthMissing => "Authorization header is missing"
  | AuthMalformed => "Authorization header is malformed"
  | AuthScopeMismatch => "Invalid token for this database"
  | AuthInvalid => "Invalid or expired token"
  end.

Section Handlers.

Context {Store Session : Type}.
Variable E : Env Store Session.
Variable cfg : Config.

(** A handler reads and changes the world and asks the engine for things:
    its result, the world it leaves, the events it caused. *)
Definition M (A : Type) : Type :=
  World Store Session -> A * World Store Session * list Event.

Definition ret {A : Type} (a : A) : M A := fun w => (a, w, []).

Definition bind {A B : Type} (m : M A) (k : A -> M B) : M B :=
  fun w =>
    let '(a, w1, ev1) := m w in
    let '(b, w2, ev2) := k a w1 in
    (b, w2, ev1 ++ ev2).

Notation "'do' x <- m ; k" := (bind m (fun x => k))
  (at level 10, x name, m at level 100, k at level 200).

(** [defer f()] in front of [body]: [f] runs when [body] has returned. *)
Definition defer {A : Type} (f : M unit) (body : M A) : M A :=
  do a <- body; do _ <- f; ret a.

Definition with_pools (w : World Store Session) (p : Database.Pools)
  : World Store Session :=
  {| pools := p; committed := committed w; tx := tx w |}.

Definition GetConnection (dbName : string) : M (option Database.DB) :=
  fun w =>
    let '(r, p) := Database.GetConnection (sqlenv E) cfg dbName (pools w) in
    (r, with_pools w p, []).

(** [database/sql]: a [Tx] is done after its first [Rollback], or [Commit]
    that is handed to the driver, whatever that call returned; every later
    call on it returns [ErrTxDone] and reaches no engine.  A [Commit] that
    finds the context of the request done returns before that and leaves
    the [Tx] open. *)
Definition BeginTx (db : Database.DB) : M bool :=
  fun w =>
    match db_BeginTx E (committed w) with
    | Some s =>
        (true, {| pools := pools w; committed := committed w; tx := Some s |},
         [EvBeginTx])
    | None => (false, w, [])
    end.

Definition ExecContext (stmt : string) : M bool :=
  fun w =>
    match tx w with
    | Some s =>
        match tx_Exec E stmt s with
        | Some s' =>
            (true, {| pools := pools w; committed := committed w; tx := Some s' |},
             [EvExec stmt true])
        | None => (false, w, [EvExec stmt false])
        end
    | None => (false, w, [])
    end.

Definition ErrTxDone : string :=
  "sql: transaction has already been committed or rolled back".

Definition QueryRowContext (query arg : string) : M (string + string) :=
  fun w =>
    match tx w with
    | Some s =>
        match tx_QueryRow E query arg s with
        | inr (s', row) =>
            (inr row,
             {| pools := pools w; committed := committed w; tx := Some s' |},
             [EvTxQueryRow query arg true])
        | inl err => (inl err, w, [EvTxQueryRow query arg false])
        end
    | None => (inl ErrTxDone, w, [])
    end.

Definition Commit : M bool :=
  fun w =>
    match tx w with
    | Some s =>
        match tx_Commit E s with
        | Some st =>
            (true, {| pools := pools w; committed := st; tx := None |},
             [EvCommit true])
        | None =>
            match tx_CommitError E s (committed w) with
            | CommitRefused engine =>
                (false, {| pools := pools w; committed := engine; tx := None |},
                 [EvCommit false])
            | CommitNotSent => (false, w, [])
            end
        end
    | None => (false, w, [])
    end.

Definition Rollback : M unit :=
  fun w =>
    match tx w with
    | Some _ =>
        (tt, {| pools := pools w; committed := committed w; tx := None |},
         [EvRollback])
    | None => (tt, w, [])
    end.

(** [db.QueryRowContext(ctx, query, arg).Scan(&nullRole)] on the pool. *)
Definition QueryRowNullString (db : Database.DB) (query arg : string)
  : M (option NullString) :=
  fun w =>
    let '(st, r) := db_QueryRow E query arg (committed w) in
    (r, {| pools := pools w; committed := st; tx := tx w |},
     [EvQueryRow query arg]).

(** [sql.Open] and [PingContext] of the throwaway connection of a login
    (its deferred [Close] changes nothing that is modelled). *)
Definition Open (dsn : string) : M (option Database.DB) :=
  fun w =>
    let '(r, p) := Database.Open (sqlenv E) dsn (pools w) in
    (r, with_pools w p, []).

Definition PingContext (db : Database.DB) : M bool :=
  fun w =>
    let '(ok, p) := Database.Ping (sqlenv E) db (pools w) in
    (ok, with_pools w p, []).

(** **** [handleLogin]

    The three log lines of the handler ([slog.Error] on lines 139 and 165,
    [slog.Warn] on line 150) are not modelled: the [slog] of the registry
    keeps the [slog.Info] lines of [GetConnection] only. *)

Definition loginConnStr (login password database : string) : string :=
  "host=" +:+ DBHost cfg +:+ " port=" +:+ pretty (DBPort cfg) +:+
  " user=" +:+ login +:+ " password=" +:+ password +:+
  " dbname=" +:+ database +:+ " sslmode=disable".

Definition sessionClaims (dbRole database : string) (now : Z) : gmap string Any :=
  <["db_role" := AString dbRole]>
    (<["db_name" := AString database]>
       (<["exp" := AInt64 (Unix (Add now (hours (JWTExpiryHours cfg))))]> ∅)).

Definition handleLogin (c : Context) : M Response :=
  match ShouldBindJSON_LoginRequest c with
  | None => ret (JSON StatusBadRequest (H [("error", "Invalid request body")]))
  | Some loginReq =>
      let connStr :=
        loginConnStr (LoginRequest.Login loginReq)
          (LoginRequest.Password loginReq) (Param c "database") in
      do tempDB <- Open connStr;
      match tempDB with
      | None =>
          ret (JSON StatusInternalServerError
                 (H [("error", "Internal authentication error")]))
      | Some tempDB =>
          do ok <- PingContext tempDB;
          if negb ok
          then ret (JSON StatusUnauthorized
                      (H [("error", "Invalid login or password")]))
          else
            let dbRole := LoginRequest.Login loginReq in
            let claims := sessionClaims dbRole (Param c "database") (time_Now E) in
            match jwt_SignedString E SigningMethodHS256 claims (JWTSecret cfg) with
            | None =>
                ret (JSON StatusInternalServerError
                       (H [("error", "Failed to create session token")]))
            | Some tokenString =>
                ret (JSON StatusOK (H [("token", tokenString)]))
            end
      end
  end.

(** **** [authMiddleware] *)

(** The key function handed to [jwt.Parse]: HMAC methods only. *)
Definition keyFunc (token : Token) : option string :=
  match Method token with
  | SigningMethodHMAC _ => Some (JWTSecret cfg)
  | SigningMethodOther _ => None
  end.

(** Lines 192 to 221: [Some] when the session-credential path decides the
    request, [None] when control falls through to the API-token path. *)
Definition tryJWT (c : Context) (authType tokenString : string) : option Flow :=
  if String.eqb (Strings.ToLower authType) "bearer" then
    match jwt_Parse E tokenString keyFunc with
    | Some token =>
        if Valid token then
          let '(claims, ok) :=
            match TokenClaims token with
            | MapClaims m => (m, true)
            | OtherClaims => (∅, false)
            end in
          let '(dbRole, roleOk) := assertString (claims !! "db_role") in
          let '(dbName, dbNameOk) := assertString (claims !! "db_name") in
          if ok && roleOk && negb (String.eqb dbRole EmptyString) && dbNameOk then
            let requestedDb := Param c "database" in
            if negb (String.eqb dbName requestedDb)
            then Some (Abort (JSON StatusUnauthorized
                                (errorResponse 0 "Invalid token for this database" ANil)))
            else Some (Next (Set_ c "db_role" (AString dbRole)))
          else None
        else None
    | None => None
    end
  else None.

Definition verifyQuery : string := "SELECT pgarachne.verify_api_token($1)".

Definition authMiddleware (c : Context) : M Flow :=
  let authHeader := GetHeader c "Authorization" in
  if String.eqb authHeader EmptyString then
    ret (Abort (JSON StatusUnauthorized
                  (errorResponse 0 "Authorization header is missing" ANil)))
  else
    match Strings.SplitN authHeader " " 2 with
    | [authType; tokenString] =>
        match tryJWT c authType tokenString with
        | Some flow => ret flow
        | None =>
            let databaseName := Param c "database" in
            do r <- GetConnection databaseName;
            match r with
            | None =>
                ret (Abort (JSON StatusServiceUnavailable
                              (errorResponse 0 "Database connection failed" ANil)))
            | Some db =>
                do nullRole <- QueryRowNullString db verifyQuery tokenString;
                match nullRole with
                | Some {| NullString_String := role; NullString_Valid := true |} =>
                    ret (Next (Set_ c "db_role" (AString role)))
                | _ =>
                    ret (Abort (JSON StatusUnauthorized
                                  (errorResponse 0 "Invalid or expired token" ANil)))
                end
            end
        end
    | _ =>
        ret (Abort (JSON StatusUnauthorized
                      (errorResponse 0 "Authorization header is malformed" ANil)))
    end.

(** The sub-check a request fails when [authMiddleware] answers it with a
    401: the branch of the function that writes the response. *)
Definition failedCheck (c : Context) : AuthFailure :=
  if String.eqb (GetHeader c "Authorization") EmptyString then AuthMissing
  else
    match Strings.SplitN (GetHeader c "Authorization") " " 2 with
    | [authType; tokenString] =>
        match tryJWT c authType tokenString with
        | Some _ => AuthScopeMismatch
        | None => AuthInvalid
        end
    | _ => AuthMalformed
    end.

(** **** [handleFunctionCall] *)

(** Line 302. *)
Definition quotedRole (dbRole : string) : string :=
  Strings.dq +:+
  Strings.ReplaceAll dbRole Strings.dq (Strings.dq +:+ Strings.dq) +:+
  Strings.dq.

(** Line 303. *)
Definition setRoleStatement (dbRole : string) : string :=
  "SET LOCAL ROLE " +:+ quotedRole dbRole.

(** Lines 310 to 317. *)
Definition callQuery (functionName : string) : string :=
  if String.eqb functionName "capabilities"
  then "SELECT pgarachne.capabilities($1::jsonb)::json"
  else "SELECT " +:+ functionName +:+ "($1::jsonb)::json".

(** Lines 301 to 339, between [defer tx.Rollback()] and the return. *)
Definition inTransaction (functionName dbRole paramsJSON : string) (id : Any)
  : M Response :=
  do ok <- ExecContext (setRoleStatement dbRole);
  if negb ok then
    ret (JSON StatusForbidden
           (errorResponse (-32001) "Permission denied for the specified role" id))
  else
    let query := callQuery functionName in
    do r <- QueryRowContext query paramsJSON;
    match r with
    | inl err =>
        if Strings.Contains err "does not exist"
        then ret (JSON StatusNotFound (errorResponse 0 "Function does not exist" id))
        else ret (JSON StatusInternalServerError
                    (errorResponse 0 ("Function call failed: " +:+ err) id))
    | inr resultJSON =>
        do ok <- Commit;
        if negb ok then
          ret (JSON StatusInternalServerError
                 (errorResponse 0 "Transaction commit failed" id))
        else
          ret (JSON StatusOK
                 (RPC {| JSONRPCResponse.JSONRPC := "2.0";
                         JSONRPCResponse.Result := resultJSON;
                         JSONRPCResponse.Error := None;
                         JSONRPCResponse.ID := id |}))
    end.

Definition handleFunctionCall (c : Context) : M Response :=
  let databaseName := Param c "database" in
  let functionName := Param c "function" in
  if String.eqb functionName "login" then
    ret (JSON StatusForbidden
           (errorResponse 0 "Login must be called via the public endpoint" ANil))
  else
    do r <- GetConnection databaseName;
    match r with
    | None =>
        ret (JSON StatusServiceUnavailable
               (errorResponse 0 "Database connection failed" ANil))
    | Some db =>
        match ShouldBindJSON_JSONRPCRequest c with
        | None =>
            ret (JSON StatusBadRequest (errorResponse 0 "Invalid JSON request" ANil))
        | Some req =>
            let id := JSONRPCRequest.ID req in
            let c := Set_ c "jsonrpc_id" id in
            let dbRole := GetString c "db_role" in
            if String.eqb dbRole EmptyString then
              ret (JSON StatusInternalServerError
                     (errorResponse (-32000)
                        "Internal Server Error: User role not identified" id))
            else
              match json_Marshal E (JSONRPCRequest.Params req) with
              | None =>
                  ret (JSON StatusInternalServerError
                         (errorResponse 0 "Failed to marshal params" id))
              | Some paramsJSON =>
                  do began <- BeginTx db;
                  if negb began then
                    ret (JSON StatusServiceUnavailable
                           (errorResponse 0 "Database unavailable" id))
                  else
                    defer Rollback (inTransaction functionName dbRole paramsJSON id)
              end
        end
    end.

(** The protected group of [Run]: [authMiddleware], then the handler unless
    the middleware aborted. *)
Definition protectedAPI (c : Context) : M Response :=
  do flow <- authMiddleware c;
  match flow with
  | Next c' => handleFunctionCall c'
  | Abort r => ret r
  end.

(** **** The routes of [Run] under [/api]

    Lines 58 to 63 register two routes for [POST /api/:database/...]: the
    static segment [login], with [handleLogin] and no middleware, and the
    parameter [:function] of the protected group.  gin's tree tries the
    static child of a node before its parameter child, so the path segment
    [login] is always answered by [handleLogin], and the protected group
    gets every other segment.  [Param c "function"] stands for that path
    segment; [handleLogin] reads no parameter but [database]. *)
Definition POST_api (c : Context) : M Response :=
  if String.eqb (Param c "function") "login"
  then handleLogin c
  else protectedAPI c.

End Handlers.

(** The responses [handleFunctionCall] writes before it has parsed the
    request envelope. *)
Definition refusedLogin : Response :=
  JSON StatusForbidden
    (errorResponse 0 "Login must be called via the public endpoint" ANil).

Definition poolUnavailable : Response :=
  JSON StatusServiceUnavailable (errorResponse 0 "Database connection failed" ANil).

Definition malformedBody : Response :=
  JSON StatusBadRequest (errorResponse 0 "Invalid JSON request" ANil).

(** *** Reading a trace *)

Definition is_begin (e : Event) : bool :=
  match e with EvBeginTx => true | _ => false end.

Definition is_commit (e : Event) : bool :=
  match e with EvCommit true => true | _ => false end.

(** A ROLLBACK sent to the engine. *)
Definition is_rollback (e : Event) : bool :=
  match e with EvRollback => true | _ => false end.

(** A request that ends the transaction: COMMIT, accepted or not, or
    ROLLBACK. *)
Definition ends_tx (e : Event) : bool :=
  match e with EvCommit _ | EvRollback => true | _ => false end.

Definition is_call (e : Event) : bool :=
  match e with EvTxQueryRow _ _ _ => true | _ => false end.

Definition is_verify (e : Event) : bool :=
  match e with EvQueryRow _ _ => true | _ => false end.

Definition count (f : Event -> bool) (evs : list Event) : nat :=
  length (List.filter f evs).

(** The three parts of a run. *)
Definition outcome {Store Session A : Type}
    (r : A * World Store Session * list Event) : A := fst (fst r).

Definition after {Store Session A : Type}
    (r : A * World Store Session * list Event) : World Store Session := snd (fst r).

Definition trace {Store Session A : Type}
    (r : A * World Store Session * list Event) : list Event := snd r.

End Server.

(** ** A small engine to run the handlers on

    The target database holds a counter; the procedure [api.server_info]
    increments it and is the only one there is.  The role [demo] exists,
    the API token [api-key] belongs to it, and [shop-token] is the session
    credential minted for it on the database [shop]. *)
Module Demo.
Import Config Server.

Definition cfg : Config :=
  {| DBHost := "localhost"; DBPort := 5432; DBUser := "pgarachne";
     HTTPPort := "8080"; JWTSecret := "s3cret"; JWTExpiryHours := 8;
     AllowedOrigins := ["*"]; StaticFilesPath := EmptyString;
     LogLevel := "INFO"; LogOutput := "stdout" |}.

Definition now : Z := 1700000000123456789%Z.

Definition shopToken : Token :=
  {| Method := SigningMethodHS256;
     TokenClaims := MapClaims (sessionClaims cfg "demo" "shop" now);
     Valid := true |}.

(** [dbUp]: the database answers probes; [roleOk]: the engine accepts the
    role switch; [commitOk]: it accepts the commit, and aborts the
    transaction when it does not. *)
Definition env (dbUp roleOk commitOk : bool) : Env nat nat :=
  {| sqlenv := {| Database.sql_Open := fun _ => true;
                  Database.sql_Ping := fun _ _ => dbUp |};
     time_Now := now;
     jwt_SignedString := fun _ _ _ => Some "shop-token";
     jwt_Parse := fun tokenString keyFunc =>
       if String.eqb tokenString "shop-token" then
         match keyFunc shopToken with
         | Some key => if String.eqb key "s3cret" then Some shopToken else None
         | None => None
         end
       else None;
     json_Marshal := fun _ => Some "{}";
     db_QueryRow := fun _ arg st =>
       (st,
        Some (if String.eqb arg "api-key"
              then {| NullString_String := "demo"; NullString_Valid := true |}
              else {| NullString_String := EmptyString; NullString_Valid := false |}));
     db_BeginTx := fun st => Some st;
     tx_Exec := fun _ s => if roleOk then Some s else None;
     tx_QueryRow := fun query _ s =>
       if String.eqb query "SELECT api.server_info($1::jsonb)::json"
       then inr (S s, "{}")
       else inl "function does not exist";
     tx_Commit := fun s => if commitOk then Some s else None;
     tx_CommitError := fun _ st => CommitRefused st |}.

Definition request (database function authorization : string) (id : Any)
  : Context :=
  {| Param := fun k =>
       if String.eqb k "database" then database
       else if String.eqb k "function" then function else EmptyString;
     GetHeader := fun k =>
       if String.eqb k "Authorization" then authorization else EmptyString;
     jsonLoginRequest :=
       Some {| LoginRequest.Login := "demo"; LoginRequest.Password := "pw" |};
     jsonJSONRPCRequest :=
       Some {| JSONRPCRequest.JSONRPC := "2.0";
               JSONRPCRequest.Method := function;
               JSONRPCRequest.Params := ∅;
               JSONRPCRequest.ID := id |};
     Keys := ∅ |}.

(** The same request once [authMiddleware] has resolved the role. *)
Definition authenticated (role : string) (c : Context) : Context :=
  Set_ c "db_role" (AString role).

Definition noPools : Database.Pools :=
  {| Database.dbConnections := ∅; Database.clock := 0;
     Database.handles := 0; Database.slog := [] |}.

Definition world : World nat nat :=
  {| pools := noPools; committed := 0%nat; tx := None |}.

(** Requests of the protected route, as they arrive. *)
Definition shopCall : Context :=
  request "shop" "api.server_info" "Bearer shop-token" (AString "7").

Definition warehouseCall : Context :=
  request "warehouse" "api.server_info" "Bearer shop-token" (AString "7").

Definition noHeader : Context :=
  request "shop" "api.server_info" EmptyString (AString "7").

Definition schemeOnly : Context :=
  request "shop" "api.server_info" "Bearer" (AString "7").

Definition loginCall : Context :=
  request "shop" "login" EmptyString (AString "7").

Definition apiKeyCall : Context :=
  request "shop" "api.server_info" "Bearer api-key" (AString "7").

Definition loginCallWithToken : Context :=
  request "shop" "login" "Bearer shop-token" (AString "7").

(** Requests as the handler gets them from the middleware. *)
Definition dispatch : Context := authenticated "demo" shopCall.

Definition oddName : string := "pg_sleep(10)::text||".

Definition oddCall : Context :=
  authenticated "demo"
    (request "shop" oddName "Bearer shop-token" (AString "7")).

Definition oddRole : string := "de" +:+ Strings.dq +:+ "mo".

Definition oddRoleCall : Context := authenticated oddRole shopCall.

(** Three callers of [GetConnection] for the same new database, taking
    turns statement by statement. *)
Definition callers : list string := ["shop"; "shop"; "shop"].

Definition roundRobin : list nat := concat (repeat [0; 1; 2]%nat 30).

(** An engine whose second probe fails, and two callers that both find
    no pool on the fast path: the first creates one and returns, then the
    second takes the write lock, finds the pool, probes it, and fails. *)
Definition flaky : Database.SqlEnv :=
  {| Database.sql_Open := fun _ => true;
     Database.sql_Ping := fun n _ => negb (Nat.eqb n 1) |}.

Definition overtake : list nat :=
  ([0; 0; 0; 0] ++ [1; 1; 1; 1] ++ repeat 0 7 ++ repeat 1 7)%nat.

(** An engine that applies the commit and whose answer is lost on the way
    back: [tx.Commit()] returns the error of the connection, and what the
    transaction wrote is committed. *)
Definition lostAck : Env nat nat :=
  {| sqlenv := sqlenv (env true true true);
     time_Now := now;
     jwt_SignedString := jwt_SignedString (env true true true);
     jwt_Parse := jwt_Parse (env true true true);
     json_Marshal := json_Marshal (env true true true);
     db_QueryRow := db_QueryRow (env true true true);
     db_BeginTx := db_BeginTx (env true true true);
     tx_Exec := tx_Exec (env true true true);
     tx_QueryRow := tx_QueryRow (env true true true);
     tx_Commit := fun _ => None;
     tx_CommitError := fun s _ => CommitRefused s |}.

(** A request that is cancelled before the commit: [tx.Commit()] returns
    the error of the context and sends nothing. *)
Definition cancelled : Env nat nat :=
  {| sqlenv := sqlenv (env true true true);
     time_Now := now;
     jwt_SignedString := jwt_SignedString (env true true true);
     jwt_Parse := jwt_Parse (env true true true);
     json_Marshal := json_Marshal (env true true true);
     db_QueryRow := db_QueryRow (env true true true);
     db_BeginTx := db_BeginTx (env true true true);
     tx_Exec := tx_Exec (env true true true);
     tx_QueryRow := tx_QueryRow (env true true true);
     tx_Commit := fun _ => None;
     tx_CommitError := fun _ _ => CommitNotSent |}.

(** A configuration whose validity, in nanoseconds, is past the largest
    [time.Duration]: 2562047 hours are the most an [int64] holds. *)
Definition longLived : Config :=
  {| DBHost := "localhost"; DBPort := 5432; DBUser := "pgarachne";
     HTTPPort := "8080"; JWTSecret := "s3cret"; JWTExpiryHours := 2562048;
     AllowedOrigins := ["*"]; StaticFilesPath := EmptyString;
     LogLevel := "INFO"; LogOutput := "stdout" |}.

(** A signer whose token shows the expiry it was given. *)
Definition showsExpiry : Env nat nat :=
  {| sqlenv := sqlenv (env true true true);
     time_Now := now;
     jwt_SignedString := fun _ claims _ =>
       match claims !! "exp" with
       | Some (AInt64 exp) => Some ("exp=" +:+ pretty exp)
       | _ => None
       end;
     jwt_Parse := jwt_Parse (env true true true);
     json_Marshal := json_Marshal (env true true true);
     db_QueryRow := db_QueryRow (env true true true);
     db_BeginTx := db_BeginTx (env true true true);
     tx_Exec := tx_Exec (env true true true);
     tx_QueryRow := tx_QueryRow (env true true true);
     tx_Commit := tx_Commit (env true true true);
     tx_CommitError := tx_CommitError (env true true true) |}.

(** A registered pool that has stopped answering for a while: the first
    two probes of the process fail, the later ones succeed. *)
Definition recovering : Database.SqlEnv :=
  {| Database.sql_Open := fun _ => true;
     Database.sql_Ping := fun n _ => (2 <=? n)%nat |}.

Definition oldPool : Database.DB :=
  {| Database.db_id := 0; Database.db_dsn := Database.connStr cfg "shop" |}.

Definition onePool : Database.Pools :=
  {| Database.dbConnections := {["shop" := oldPool]}; Database.clock := 0;
     Database.handles := 1; Database.slog := [] |}.

(** The first caller looks the pool up and leaves the read lock; the second
    runs the whole call and replaces the pool; the first probes what it had
    looked up. *)
Definition lateProbe : list nat :=
  (repeat 0 3 ++ repeat 1 11 ++ [0])%nat.

End Demo.

(** ** What the specification says in its own words *)
Module Spec.

(** Modelled from the spec: the identifier grammar that section 4.3
    requires a procedure name to be checked against before it is
    interpolated (legal identifier characters, optional single
    schema-dot-name qualification).  [handleFunctionCall] has no such check
    (see the TODO at line 315), so there is no source to translate. *)
Definition identStart (c : ascii) : bool :=
  let n := Ascii.nat_of_ascii c in
  (Nat.leb 65 n && Nat.leb n 90) || (Nat.leb 97 n && Nat.leb n 122)
  || Nat.eqb n 95.

Definition identChar (c : ascii) : bool :=
  let n := Ascii.nat_of_ascii c in
  identStart c || (Nat.leb 48 n && Nat.leb n 57).

Fixpoint allChars (f : ascii -> bool) (s : string) : bool :=
  match s with
  | EmptyString => true
  | String c s' => f c && allChars f s'
  end.

Definition identifier (s : string) : bool :=
  match s with
  | EmptyString => false
  | String c s' => identStart c && allChars identChar s'
  end.

(** The pieces of [s] between its dots. *)
Fixpoint splitDots (s : string) : list string :=
  match s with
  | EmptyString => [EmptyString]
  | String c s' =>
      if Ascii.eqb c "."%char then EmptyString :: splitDots s'
      else match splitDots s' with
           | p :: ps => String c p :: ps
           | [] => [String c EmptyString]
           end
  end.

Definition validProcedureName (s : string) : bool :=
  match splitDots s with
  | [name] => identifier name
  | [schema; name] => identifier schema && identifier name
  | _ => false
  end.

(** A string with every double quote in it written twice. *)
Fixpoint doubleQuotes (s : string) : string :=
  match s with
  | EmptyString => EmptyString
  | String c s' =>
      if Ascii.eqb c Strings.dquote
      then String Strings.dquote (String Strings.dquote (doubleQuotes s'))
      else String c (doubleQuotes s')
  end.

End Spec.

(** ** More on the registry: what is read off its reachable states *)
Module Invariants.
Import Database.

(** The statements a caller has left at most before it returns. *)
Definition rank (pc : PC) : nat :=
  match pc with
  | PcStart => 11
  | PcRLocked => 10
  | PcRUnlock _ => 9
  | PcFast _ => 8
  | PcLock => 7
  | PcRecheck => 6
  | PcSlow _ => 5
  | PcCreate => 4
  | PcPingNew _ => 3
  | PcStore _ => 2
  | PcUnlock _ => 1
  | PcDone _ => 0
  end.

Definition total_rank (ts : list Thread) : nat :=
  list_sum (map (fun t => rank (t_pc t)) ts).

(** The mutex agrees with where the callers stand. *)
Definition mutex_ok (s : System) : Prop :=
  readers (mu (shared s)) = tally holds_rlock (threads s) /\
  tally holds_lock (threads s) = (if writer (mu (shared s)) then 1 else 0) /\
  (writer (mu (shared s)) = true -> readers (mu (shared s)) = 0).

(** Every registered pool was opened with the data source name of the
    database it is registered for. *)
Definition well_named (cfg : Config.Config) (reg : gmap string DB) : Prop :=
  forall d db, reg !! d = Some db -> db_dsn db = connStr cfg d.

(** A pool a caller holds in a local variable, looked up or opened, has
    the data source name of the caller's database. *)
Definition holds_own (cfg : Config.Config) (t : Thread) : Prop :=
  match t_pc t with
  | PcRUnlock (Some db) | PcFast (Some db) | PcSlow (Some db)
  | PcUnlock (Some db) | PcDone (Some db)
  | PcPingNew db | PcStore db => db_dsn db = connStr cfg (t_dbName t)
  | _ => True
  end.

Definition names_ok (cfg : Config.Config) (s : System) : Prop :=
  well_named cfg (dbConnections (pools (shared s))) /\
  Forall (holds_own cfg) (threads s).

End Invariants.

(** ** How a role is resolved *)
Module Resolve.
Import Server.

Section Resolve.

Context {Store Session : Type}.
Variable E : Env Store Session.
Variable cfg : Config.Config.

(** The header's bearer value is a session credential that [jwt.Parse]
    accepts, whose claims name this role and the database of the path. *)
Definition bySession (c : Context) (role : string) : Prop :=
  exists authType tokenString token m,
    Strings.SplitN (GetHeader c "Authorization") " " 2 = [authType; tokenString] /\
    Strings.ToLower authType = "bearer" /\
    jwt_Parse E tokenString (keyFunc cfg) = Some token /\
    Valid token = true /\
    TokenClaims token = MapClaims m /\
    m !! "db_role" = Some (AString role) /\
    role <> EmptyString /\
    m !! "db_name" = Some (AString (Param c "database")).

(** The second part of the header, whatever the first, is an API token for
    which [pgarachne.verify_api_token], asked on a pool of the path's
    database, returns this role. *)
Definition byToken (c : Context) (w : World Store Session) (role : string) : Prop :=
  exists authType tokenString,
    Strings.SplitN (GetHeader c "Authorization") " " 2 = [authType; tokenString] /\
    is_Some (fst (Database.GetConnection (sqlenv E) cfg (Param c "database") (pools w))) /\
    snd (db_QueryRow E verifyQuery tokenString (committed w))
      = Some {| NullString_String := role; NullString_Valid := true |}.

End Resolve.

End Resolve.

(** ** Go's [strconv] and the rest of [strings], as far as [config.Load]
    uses them *)
Module Strconv.

Definition is_digit (c : ascii) : bool :=
  let n := Ascii.nat_of_ascii c in Nat.leb 48 n && Nat.leb n 57.

(** The decimal value of a string of digits, after [acc]. *)
Fixpoint digits (acc : Z) (s : string) : option Z :=
  match s with
  | EmptyString => Some acc
  | String c s' =>
      if is_digit c
      then digits (10 * acc + Z.of_nat (Ascii.nat_of_ascii c - 48)) s'
      else None
  end.

(** [strconv.Atoi(s)] where [int] has 64 bits: an optional sign, then
    decimal digits, at least one, and a value in range; [None] is the
    error. *)
Definition Atoi (s : string) : option Z :=
  let '(neg, body) :=
    match s with
    | String c s' =>
        if Ascii.eqb c "-"%char then (true, s')
        else if Ascii.eqb c "+"%char then (false, s')
        else (false, s)
    | EmptyString => (false, s)
    end in
  match body with
  | EmptyString => None
  | _ =>
      match digits 0 body with
      | Some n =>
          let v := if neg then (- n)%Z else n in
          if ((- 2 ^ 63 <=? v) && (v <? 2 ^ 63))%Z then Some v else None
      | None => None
      end
  end.

End Strconv.

Module GoStrings.

(** [strings.Split(s, sep)] for a non-empty [sep]: [SplitN] with no limit,
    which [Count(s, sep) + 1] pieces never reach. *)
Definition Split (s sep : string) : list string :=
  Strings.SplitN s sep (S (String.length s)).

Definition byte (n : nat) : ascii := Ascii.ascii_of_nat n.

(** The UTF-8 encodings of the runes for which [unicode.IsSpace] holds:
    tab to carriage return, space, U+0085, U+00A0, U+1680, U+2000 to
    U+200A, U+2028, U+2029, U+202F, U+205F and U+3000. *)
Definition space_runes : list (list ascii) :=
  map (map byte)
    [[9]; [10]; [11]; [12]; [13]; [32]; [194; 133]; [194; 160];
     [225; 154; 128];
     [226; 128; 128]; [226; 128; 129]; [226; 128; 130]; [226; 128; 131];
     [226; 128; 132]; [226; 128; 133]; [226; 128; 134]; [226; 128; 135];
     [226; 128; 136]; [226; 128; 137]; [226; 128; 138];
     [226; 128; 168]; [226; 128; 169]; [226; 128; 175];
     [226; 129; 159]; [227; 128; 128]]%nat.

Fixpoint strip (p s : list ascii) : option (list ascii) :=
  match p, s with
  | [], _ => Some s
  | a :: p', b :: s' => if Ascii.eqb a b then strip p' s' else None
  | _ :: _, [] => None
  end.

(** [s] without the first of [runes] it starts with. *)
Fixpoint strip_first (runes : list (list ascii)) (s : list ascii)
  : option (list ascii) :=
  match runes with
  | [] => None
  | r :: rs =>
      match strip r s with
      | Some s' => Some s'
      | None => strip_first rs s
      end
  end.

Fixpoint trim (fuel : nat) (runes : list (list ascii)) (s : list ascii)
  : list ascii :=
  match fuel with
  | O => s
  | S fuel' =>
      match strip_first runes s with
      | Some s' => trim fuel' runes s'
      | None => s
      end
  end.

(** [strings.TrimSpace(s)]: the leading white-space runes go, then the
    trailing ones, each read as Go decodes it from its end of the string. *)
Definition TrimSpace (s : string) : string :=
  let l := list_ascii_of_string s in
  let l := trim (length l) space_runes l in
  let r := trim (length l) (map (@rev ascii) space_runes) (rev l) in
  string_of_list_ascii (rev r).

End GoStrings.

(** ** [internal/config]: [Load] *)
Module ConfigLoad.
Import Config.

(** The process environment; [os.Getenv] gives the empty string for a
    variable that is not set. *)
Definition Environ := gmap string string.

Definition Getenv (env : Environ) (key : string) : string :=
  default EmptyString (env !! key).

(** [os.Stat]: a directory, another file, [os.IsNotExist], another error. *)
Inductive StatResult := StatDir | StatFile | StatNotExist | StatError.

(** What the file system and the process give [Load]: [godotenv.Load] of a
    path on an environment (the environment it leaves, or an error),
    [os.Stat], [os.UserHomeDir], [filepath.Join] and [filepath.Abs]. *)
Record Os := {
  godotenv_Load : string -> Environ -> option Environ;
  os_Stat : string -> StatResult;
  os_UserHomeDir : option string;
  filepath_Join : list string -> string;
  filepath_Abs : string -> option string
}.

(** The errors [Load] returns, by the [fmt.Errorf] that makes them. *)
Inductive LoadError :=
| ErrConfigFile (configPath : string)
| ErrDBPort (value : string)
| ErrJWTExpiryHours (value : string)
| ErrStaticAbs (staticPath : string)
| ErrStaticNotExist (absPath : string)
| ErrStaticStat
| ErrStaticNotDir (absPath : string)
| ErrMissingDatabase
| ErrMissingJWTSecret.

(** Lines 57 to 74: the places searched when no path is given. *)
Definition searchPaths (os : Os) (env : Environ) : list string :=
  let configHome := Getenv env "XDG_CONFIG_HOME" in
  let configHome :=
    if String.eqb configHome EmptyString then
      match os_UserHomeDir os with
      | Some homeDir => filepath_Join os [homeDir; ".config"]
      | None => configHome
      end
    else configHome in
  ["pgarachne.env"]
  ++ (if negb (String.eqb configHome EmptyString)
      then [filepath_Join os [configHome; "pgarachne"; "pgarachne.env"]]
      else [])
  ++ ["/etc/pgarachne/pgarachne.env"].

(** Lines 76 to 85: the first path that exists and loads. *)
Fixpoint loadFirst (os : Os) (env : Environ) (paths : list string)
  : string * Environ :=
  match paths with
  | [] => (EmptyString, env)
  | path :: rest =>
      match os_Stat os path with
      | StatDir | StatFile =>
          match godotenv_Load os path env with
          | Some env' => (path, env')
          | None => loadFirst os env rest
          end
      | _ => loadFirst os env rest
      end
  end.

(** Lines 136 to 143: the loop over the pieces of [ALLOWED_ORIGINS]. *)
Definition parseOrigins (allowedOriginsStr : string) : list string :=
  fold_left
    (fun acc origin =>
       let trimmedOrigin := GoStrings.TrimSpace origin in
       if negb (String.eqb trimmedOrigin EmptyString)
       then acc ++ [trimmedOrigin] else acc)
    (GoStrings.Split allowedOriginsStr ",") [].

(** Lines 93 to 176, once the file is loaded: the configuration read from
    the environment. *)
Definition fromEnv (os : Os) (env : Environ) : LoadError + Config :=
  let logLevel := Getenv env "LOG_LEVEL" in
  let logLevel := if String.eqb logLevel EmptyString then "INFO" else logLevel in
  let logOutput := Getenv env "LOG_OUTPUT" in
  let logOutput :=
    if String.eqb logOutput EmptyString then "stdout" else logOutput in
  let dbPortStr := Getenv env "DB_PORT" in
  match (if negb (String.eqb dbPortStr EmptyString)
         then Strconv.Atoi dbPortStr else Some 0%Z) with
  | None => inl (ErrDBPort dbPortStr)
  | Some dbPort =>
      let jwtExpiryStr := Getenv env "JWT_EXPIRY_HOURS" in
      match (if negb (String.eqb jwtExpiryStr EmptyString)
             then Strconv.Atoi jwtExpiryStr else Some 8%Z) with
      | None => inl (ErrJWTExpiryHours jwtExpiryStr)
      | Some jwtExpiryHours =>
          let httpPort := Getenv env "HTTP_PORT" in
          let httpPort :=
            if String.eqb httpPort EmptyString then "8080" else httpPort in
          let allowedOriginsStr := Getenv env "ALLOWED_ORIGINS" in
          let allowedOrigins :=
            if negb (String.eqb allowedOriginsStr EmptyString)
            then parseOrigins allowedOriginsStr else [] in
          let allowedOrigins :=
            if Nat.eqb (length allowedOrigins) 0 then ["*"] else allowedOrigins in
          let staticPath := Getenv env "STATIC_FILES_PATH" in
          let static : LoadError + string :=
            if negb (String.eqb staticPath EmptyString) then
              match filepath_Abs os staticPath with
              | None => inl (ErrStaticAbs staticPath)
              | Some absPath =>
                  match os_Stat os absPath with
                  | StatNotExist => inl (ErrStaticNotExist absPath)
                  | StatError => inl ErrStaticStat
                  | StatFile => inl (ErrStaticNotDir absPath)
                  | StatDir => inr absPath
                  end
              end
            else inr EmptyString in
          match static with
          | inl err => inl err
          | inr staticFilesPath =>
              if String.eqb (Getenv env "DB_HOST") EmptyString
                 || String.eqb (Getenv env "DB_USER") EmptyString
                 || Z.eqb dbPort 0
              then inl ErrMissingDatabase
              else if String.eqb (Getenv env "JWT_SECRET") EmptyString
              then inl ErrMissingJWTSecret
              else
                inr {| DBHost := Getenv env "DB_HOST";
                       DBPort := dbPort;
                       DBUser := Getenv env "DB_USER";
                       HTTPPort := httpPort;
                       JWTSecret := Getenv env "JWT_SECRET";
                       JWTExpiryHours := jwtExpiryHours;
                       AllowedOrigins := allowedOrigins;
                       StaticFilesPath := staticFilesPath;
                       LogLevel := logLevel;
                       LogOutput := logOutput |}
          end
      end
  end.

(** [Load(configPath)]: the configuration or the error, the environment
    the call leaves, and the file named on standard output, empty when
    none was loaded. *)
Definition Load (os : Os) (configPath : string) (env : Environ)
  : (LoadError + Config) * Environ * string :=
  if negb (String.eqb configPath EmptyString) then
    match godotenv_Load os configPath env with
    | None => (inl (ErrConfigFile configPath), env, EmptyString)
    | Some env' => (fromEnv os env', env', configPath)
    end
  else
    let '(loadedFile, env') := loadFirst os env (searchPaths os env) in
    (fromEnv os env', env', loadedFile).

End ConfigLoad.

(** ** [Run]: the origins the CORS middleware lets in *)
Module Cors.
Import Config.

(** Lines 46 to 50 of [server.go]: the loop over the allowed origins. *)
Fixpoint listed (origin : string) (allowed : list string) : bool :=
  match allowed with
  | [] => false
  | allowedOrigin :: rest =>
      if String.eqb allowedOrigin origin then true else listed origin rest
  end.

(** Lines 41 to 51 of [server.go]. *)
Definition AllowOriginFunc (cfg : Config) (origin : string) : bool :=
  if Nat.eqb (length (AllowedOrigins cfg)) 1
     && String.eqb (nth 0 (AllowedOrigins cfg) EmptyString) "*"
  then true
  else listed origin (AllowedOrigins cfg).

End Cors.

(** ** [internal/daemon] (Unix) and [cmd/pgarachne]: the process *)
Module Daemon.
Import Config.

Definition PidFile : string := "/tmp/pgarachne.pid".

(** [strconv.Itoa]. *)
Definition Itoa (n : Z) : string := pretty n.

(** What [os.ReadFile(PidFile)] finds: the file's bytes, no file, or a file
    it cannot read. *)
Inductive FileState := Present (data : string) | Absent | Unreadable.

Inductive Signal := SIGTERM | Signal0.

(** The process as the operating system has it: the PID file and the
    environment variables. *)
Record World := { pidFile : FileState; environ : ConfigLoad.Environ }.

(** What the operating system answers.  [os.Args] is [arg0 :: args];
    [cmd_Start] is the PID of the child or an error; [os_WriteFile] and
    [os_Remove] are [None] when they succeed and otherwise the state the
    failure leaves the file in; [os_FindProcess] and [process_Signal] tell
    whether the call returned no error.  The last three are what [main]
    needs besides: the file system [config.Load] reads, whether the log
    file opens, and whether [Run] returns without an error. *)
Record Sys := {
  arg0 : string;
  args : list string;
  cmd_Start : string -> list string -> option Z;
  os_WriteFile : string -> FileState -> option FileState;
  os_Remove : FileState -> option FileState;
  os_FindProcess : Z -> bool;
  process_Signal : Z -> Signal -> bool;
  fs : ConfigLoad.Os;
  os_OpenFile : string -> bool;
  server_Run : Config -> bool
}.

(** The lines written to standard output, by the call that writes them. *)
Inductive Message :=
| MsgAlreadyRunning
| MsgStartFailed
| MsgStartedNoPidFile (pid : Z)
| MsgStarted (pid : Z)
| MsgNotRunning
| MsgReadFailed
| MsgInvalidPid
| MsgFindFailed
| MsgStopFailed (pid : Z)
| MsgStoppedNotRemoved (pid : Z)
| MsgStopped
| MsgVersion (version : string)
| MsgLoadedConfiguration (loadedFile : string)
| MsgNoConfigurationFile.

Inductive Level := LevelDebug | LevelInfo | LevelWarn | LevelError.

Inductive Event :=
| EvPrint (msg : Message)
| EvSpawn (name : string) (childArgs : list string) (pid : option Z)
| EvWritePid (data : string) (ok : bool)
| EvRemovePid (ok : bool)
| EvSignal (pid : Z) (sig : Signal) (ok : bool)
| EvSleep
| EvUsage
| EvSlog (level : Level) (msg : string)
| EvOpenLog (path : string) (ok : bool)
| EvSetLogger (level : Level) (output : string)
| EvRun (cfg : Config) (ok : bool).

(** A call returns, or the process exits inside it. *)
Inductive Result (A : Type) := Returned (a : A) | Exited (code : Z).
Arguments Returned {A} a.
Arguments Exited {A} code.

Definition M (A : Type) : Type := World -> Result A * World * list Event.

Definition ret {A : Type} (a : A) : M A := fun w => (Returned a, w, []).

Definition bind {A B : Type} (m : M A) (k : A -> M B) : M B :=
  fun w =>
    match m w with
    | (Returned a, w1, ev1) =>
        let '(b, w2, ev2) := k a w1 in (b, w2, ev1 ++ ev2)
    | (Exited code, w1, ev1) => (Exited code, w1, ev1)
    end.

Local Notation "'do' x <- m ; k" := (bind m (fun x => k))
  (at level 10, x name, m at level 100, k at level 200).

Definition Exit {A : Type} (code : Z) : M A := fun w => (Exited code, w, []).

Definition Println (msg : Message) : M unit := fun w => (Returned tt, w, [EvPrint msg]).

Definition ReadFile : M FileState := fun w => (Returned (pidFile w), w, []).

Section Daemon.

Variable sys : Sys.

Definition Signal_ (pid : Z) (sig : Signal) : M bool :=
  fun w => (Returned (process_Signal sys pid sig), w,
            [EvSignal pid sig (process_Signal sys pid sig)]).

Definition WriteFile (data : string) : M bool :=
  fun w =>
    match os_WriteFile sys data (pidFile w) with
    | None => (Returned true, {| pidFile := Present data; environ := environ w |},
               [EvWritePid data true])
    | Some st => (Returned false, {| pidFile := st; environ := environ w |},
                  [EvWritePid data false])
    end.

Definition Remove : M bool :=
  fun w =>
    match os_Remove sys (pidFile w) with
    | None => (Returned true, {| pidFile := Absent; environ := environ w |},
               [EvRemovePid true])
    | Some st => (Returned false, {| pidFile := st; environ := environ w |},
                  [EvRemovePid false])
    end.

Definition cmdStart (name : string) (childArgs : list string) : M (option Z) :=
  fun w => (Returned (cmd_Start sys name childArgs), w,
            [EvSpawn name childArgs (cmd_Start sys name childArgs)]).

Definition Sleep : M unit := fun w => (Returned tt, w, [EvSleep]).

(** Lines 110 to 127. *)
Definition isRunning : M bool :=
  do pidData <- ReadFile;
  match pidData with
  | Present data =>
      match Strconv.Atoi data with
      | None => ret false
      | Some pid =>
          if negb (os_FindProcess sys pid) then ret false
          else Signal_ pid Signal0
      end
  | _ => ret false
  end.

(** Lines 25 to 30: the arguments handed to the child. *)
Definition childArgs (rest : list string) : list string :=
  fold_left
    (fun args arg =>
       if negb (String.eqb arg "-start") && negb (String.eqb arg "--start")
       then args ++ [arg] else args)
    rest [].

(** Lines 18 to 63. *)
Definition Start : M unit :=
  do running <- isRunning;
  if running then
    do _ <- Println MsgAlreadyRunning;
    Exit 1
  else
    do started <- cmdStart (arg0 sys) (childArgs (args sys));
    match started with
    | None =>
        do _ <- Println MsgStartFailed;
        Exit 1
    | Some pid =>
        do written <- WriteFile (Itoa pid);
        do _ <- (if negb written
                 then Println (MsgStartedNoPidFile pid)
                 else Println (MsgStarted pid));
        Exit 0
    end.

(** Lines 66 to 108. *)
Definition Stop : M unit :=
  do pidData <- ReadFile;
  match pidData with
  | Absent =>
      do _ <- Println MsgNotRunning;
      Exit 1
  | Unreadable =>
      do _ <- Println MsgReadFailed;
      Exit 1
  | Present data =>
      match Strconv.Atoi data with
      | None =>
          do _ <- Println MsgInvalidPid;
          Exit 1
      | Some pid =>
          if negb (os_FindProcess sys pid) then
            do _ <- Println MsgFindFailed;
            do _ <- Remove;
            Exit 1
          else
            do signalled <- Signal_ pid SIGTERM;
            if negb signalled then
              do _ <- Println (MsgStopFailed pid);
              Exit 1
            else
              do _ <- Sleep;
              do removed <- Remove;
              do _ <- (if negb removed
                       then Println (MsgStoppedNotRemoved pid)
                       else Println MsgStopped);
              Exit 0
      end
  end.

(** *** [main] *)

Definition Version : string := "1.0.1".

(** The flags as [flag.Parse] leaves them. *)
Record Flags := {
  configPath : string;
  showVersion : bool;
  showHelp : bool;
  startDaemon : bool;
  stopDaemon : bool
}.

(** [config.Load] on the process, with the line it prints. *)
Definition LoadConfig (path : string) : M (ConfigLoad.LoadError + Config) :=
  fun w =>
    let '(r, env', loadedFile) := ConfigLoad.Load (fs sys) path (environ w) in
    (Returned r, {| pidFile := pidFile w; environ := env' |},
     match r with
     | inl (ConfigLoad.ErrConfigFile _) => []
     | _ =>
         [EvPrint (if String.eqb loadedFile EmptyString
                   then MsgNoConfigurationFile
                   else MsgLoadedConfiguration loadedFile)]
     end).

Definition Slog (level : Level) (msg : string) : M unit :=
  fun w => (Returned tt, w, [EvSlog level msg]).

Definition OpenFile (path : string) : M bool :=
  fun w => (Returned (os_OpenFile sys path), w,
            [EvOpenLog path (os_OpenFile sys path)]).

Definition SetDefault (level : Level) (output : string) : M unit :=
  fun w => (Returned tt, w, [EvSetLogger level output]).

Definition Run (cfg : Config) : M bool :=
  fun w => (Returned (server_Run sys cfg), w, [EvRun cfg (server_Run sys cfg)]).

(** Lines 57 to 67 of [main]. *)
Definition logLevel (cfg : Config) : Level :=
  if String.eqb (LogLevel cfg) "DEBUG" then LevelDebug
  else if String.eqb (LogLevel cfg) "WARN" then LevelWarn
  else if String.eqb (LogLevel cfg) "ERROR" then LevelError
  else LevelInfo.

(** Lines 16 to 102, after [flag.Parse]. *)
Definition main (flags : Flags) : M unit :=
  do _ <- (if stopDaemon flags then Stop else ret tt);
  do _ <- (if startDaemon flags then Start else ret tt);
  if showHelp flags then
    do _ <- (fun w => (Returned tt, w, [EvUsage]));
    Exit 0
  else if showVersion flags then
    do _ <- Println (MsgVersion Version);
    Exit 0
  else
    do _ <- SetDefault LevelInfo "stdout";
    do loaded <- LoadConfig (configPath flags);
    match loaded with
    | inl _ =>
        do _ <- Slog LevelError "Failed to load configuration";
        Exit 1
    | inr cfg =>
        do opened <- (if negb (String.eqb (LogOutput cfg) "stdout")
                      then OpenFile (LogOutput cfg) else ret true);
        if negb opened then
          do _ <- Slog LevelError "Failed to open log file";
          Exit 1
        else
          do _ <- SetDefault (logLevel cfg) (LogOutput cfg);
          do _ <- Slog LevelInfo "Configuration loaded successfully";
          do ok <- Run cfg;
          if negb ok then
            do _ <- Slog LevelError "Server failed";
            Exit 1
          else ret tt
    end.

End Daemon.

(** *** Reading a run *)

Definition outcome {A : Type} (r : Result A * World * list Event) : Result A :=
  fst (fst r).

Definition after {A : Type} (r : Result A * World * list Event) : World :=
  snd (fst r).

Definition trace {A : Type} (r : Result A * World * list Event) : list Event :=
  snd r.

Definition count (f : Event -> bool) (evs : list Event) : nat :=
  length (List.filter f evs).

Definition is_spawn (e : Event) : bool :=
  match e with EvSpawn _ _ _ => true | _ => false end.

Definition is_run (e : Event) : bool :=
  match e with EvRun _ _ => true | _ => false end.

Definition is_sigterm (e : Event) : bool :=
  match e with EvSignal _ SIGTERM _ => true | _ => false end.

End Daemon.

(** ** [crypto/sha256] and [encoding/hex], as [internal/auth] uses them *)
Module Sha256.

Local Open Scope Z_scope.

(** A [uint32] is a [Z] below [2 ^ 32]; the sum wraps around. *)
Definition add32 (x y : Z) : Z := (x + y) mod 2 ^ 32.

Definition not32 (x : Z) : Z := Z.lxor x (2 ^ 32 - 1).

Definition rotr (n x : Z) : Z :=
  Z.lor (Z.shiftr x n) (Z.shiftl x (32 - n) mod 2 ^ 32).

Definition Ch (x y z : Z) : Z := Z.lxor (Z.land x y) (Z.land (not32 x) z).

Definition Maj (x y z : Z) : Z :=
  Z.lxor (Z.lxor (Z.land x y) (Z.land x z)) (Z.land y z).

Definition bsig0 (x : Z) : Z := Z.lxor (Z.lxor (rotr 2 x) (rotr 13 x)) (rotr 22 x).
Definition bsig1 (x : Z) : Z := Z.lxor (Z.lxor (rotr 6 x) (rotr 11 x)) (rotr 25 x).
Definition ssig0 (x : Z) : Z := Z.lxor (Z.lxor (rotr 7 x) (rotr 18 x)) (Z.shiftr x 3).
Definition ssig1 (x : Z) : Z := Z.lxor (Z.lxor (rotr 17 x) (rotr 19 x)) (Z.shiftr x 10).

(** The first sixty-four primes. *)
Definition primes : list Z :=
  [2; 3; 5; 7; 11; 13; 17; 19; 23; 29; 31; 37; 41; 43; 47; 53; 59; 61; 67;
   71; 73; 79; 83; 89; 97; 101; 103; 107; 109; 113; 127; 131; 137; 139; 149;
   151; 157; 163; 167; 173; 179; 181; 191; 193; 197; 199; 211; 223; 227; 229;
   233; 239; 241; 251; 257; 263; 269; 271; 277; 281; 283; 293; 307; 311].

(** The integer part of the cube root of [n], found by bisection between
    [lo] and [hi]. *)
Fixpoint cbrt_between (fuel : nat) (lo hi n : Z) : Z :=
  match fuel with
  | O => lo
  | S fuel' =>
      let mid := (lo + hi) / 2 in
      if mid * mid * mid <=? n
      then cbrt_between fuel' mid hi n
      else cbrt_between fuel' lo mid n
  end.

(** The round constants: the first 32 bits of the fractional parts of the
    cube roots of the primes. *)
Definition K : list Z :=
  Eval vm_compute in
    map (fun p => cbrt_between 40 0 (2 ^ 35) (p * 2 ^ 96) mod 2 ^ 32) primes.

(** The eight words of the digest. *)
Record State := {
  h0 : Z; h1 : Z; h2 : Z; h3 : Z; h4 : Z; h5 : Z; h6 : Z; h7 : Z
}.

(** The first 32 bits of the fractional part of the square root of [p]. *)
Definition sqrt_frac (p : Z) : Z := Z.sqrt (p * 2 ^ 64) mod 2 ^ 32.

(** The initial digest, from the first eight primes. *)
Definition init : State :=
  Eval vm_compute in
    {| h0 := sqrt_frac 2; h1 := sqrt_frac 3; h2 := sqrt_frac 5; h3 := sqrt_frac 7;
       h4 := sqrt_frac 11; h5 := sqrt_frac 13; h6 := sqrt_frac 17;
       h7 := sqrt_frac 19 |}.

(** The message with its padding: a one bit, zeros up to 56 bytes modulo
    64, and the length in bits as eight bytes, the most significant first. *)
Definition padding (len : Z) : list Z :=
  0x80 :: repeat 0 (Z.to_nat ((55 - len) mod 64))
  ++ map (fun i => Z.shiftr (8 * len mod 2 ^ 64) (8 * (7 - i)) mod 256)
       [0; 1; 2; 3; 4; 5; 6; 7].

(** Four bytes as a word, the most significant first. *)
Definition word (b0 b1 b2 b3 : Z) : Z :=
  Z.lor (Z.lor (Z.lor (Z.shiftl b0 24) (Z.shiftl b1 16)) (Z.shiftl b2 8)) b3.

Fixpoint words (bytes : list Z) : list Z :=
  match bytes with
  | b0 :: b1 :: b2 :: b3 :: rest => word b0 b1 b2 b3 :: words rest
  | _ => []
  end.

(** The message schedule: [n] more words after the ones in [w]. *)
Fixpoint schedule (n : nat) (w : list Z) : list Z :=
  match n with
  | O => w
  | S n' =>
      let t := length w in
      let at_ (k : nat) := nth (t - k) w 0 in
      schedule n'
        (w ++ [add32 (add32 (add32 (ssig1 (at_ 2%nat)) (at_ 7%nat))
                        (ssig0 (at_ 15%nat))) (at_ 16%nat)])
  end.

Definition round (s : State) (kw : Z * Z) : State :=
  let t1 := add32 (add32 (add32 (add32 (h7 s) (bsig1 (h4 s)))
                            (Ch (h4 s) (h5 s) (h6 s))) (fst kw)) (snd kw) in
  let t2 := add32 (bsig0 (h0 s)) (Maj (h0 s) (h1 s) (h2 s)) in
  {| h0 := add32 t1 t2; h1 := h0 s; h2 := h1 s; h3 := h2 s;
     h4 := add32 (h3 s) t1; h5 := h4 s; h6 := h5 s; h7 := h6 s |}.

(** One block of 64 bytes. *)
Definition block (s : State) (bytes : list Z) : State :=
  let w := schedule 48 (words bytes) in
  let r := fold_left round (combine K w) s in
  {| h0 := add32 (h0 s) (h0 r); h1 := add32 (h1 s) (h1 r);
     h2 := add32 (h2 s) (h2 r); h3 := add32 (h3 s) (h3 r);
     h4 := add32 (h4 s) (h4 r); h5 := add32 (h5 s) (h5 r);
     h6 := add32 (h6 s) (h6 r); h7 := add32 (h7 s) (h7 r) |}.

Fixpoint blocks (n : nat) (s : State) (bytes : list Z) : State :=
  match n with
  | O => s
  | S n' => blocks n' (block s (firstn 64 bytes)) (skipn 64 bytes)
  end.

(** The four bytes of a word, the most significant first. *)
Definition word_bytes (w : Z) : list Z :=
  [Z.shiftr w 24 mod 256; Z.shiftr w 16 mod 256; Z.shiftr w 8 mod 256; w mod 256].

(** [sha256.Sum256(data)]: the 32 bytes of the digest. *)
Definition Sum256 (data : list Z) : list Z :=
  let padded := data ++ padding (Z.of_nat (length data)) in
  let s := blocks (length padded / 64) init padded in
  word_bytes (h0 s) ++ word_bytes (h1 s) ++ word_bytes (h2 s) ++ word_bytes (h3 s)
  ++ word_bytes (h4 s) ++ word_bytes (h5 s) ++ word_bytes (h6 s) ++ word_bytes (h7 s).

End Sha256.

Module Hex.

Definition hextable : string := "0123456789abcdef".

Definition digit (n : Z) : ascii :=
  default "0"%char (String.get (Z.to_nat n) hextable).

(** [hex.EncodeToString(src)]: two digits for each byte, the high one
    first. *)
Fixpoint EncodeToString (src : list Z) : string :=
  match src with
  | [] => EmptyString
  | b :: rest =>
      String (digit (Z.shiftr b 4)) (String (digit (Z.land b 15)) (EncodeToString rest))
  end.

(** The digits [EncodeToString] writes. *)
Definition is_digit (c : ascii) : bool :=
  let n := Ascii.nat_of_ascii c in
  (Nat.leb 48 n && Nat.leb n 57) || (Nat.leb 97 n && Nat.leb n 102).

End Hex.

(** ** [internal/auth] *)
Module Auth.

(** [[]byte(token)]. *)
Definition bytes (s : string) : list Z :=
  map (fun c => Z.of_nat (Ascii.nat_of_ascii c)) (list_ascii_of_string s).

(** [HashToken]: the SHA-256 digest of the raw token, in hexadecimal. *)
Definition HashToken (token : string) : string :=
  Hex.EncodeToString (Sha256.Sum256 (bytes token)).

End Auth.

(** ** [sql/schema.sql]: the API tokens *)
Module Schema.

(** A row of [pgarachne.api_tokens] without its key; a timestamp is a
    number of microseconds, [None] is NULL.  The table is a map from
    [token_hash], its primary key, to the rest of the row. *)
Record ApiToken := {
  role : string;
  description : option string;
  created_at : Z;
  updated_at : Z;
  valid_to : option Z
}.

Inductive SqlError :=
| ValidToNotInFuture
| NotNullViolation
| CheckViolation
| UniqueViolation.

(** [encode(digest(t, 'sha256'), 'hex')]. *)
Definition digest_hex (t : string) : string :=
  Hex.EncodeToString (Sha256.Sum256 (Auth.bytes t)).

(** The two CHECK constraints of the table. *)
Definition checks (row : ApiToken) : bool :=
  (created_at row <=? updated_at row)%Z
  && match valid_to row with
     | Some v => (updated_at row <=? v)%Z
     | None => true
     end.

(** [pgarachne.add_api_token(token_description, target_role,
    token_valid_to)], called at [now] when [gen_random_bytes(32)] gives
    [random]: the raw token and the table with the new row, or the error
    raised and the table as it was. *)
Definition add_api_token (now : Z) (random : list Z)
    (token_description target_role : option string) (token_valid_to : option Z)
    (t : gmap string ApiToken) : (SqlError + string) * gmap string ApiToken :=
  if match token_valid_to with Some v => (v <=? now)%Z | None => false end
  then (inl ValidToNotInFuture, t)
  else
    let raw_token := Hex.EncodeToString random in
    let hashed_token := digest_hex raw_token in
    match target_role with
    | None => (inl NotNullViolation, t)
    | Some r =>
        let row := {| role := r; description := token_description;
                      created_at := now; updated_at := now;
                      valid_to := token_valid_to |} in
        if negb (checks row) then (inl CheckViolation, t)
        else
          match t !! hashed_token with
          | Some _ => (inl UniqueViolation, t)
          | None => (inr raw_token, <[hashed_token := row]> t)
          end
    end.

(** [pgarachne.verify_api_token(input_raw_token)] called at [now]: the
    role, or NULL. *)
Definition verify_api_token (now : Z) (input_raw_token : string) (t : gmap string ApiToken)
  : option string :=
  let input_hash := digest_hex input_raw_token in
  match t !! input_hash with
  | Some row =>
      if match valid_to row with Some v => (now <? v)%Z | None => true end
      then Some (role row) else None
  | None => None
  end.

(** [Scan(&nullRole)] of the one column. *)
Definition scan (r : option string) : Server.NullString :=
  match r with
  | Some s => {| Server.NullString_String := s; Server.NullString_Valid := true |}
  | None => {| Server.NullString_String := EmptyString;
               Server.NullString_Valid := false |}
  end.

(** An engine whose database has this schema installed: the query of
    [authMiddleware] runs [verify_api_token] at the time [now] and changes
    nothing. *)
Definition installed {Session : Type} (E : Server.Env (gmap string ApiToken) Session)
    (now : Z) : Prop :=
  forall arg t,
    Server.db_QueryRow E Server.verifyQuery arg t
    = (t, Some (scan (verify_api_token now arg t))).

(** A timestamp not reached yet at [now]. *)
Definition in_force (token_valid_to : option Z) (now : Z) : bool :=
  match token_valid_to with Some v => (now <? v)%Z | None => true end.

End Schema.

(** ** More inputs for the small engine *)
Module Cases.
Import Config ConfigLoad.

(** A file system with one configuration file in the current directory and
    one directory of static files. *)
Definition os : Os :=
  {| godotenv_Load := fun path env =>
       if String.eqb path "pgarachne.env"
       then Some (env ∪ {["JWT_SECRET" := "s3cret"]})
       else None;
     os_Stat := fun path =>
       if String.eqb path "pgarachne.env" then StatFile
       else if String.eqb path "/srv/www" then StatDir
       else StatNotExist;
     os_UserHomeDir := Some "/home/pg";
     filepath_Join := fun parts =>
       match parts with
       | [] => EmptyString
       | p :: ps => fold_left (fun a b => a +:+ "/" +:+ b) ps p
       end;
     filepath_Abs := fun path => Some path |}.

Definition environ : Environ :=
  <["DB_HOST" := "localhost"]>
    (<["DB_PORT" := "5432"]>
       (<["DB_USER" := "pgarachne"]>
          (<["ALLOWED_ORIGINS" := " https://a.example , ,https://b.example"]>
             (<["STATIC_FILES_PATH" := "/srv/www"]> ∅)))).

(** The same without [ALLOWED_ORIGINS]. *)
Definition environAnyOrigin : Environ := delete "ALLOWED_ORIGINS" environ.

(** What [Load] makes of [environ] with the file of the current
    directory. *)
Definition loadedConfig : Config :=
  {| DBHost := "localhost"; DBPort := 5432; DBUser := "pgarachne";
     HTTPPort := "8080"; JWTSecret := "s3cret"; JWTExpiryHours := 8;
     AllowedOrigins := ["https://a.example"; "https://b.example"];
     StaticFilesPath := "/srv/www"; LogLevel := "INFO"; LogOutput := "stdout" |}.

(** A machine on which the server is not running: every call succeeds, and
    the only process that answers a signal is the child [Start] launches. *)
Definition sys : Daemon.Sys :=
  {| Daemon.arg0 := "pgarachne";
     Daemon.args := ["-start"; "-config"; "pgarachne.env"; "--start"];
     Daemon.cmd_Start := fun _ _ => Some 4242%Z;
     Daemon.os_WriteFile := fun _ _ => None;
     Daemon.os_Remove := fun _ => None;
     Daemon.os_FindProcess := fun _ => true;
     Daemon.process_Signal := fun pid _ => Z.eqb pid 4242;
     Daemon.fs := os;
     Daemon.os_OpenFile := fun _ => true;
     Daemon.server_Run := fun _ => true |}.

Definition idle : Daemon.World :=
  {| Daemon.pidFile := Daemon.Absent; Daemon.environ := environ |}.

Definition started : Daemon.World :=
  {| Daemon.pidFile := Daemon.Present "4242"; Daemon.environ := environ |}.

Definition serve : Daemon.Flags :=
  {| Daemon.configPath := EmptyString; Daemon.showVersion := false;
     Daemon.showHelp := false; Daemon.startDaemon := false;
     Daemon.stopDaemon := false |}.

Definition restart : Daemon.Flags :=
  {| Daemon.configPath := EmptyString; Daemon.showVersion := false;
     Daemon.showHelp := false; Daemon.startDaemon := true;
     Daemon.stopDaemon := true |}.

(** An engine with the schema installed, asked at time 200, and a token
    issued at time 100 for the role [demo], valid until 1000. *)
Definition tokenEnv : Server.Env (gmap string Schema.ApiToken) nat :=
  {| Server.sqlenv := {| Database.sql_Open := fun _ => true;
                         Database.sql_Ping := fun _ _ => true |};
     Server.time_Now := 200;
     Server.jwt_SignedString := fun _ _ _ => None;
     Server.jwt_Parse := fun _ _ => None;
     Server.json_Marshal := fun _ => Some "{}";
     Server.db_QueryRow := fun query arg t =>
       if String.eqb query Server.verifyQuery
       then (t, Some (Schema.scan (Schema.verify_api_token 200 arg t)))
       else (t, None);
     Server.db_BeginTx := fun _ => None;
     Server.tx_Exec := fun _ _ => None;
     Server.tx_QueryRow := fun _ _ _ => inl "no such function";
     Server.tx_Commit := fun _ => None;
     Server.tx_CommitError := fun _ st => Server.CommitRefused st |}.

Definition random : list Z := repeat 7%Z 32.

Definition rawToken : string := Hex.EncodeToString random.

Definition issued : (gmap string Schema.ApiToken) :=
  snd (Schema.add_api_token 100 random (Some "ci") (Some "demo") (Some 1000%Z) ∅).

Definition tokenWorld : Server.World (gmap string Schema.ApiToken) nat :=
  {| Server.pools := Demo.noPools; Server.committed := issued; Server.tx := None |}.

Definition tokenCall : Server.Context :=
  Demo.request "shop" "api.server_info" ("Bearer " +:+ rawToken)
    (Server.AString "7").

End Cases.

(** * Properties *)

(** ** Strings *)

(** The string functions on the inputs that matter to the handlers. *)
Example SplitN_examples :
  Strings.SplitN "Bearer abc def" " " 2 = ["Bearer"; "abc def"] /\
  Strings.SplitN "Bearer" " " 2 = ["Bearer"] /\
  Strings.SplitN " abc" " " 2 = [EmptyString; "abc"] /\
  Strings.SplitN EmptyString " " 2 = [EmptyString].
Proof. repeat split; reflexivity. Qed.

Example ToLower_examples :
  Strings.ToLower "BeArEr" = "bearer" /\ Strings.ToLower "Basic-1" = "basic-1".
Proof. split; reflexivity. Qed.

Example ReplaceAll_examples :
  Strings.ReplaceAll "a-b--c" "-" "+" = "a+b++c" /\
  Strings.ReplaceAll "aaa" "aa" "b" = "ba" /\
  Strings.ReplaceAll "abc" "x" "y" = "abc".
Proof. repeat split; reflexivity. Qed.

Example Contains_examples :
  Strings.Contains "pq: function api.nope(jsonb) does not exist" "does not exist"
    = true /\
  Strings.Contains "pq: permission denied" "does not exist" = false.
Proof. split; reflexivity. Qed.

Lemma append_cons (c : ascii) (s t : string) :
  String c s +:+ t = String c (s +:+ t).
Proof. reflexivity. Qed.

Lemma ReplaceAll_dquote_cons (c : ascii) (s : string) :
  Strings.ReplaceAll (String c s) Strings.dq (Strings.dq +:+ Strings.dq) =
  if Ascii.eqb c Strings.dquote
  then String Strings.dquote (String Strings.dquote
         (Strings.ReplaceAll s Strings.dq (Strings.dq +:+ Strings.dq)))
  else String c (Strings.ReplaceAll s Strings.dq (Strings.dq +:+ Strings.dq)).
Proof.
  unfold Strings.ReplaceAll, Strings.dq.
  cbn [Strings.replace_from String.prefix String.append].
  destruct (Ascii.eqb_spec c Strings.dquote) as [->|Hne].
  - destruct (ascii_dec Strings.dquote Strings.dquote) as [_|Hn]; [|congruence].
    destruct s; reflexivity.
  - destruct (ascii_dec Strings.dquote c) as [He|_]; [congruence|].
    reflexivity.
Qed.

(** [strings.ReplaceAll] with a double quote for two is the doubling of the
    specification. *)
Lemma ReplaceAll_doubleQuotes (s : string) :
  Strings.ReplaceAll s Strings.dq (Strings.dq +:+ Strings.dq) = Spec.doubleQuotes s.
Proof.
  induction s as [|c s IH]; [reflexivity|].
  rewrite ReplaceAll_dquote_cons. cbn [Spec.doubleQuotes].
  rewrite IH. reflexivity.
Qed.

(** The scanner reads a doubled string up to its closing quote and gives
    the string back. *)
Lemma scan_xd_doubleQuotes (s : string) :
  PgLex.scan_xd (Spec.doubleQuotes s +:+ Strings.dq) = Some (s, EmptyString).
Proof.
  induction s as [|c s IH]; [reflexivity|].
  cbn [Spec.doubleQuotes].
  destruct (Ascii.eqb_spec c Strings.dquote) as [->|Hne].
  - rewrite !append_cons. cbn [PgLex.scan_xd].
    rewrite Ascii.eqb_refl. rewrite IH. reflexivity.
  - rewrite append_cons. cbn [PgLex.scan_xd].
    destruct (Ascii.eqb_spec c Strings.dquote) as [He|_]; [contradiction|].
    rewrite IH. reflexivity.
Qed.

Lemma quotedRole_doubleQuotes (role : string) :
  Server.quotedRole role =
  String Strings.dquote (Spec.doubleQuotes role +:+ Strings.dq).
Proof.
  unfold Server.quotedRole. rewrite ReplaceAll_doubleQuotes. reflexivity.
Qed.

Lemma parse_setRoleStatement (role : string) :
  PgLex.parse_set_local_role (Server.setRoleStatement role) =
  if String.eqb role EmptyString then None else Some role.
Proof.
  unfold Server.setRoleStatement, PgLex.parse_set_local_role.
  rewrite quotedRole_doubleQuotes.
  change (PgLex.strip_prefix "SET LOCAL ROLE "
            ("SET LOCAL ROLE " +:+
             String Strings.dquote (Spec.doubleQuotes role +:+ Strings.dq)))
    with (Some (String Strings.dquote (Spec.doubleQuotes role +:+ Strings.dq))).
  cbn [PgLex.scan_quoted_ident]. rewrite Ascii.eqb_refl.
  rewrite scan_xd_doubleQuotes.
  destruct role; reflexivity.
Qed.

(** ** The dispatcher *)

Section Dispatcher.

Context {Store Session : Type}.
Variable E : Server.Env Store Session.
Variable cfg : Config.Config.

Import Server.

Lemma GetString_Set_ne (c : Context) (k k' : string) (v : Any) :
  k <> k' -> GetString (Set_ c k v) k' = GetString c k'.
Proof.
  intros Hne. unfold GetString, Set_. cbn [Keys].
  rewrite lookup_insert_ne by exact Hne. reflexivity.
Qed.

(** The part of the dispatch that runs inside the transaction, path by
    path: what it answers, what it asks of the engine, and the world it
    leaves once the deferred rollback has run. *)
Lemma inTransaction_paths (fn role params : string) (id : Any)
    (w : World Store Session) (s : Session) :
  tx w = Some s ->
  let '(resp, w', evs) :=
    defer Rollback (inTransaction E fn role params id) w in
  let switch := setRoleStatement role in
  let query := callQuery fn in
  tx w' = None /\ pools w' = pools w /\
  ((tx_Exec E switch s = None /\
    resp = JSON StatusForbidden
             (errorResponse (-32001) "Permission denied for the specified role" id) /\
    evs = [EvExec switch false; EvRollback] /\ committed w' = committed w)
   \/ (exists s1 err,
        tx_Exec E switch s = Some s1 /\ tx_QueryRow E query params s1 = inl err /\
        resp = (if Strings.Contains err "does not exist"
                then JSON StatusNotFound (errorResponse 0 "Function does not exist" id)
                else JSON StatusInternalServerError
                       (errorResponse 0 ("Function call failed: " +:+ err) id)) /\
        evs = [EvExec switch true; EvTxQueryRow query params false; EvRollback] /\
        committed w' = committed w)
   \/ (exists s1 s2 row engine,
        tx_Exec E switch s = Some s1 /\
        tx_QueryRow E query params s1 = inr (s2, row) /\
        tx_Commit E s2 = None /\
        tx_CommitError E s2 (committed w) = CommitRefused engine /\
        resp = JSON StatusInternalServerError
                 (errorResponse 0 "Transaction commit failed" id) /\
        evs = [EvExec switch true; EvTxQueryRow query params true; EvCommit false] /\
        committed w' = engine)
   \/ (exists s1 s2 row,
        tx_Exec E switch s = Some s1 /\
        tx_QueryRow E query params s1 = inr (s2, row) /\
        tx_Commit E s2 = None /\
        tx_CommitError E s2 (committed w) = CommitNotSent /\
        resp = JSON StatusInternalServerError
                 (errorResponse 0 "Transaction commit failed" id) /\
        evs = [EvExec switch true; EvTxQueryRow query params true; EvRollback] /\
        committed w' = committed w)
   \/ (exists s1 s2 row st,
        tx_Exec E switch s = Some s1 /\
        tx_QueryRow E query params s1 = inr (s2, row) /\
        tx_Commit E s2 = Some st /\
        resp = JSON StatusOK
                 (RPC {| JSONRPCResponse.JSONRPC := "2.0";
                         JSONRPCResponse.Result := row;
                         JSONRPCResponse.Error := None;
                         JSONRPCResponse.ID := id |}) /\
        evs = [EvExec switch true; EvTxQueryRow query params true; EvCommit true] /\
        committed w' = st)).
Proof.
  intros Htx.
  unfold defer, inTransaction, bind, ret, ExecContext, QueryRowContext,
    Commit, Rollback.
  rewrite Htx.
  destruct (tx_Exec E (setRoleStatement role) s) as [s1|] eqn:Hexec; cbn.
  - destruct (tx_QueryRow E (callQuery fn) params s1) as [err|[s2 row]] eqn:Hq; cbn.
    + destruct (Strings.Contains err "does not exist") eqn:Hc; cbn;
        (split; [reflexivity|split; [reflexivity|]]);
        right; left; exists s1, err; rewrite ?Hc;
        repeat split; reflexivity || assumption.
    + destruct (tx_Commit E s2) as [st|] eqn:Hcommit; cbn.
      * split; [reflexivity|split; [reflexivity|]].
        right; right; right; right. exists s1, s2, row, st.
        repeat split; reflexivity || assumption.
      * destruct (tx_CommitError E s2 (committed w)) as [engine|] eqn:Herr; cbn;
          (split; [reflexivity|split; [reflexivity|]]).
        -- right; right; left. exists s1, s2, row, engine.
           repeat split; reflexivity || assumption.
        -- right; right; right; left. exists s1, s2, row.
           repeat split; reflexivity || assumption.
  - rewrite Htx. cbn. split; [reflexivity|split; [reflexivity|]].
    left. repeat split; reflexivity || assumption.
Qed.

(** The whole handler, path by path: either it answers without a
    transaction, or it begins one and the rest is [inTransaction] under the
    deferred rollback. *)
Lemma handleFunctionCall_paths (c : Context) (w : World Store Session) :
  let '(resp, w', evs) := handleFunctionCall E cfg c w in
  let fn := Param c "function" in
  let got := Database.GetConnection (sqlenv E) cfg (Param c "database") (pools w) in
  (evs = [] /\ committed w' = committed w /\ tx w' = tx w /\
   ((fn = "login" /\ resp = refusedLogin /\ w' = w)
    \/ (fn <> "login" /\ fst got = None /\ resp = poolUnavailable)
    \/ (fn <> "login" /\ is_Some (fst got) /\
        jsonJSONRPCRequest c = None /\ resp = malformedBody)
    \/ (exists req,
          fn <> "login" /\ is_Some (fst got) /\ jsonJSONRPCRequest c = Some req /\
          responseID resp = JSONRPCRequest.ID req /\ Status resp <> StatusOK)))
  \/ (exists req db params s,
        fn <> "login" /\ fst got = Some db /\ jsonJSONRPCRequest c = Some req /\
        GetString c "db_role" <> EmptyString /\
        json_Marshal E (JSONRPCRequest.Params req) = Some params /\
        db_BeginTx E (committed w) = Some s /\
        let w1 := {| pools := snd got; committed := committed w; tx := Some s |} in
        let '(resp1, w1', evs1) :=
          defer Rollback
            (inTransaction E fn (GetString c "db_role") params
               (JSONRPCRequest.ID req)) w1 in
        resp = resp1 /\ w' = w1' /\ evs = EvBeginTx :: evs1).
Proof.
  unfold handleFunctionCall, ShouldBindJSON_JSONRPCRequest.
  destruct (String.eqb_spec (Param c "function") "login") as [Hfn|Hfn].
  { cbn. left. repeat split; try reflexivity. left. repeat split; assumption. }
  unfold bind at 1. unfold GetConnection at 1.
  destruct (Database.GetConnection (sqlenv E) cfg (Param c "database") (pools w))
    as [[db|] p] eqn:Hgot; cbn [fst snd].
  2:{ cbn. left. repeat split; try reflexivity. right; left.
      repeat split; try reflexivity; assumption. }
  destruct (jsonJSONRPCRequest c) as [req|] eqn:Hreq.
  2:{ cbn. left. repeat split; try reflexivity. right; right; left.
      repeat split; try reflexivity; try assumption. eexists; reflexivity. }
  rewrite GetString_Set_ne by discriminate.
  destruct (String.eqb_spec (GetString c "db_role") EmptyString) as [Hrole|Hrole].
  { cbn. left. repeat split; try reflexivity. right; right; right.
    exists req. repeat split; try reflexivity; try assumption.
    - eexists; reflexivity.
    - discriminate. }
  destruct (json_Marshal E (JSONRPCRequest.Params req)) as [params|] eqn:Hm.
  2:{ cbn. left. repeat split; try reflexivity. right; right; right.
      exists req. repeat split; try reflexivity; try assumption.
      - eexists; reflexivity.
      - discriminate. }
  unfold bind at 1. unfold BeginTx at 1. cbn [with_pools pools committed tx].
  destruct (db_BeginTx E (committed w)) as [s|] eqn:Hb.
  2:{ cbn. left. repeat split; try reflexivity. right; right; right.
      exists req. repeat split; try reflexivity; try assumption.
      - eexists; reflexivity.
      - discriminate. }
  cbn [negb].
  destruct (defer Rollback
              (inTransaction E (Param c "function") (GetString c "db_role") params
                 (JSONRPCRequest.ID req))
              {| pools := p; committed := committed w; tx := Some s |})
    as [[resp1 w1'] evs1] eqn:Hd.
  cbn. right. exists req, db, params, s.
  repeat (split; [reflexivity || assumption|]).
  rewrite Hd. repeat split; reflexivity.
Qed.

(** What a dispatch that asks anything of the engine leaves: the whole
    trace, which starts with the transaction, and the outcome, for each of
    the five ways it can go. *)
Lemma dispatch_traces (c : Context) (w w' : World Store Session)
    (resp : Response) (evs : list Event) :
  handleFunctionCall E cfg c w = (resp, w', evs) ->
  evs <> [] ->
  exists req params,
    jsonJSONRPCRequest c = Some req /\
    GetString c "db_role" <> EmptyString /\
    Param c "function" <> "login" /\
    tx w' = None /\
    let id := JSONRPCRequest.ID req in
    let switch := setRoleStatement (GetString c "db_role") in
    let query := callQuery (Param c "function") in
    (evs = [EvBeginTx; EvExec switch false; EvRollback] /\
     resp = JSON StatusForbidden
              (errorResponse (-32001) "Permission denied for the specified role" id) /\
     committed w' = committed w)
    \/ (exists err,
         evs = [EvBeginTx; EvExec switch true; EvTxQueryRow query params false;
                EvRollback] /\
         resp = (if Strings.Contains err "does not exist"
                 then JSON StatusNotFound (errorResponse 0 "Function does not exist" id)
                 else JSON StatusInternalServerError
                        (errorResponse 0 ("Function call failed: " +:+ err) id)) /\
         committed w' = committed w)
    \/ (evs = [EvBeginTx; EvExec switch true; EvTxQueryRow query params true;
               EvCommit false] /\
        resp = JSON StatusInternalServerError
                 (errorResponse 0 "Transaction commit failed" id))
    \/ (evs = [EvBeginTx; EvExec switch true; EvTxQueryRow query params true;
               EvRollback] /\
        resp = JSON StatusInternalServerError
                 (errorResponse 0 "Transaction commit failed" id) /\
        committed w' = committed w)
    \/ (exists row,
         evs = [EvBeginTx; EvExec switch true; EvTxQueryRow query params true;
                EvCommit true] /\
         resp = JSON StatusOK
                  (RPC {| JSONRPCResponse.JSONRPC := "2.0";
                          JSONRPCResponse.Result := row;
                          JSONRPCResponse.Error := None;
                          JSONRPCResponse.ID := id |})).
Proof.
  intros Hrun Hne.
  pose proof (handleFunctionCall_paths c w) as Hp. rewrite Hrun in Hp.
  destruct Hp as [(-> & _)|(req & db & params & s & Hfn & _ & Hreq & Hrole & _ & _ & Hp)].
  { contradiction Hne; reflexivity. }
  exists req, params.
  repeat (split; [assumption|]).
  cbv zeta in Hp.
  match type of Hp with
  | context [defer Rollback ?m ?w1] =>
      pose proof (inTransaction_paths (Param c "function") (GetString c "db_role")
                    params (JSONRPCRequest.ID req) w1 s eq_refl) as Ht;
      destruct (defer Rollback m w1) as [[resp1 w1'] evs1]
  end.
  destruct Hp as (-> & -> & ->).
  cbv zeta in Ht. cbn [committed] in Ht.
  destruct Ht as (Htx & _ & Ht). split; [exact Htx|].
  destruct Ht as [(_ & -> & -> & Hc)
                 |[(s1 & err & _ & _ & -> & -> & Hc)
                  |[(s1 & s2 & row & engine & _ & _ & _ & _ & -> & -> & Hc)
                   |[(s1 & s2 & row & _ & _ & _ & _ & -> & -> & Hc)
                    |(s1 & s2 & row & st & _ & _ & _ & -> & -> & Hc)]]]].
  - left. repeat split; reflexivity || assumption.
  - right; left. exists err. repeat split; reflexivity || assumption.
  - right; right; left. repeat split; reflexivity.
  - right; right; right; left. repeat split; reflexivity || assumption.
  - right; right; right; right. exists row. repeat split; reflexivity.
Qed.

(** The same dispatches, with what the engine answered at each step. *)
Lemma dispatch_engine (c : Context) (w w' : World Store Session)
    (resp : Response) (evs : list Event) :
  handleFunctionCall E cfg c w = (resp, w', evs) ->
  evs <> [] ->
  exists req params s,
    jsonJSONRPCRequest c = Some req /\
    json_Marshal E (JSONRPCRequest.Params req) = Some params /\
    db_BeginTx E (committed w) = Some s /\
    tx w' = None /\
    let id := JSONRPCRequest.ID req in
    let switch := setRoleStatement (GetString c "db_role") in
    let query := callQuery (Param c "function") in
    (tx_Exec E switch s = None /\
     evs = [EvBeginTx; EvExec switch false; EvRollback] /\
     Status resp = StatusForbidden /\
     committed w' = committed w)
    \/ (exists s1 err,
         tx_Exec E switch s = Some s1 /\ tx_QueryRow E query params s1 = inl err /\
         resp = (if Strings.Contains err "does not exist"
                 then JSON StatusNotFound (errorResponse 0 "Function does not exist" id)
                 else JSON StatusInternalServerError
                        (errorResponse 0 ("Function call failed: " +:+ err) id)) /\
         evs = [EvBeginTx; EvExec switch true; EvTxQueryRow query params false;
                EvRollback] /\
         committed w' = committed w)
    \/ (exists s1 s2 row engine,
         tx_Exec E switch s = Some s1 /\
         tx_QueryRow E query params s1 = inr (s2, row) /\
         tx_Commit E s2 = None /\
         tx_CommitError E s2 (committed w) = CommitRefused engine /\
         evs = [EvBeginTx; EvExec switch true; EvTxQueryRow query params true;
                EvCommit false] /\
         Status resp = StatusInternalServerError /\
         committed w' = engine)
    \/ (exists s1 s2 row,
         tx_Exec E switch s = Some s1 /\
         tx_QueryRow E query params s1 = inr (s2, row) /\
         tx_Commit E s2 = None /\
         tx_CommitError E s2 (committed w) = CommitNotSent /\
         evs = [EvBeginTx; EvExec switch true; EvTxQueryRow query params true;
                EvRollback] /\
         Status resp = StatusInternalServerError /\
         committed w' = committed w)
    \/ (exists s1 s2 row st,
         tx_Exec E switch s = Some s1 /\
         tx_QueryRow E query params s1 = inr (s2, row) /\
         tx_Commit E s2 = Some st /\
         resp = JSON StatusOK
                  (RPC {| JSONRPCResponse.JSONRPC := "2.0";
                          JSONRPCResponse.Result := row;
                          JSONRPCResponse.Error := None;
                          JSONRPCResponse.ID := id |}) /\
         evs = [EvBeginTx; EvExec switch true; EvTxQueryRow query params true;
                EvCommit true] /\
         committed w' = st).
Proof.
  intros Hrun Hne.
  pose proof (handleFunctionCall_paths c w) as Hp. rewrite Hrun in Hp.
  destruct Hp as [(-> & _)|(req & db & params & s & Hfn & _ & Hreq & Hrole & Hm & Hb & Hp)].
  { contradiction Hne; reflexivity. }
  exists req, params, s.
  repeat (split; [assumption|]).
  cbv zeta in Hp.
  match type of Hp with
  | context [defer Rollback ?m ?w1] =>
      pose proof (inTransaction_paths (Param c "function") (GetString c "db_role")
                    params (JSONRPCRequest.ID req) w1 s eq_refl) as Ht;
      destruct (defer Rollback m w1) as [[resp1 w1'] evs1]
  end.
  destruct Hp as (-> & -> & ->).
  cbv zeta in Ht. cbn [committed] in Ht.
  destruct Ht as (Htx & _ & Ht). split; [exact Htx|].
  destruct Ht as [(He & -> & -> & Hc)
                 |[(s1 & err & He & Hq & -> & -> & Hc)
                  |[(s1 & s2 & row & engine & He & Hq & Hcm & Herr & -> & -> & Hc)
                   |[(s1 & s2 & row & He & Hq & Hcm & Herr & -> & -> & Hc)
                    |(s1 & s2 & row & st & He & Hq & Hcm & -> & -> & Hc)]]]].
  - left. repeat split; reflexivity || assumption.
  - right; left. exists s1, err. repeat split; reflexivity || assumption.
  - right; right; left. exists s1, s2, row, engine.
    repeat split; reflexivity || assumption.
  - right; right; right; left. exists s1, s2, row.
    repeat split; reflexivity || assumption.
  - right; right; right; right. exists s1, s2, row, st.
    repeat split; reflexivity || assumption.
Qed.

(** C3, as the code has it.  Every dispatch that begins a transaction
    sends the engine exactly one request that ends it, a COMMIT or a
    ROLLBACK, never both and never neither, and leaves no transaction open.
    It is a COMMIT exactly when the privilege switch and the call have
    succeeded and the request has not been cancelled, and the answer is 200
    exactly when the engine accepts it.  When the switch or the call fails,
    and when the commit is not sent, the deferred ROLLBACK is sent and the
    committed state is the one the dispatch found.  When the engine's COMMIT
    returns an error no ROLLBACK follows, since the transaction is done:
    the answer is 500 and the committed state is what the engine left. *)
Theorem dispatch_ends_transaction_once (c : Context) (w w' : World Store Session)
    (resp : Response) (evs : list Event) :
  handleFunctionCall E cfg c w = (resp, w', evs) ->
  In EvBeginTx evs ->
  count is_begin evs = 1%nat /\ count ends_tx evs = 1%nat /\ tx w' = None /\
  (count is_commit evs = 1%nat <-> Status resp = StatusOK) /\
  (count is_rollback evs = 1%nat -> committed w' = committed w) /\
  exists req params s,
    jsonJSONRPCRequest c = Some req /\
    json_Marshal E (JSONRPCRequest.Params req) = Some params /\
    db_BeginTx E (committed w) = Some s /\
    let switch := setRoleStatement (GetString c "db_role") in
    let query := callQuery (Param c "function") in
    let sent := [EvBeginTx; EvExec switch true; EvTxQueryRow query params true] in
    match tx_Exec E switch s with
    | None =>
        evs = [EvBeginTx; EvExec switch false; EvRollback] /\
        Status resp = StatusForbidden /\ committed w' = committed w
    | Some s1 =>
        match tx_QueryRow E query params s1 with
        | inl err =>
            evs = [EvBeginTx; EvExec switch true; EvTxQueryRow query params false;
                   EvRollback] /\
            (Status resp = StatusNotFound \/ Status resp = StatusInternalServerError) /\
            committed w' = committed w
        | inr (s2, row) =>
            match tx_Commit E s2 with
            | Some st =>
                evs = sent ++ [EvCommit true] /\ Status resp = StatusOK /\
                committed w' = st
            | None =>
                Status resp = StatusInternalServerError /\
                match tx_CommitError E s2 (committed w) with
                | CommitRefused engine =>
                    evs = sent ++ [EvCommit false] /\ committed w' = engine
                | CommitNotSent =>
                    evs = sent ++ [EvRollback] /\ committed w' = committed w
                end
            end
        end
    end.
Proof.
  intros Hrun Hin.
  assert (Hne : evs <> []) by (intros ->; destruct Hin).
  destruct (dispatch_engine c w w' resp evs Hrun Hne)
    as (req & params & s & Hreq & Hm & Hb & Htx & Hcases).
  cbv zeta in Hcases.
  assert (Hex : forall P : Prop, P ->
            exists req0 params0 s0,
              jsonJSONRPCRequest c = Some req0 /\
              json_Marshal E (JSONRPCRequest.Params req0) = Some params0 /\
              db_BeginTx E (committed w) = Some s0 /\
              (req0 = req /\ params0 = params /\ s0 = s) /\ P).
  { intros P HP. exists req, params, s. repeat split; assumption. }
  destruct Hcases as [(He & -> & Hs & Hc)
                     |[(s1 & err & He & Hq & -> & -> & Hc)
                      |[(s1 & s2 & row & engine & He & Hq & Hcm & Herr & -> & Hs & Hc)
                       |[(s1 & s2 & row & He & Hq & Hcm & Herr & -> & Hs & Hc)
                        |(s1 & s2 & row & st & He & Hq & Hcm & -> & -> & Hc)]]]].
  - split; [reflexivity|]. split; [reflexivity|]. split; [exact Htx|].
    split; [rewrite Hs; split; discriminate|]. split; [intros _; exact Hc|].
    exists req, params, s. repeat (split; [assumption|]).
    cbv zeta. rewrite He. repeat split; assumption.
  - split; [reflexivity|]. split; [reflexivity|]. split; [exact Htx|].
    split.
    { destruct (Strings.Contains err "does not exist"); split; discriminate. }
    split; [intros _; exact Hc|].
    exists req, params, s. repeat (split; [assumption|]).
    cbv zeta. rewrite He, Hq. split; [reflexivity|]. split; [|exact Hc].
    destruct (Strings.Contains err "does not exist"); [left|right]; reflexivity.
  - split; [reflexivity|]. split; [reflexivity|]. split; [exact Htx|].
    split; [rewrite Hs; split; discriminate|]. split; [discriminate|].
    exists req, params, s. repeat (split; [assumption|]).
    cbv zeta. rewrite He, Hq, Hcm, Herr. repeat split; assumption.
  - split; [reflexivity|]. split; [reflexivity|]. split; [exact Htx|].
    split; [rewrite Hs; split; discriminate|]. split; [intros _; exact Hc|].
    exists req, params, s. repeat (split; [assumption|]).
    cbv zeta. rewrite He, Hq, Hcm, Herr. repeat split; assumption.
  - split; [reflexivity|]. split; [reflexivity|]. split; [exact Htx|].
    split; [split; reflexivity|]. split; [discriminate|].
    exists req, params, s. repeat (split; [assumption|]).
    cbv zeta. rewrite He, Hq, Hcm. repeat split; assumption.
Qed.

(** C4.  When the privilege switch fails the procedure is never called:
    the dispatch asks the engine for the transaction, the switch and the
    rollback and nothing else, answers 403 with the permission-denied
    error, and leaves the committed state as it found it. *)
Theorem failed_role_switch_never_calls (c : Context) (w w' : World Store Session)
    (resp : Response) (evs : list Event) (stmt : string) :
  handleFunctionCall E cfg c w = (resp, w', evs) ->
  In (EvExec stmt false) evs ->
  stmt = setRoleStatement (GetString c "db_role") /\
  evs = [EvBeginTx; EvExec stmt false; EvRollback] /\
  count is_call evs = 0%nat /\ count is_commit evs = 0%nat /\
  Status resp = StatusForbidden /\
  message resp = "Permission denied for the specified role" /\
  committed w' = committed w /\ tx w' = None.
Proof.
  intros Hrun Hin.
  assert (Hb : evs <> []) by (intros ->; destruct Hin).
  destruct (dispatch_traces c w w' resp evs Hrun Hb)
    as (req & params & _ & _ & _ & Htx & Hcases).
  cbv zeta in Hcases.
  destruct Hcases as [(-> & -> & Hc)|[(err & -> & -> & Hc)|[(-> & ->)
                     |[(-> & -> & Hc)|(row & -> & ->)]]]].
  - cbn in Hin. destruct Hin as [Hin|[Hin|[Hin|[]]]]; try discriminate.
    injection Hin as <-. repeat split; reflexivity || assumption.
  - cbn in Hin. destruct Hin as [Hin|[Hin|[Hin|[Hin|[]]]]]; discriminate.
  - cbn in Hin. destruct Hin as [Hin|[Hin|[Hin|[Hin|[]]]]]; discriminate.
  - cbn in Hin. destruct Hin as [Hin|[Hin|[Hin|[Hin|[]]]]]; discriminate.
  - cbn in Hin. destruct Hin as [Hin|[Hin|[Hin|[Hin|[]]]]]; discriminate.
Qed.

(** C10.  The statement the dispatcher hands to [ExecContext] is
    [SET LOCAL ROLE] followed by the resolved role with every double quote
    in it doubled and the whole wrapped in double quotes; PostgreSQL's
    scanner reads that text as one delimited identifier, the role itself,
    with nothing after it.  (The role is never empty there: line 281.) *)
Theorem role_switch_is_one_quoted_identifier (c : Context)
    (w w' : World Store Session) (resp : Response) (evs : list Event)
    (stmt : string) (ok : bool) :
  handleFunctionCall E cfg c w = (resp, w', evs) ->
  In (EvExec stmt ok) evs ->
  let role := GetString c "db_role" in
  role <> EmptyString /\
  stmt = "SET LOCAL ROLE " +:+ Strings.dq +:+ Spec.doubleQuotes role +:+ Strings.dq /\
  PgLex.scan_quoted_ident (Strings.dq +:+ Spec.doubleQuotes role +:+ Strings.dq)
    = Some (role, EmptyString) /\
  PgLex.parse_set_local_role stmt = Some role.
Proof.
  intros Hrun Hin role.
  assert (Hb : evs <> []) by (intros ->; destruct Hin).
  destruct (dispatch_traces c w w' resp evs Hrun Hb)
    as (req & params & _ & Hrole & _ & _ & Hcases).
  assert (Hstmt : stmt = setRoleStatement role).
  { cbv zeta in Hcases.
    destruct Hcases as [(-> & _)|[(err & -> & _)|[(-> & _)|[(-> & _)|(row & -> & _)]]]];
      cbn in Hin;
      repeat (destruct Hin as [Hin|Hin]; [try discriminate|]);
      try (injection Hin as <- _; reflexivity); try destruct Hin. }
  assert (Hparse : PgLex.parse_set_local_role stmt = Some role).
  { rewrite Hstmt, parse_setRoleStatement.
    destruct (String.eqb_spec role EmptyString) as [He|_]; [contradiction|reflexivity]. }
  split; [exact Hrole|].
  split.
  { rewrite Hstmt. unfold setRoleStatement. rewrite quotedRole_doubleQuotes. reflexivity. }
  split; [|exact Hparse].
  change (Strings.dq +:+ Spec.doubleQuotes role +:+ Strings.dq)
    with (String Strings.dquote (Spec.doubleQuotes role +:+ Strings.dq)).
  cbn [PgLex.scan_quoted_ident]. rewrite Ascii.eqb_refl.
  rewrite scan_xd_doubleQuotes.
  unfold role in *. destruct (GetString c "db_role"); [congruence|reflexivity].
Qed.

(** The query a dispatch runs is the path's procedure name put between
    [SELECT] and the argument placeholder as it came, unless it is the
    capability listing. *)
Lemma dispatch_query_text (c : Context) (w w' : World Store Session)
    (resp : Response) (evs : list Event) (query arg : string) (ok : bool) :
  handleFunctionCall E cfg c w = (resp, w', evs) ->
  In (EvTxQueryRow query arg ok) evs ->
  Param c "function" <> "capabilities" ->
  query = "SELECT " +:+ Param c "function" +:+ "($1::jsonb)::json".
Proof.
  intros Hrun Hin Hcap.
  assert (Hb : evs <> []) by (intros ->; destruct Hin).
  destruct (dispatch_traces c w w' resp evs Hrun Hb)
    as (req & params & _ & _ & _ & _ & Hcases).
  assert (Hq : query = callQuery (Param c "function")).
  { cbv zeta in Hcases.
    destruct Hcases as [(-> & _)|[(err & -> & _)|[(-> & _)|[(-> & _)|(row & -> & _)]]]];
      cbn in Hin;
      repeat (destruct Hin as [Hin|Hin]; [try discriminate|]);
      try (injection Hin as <- _ _; reflexivity); try destruct Hin. }
  rewrite Hq. unfold callQuery.
  destruct (String.eqb_spec (Param c "function") "capabilities") as [He|_];
    [contradiction|reflexivity].
Qed.

(** The correlation id of every answer of the handler: nil on the three
    answers written before the envelope is parsed, the caller's on all the
    others. *)
Lemma handleFunctionCall_id (c : Context) (w w' : World Store Session)
    (resp : Response) (evs : list Event) :
  handleFunctionCall E cfg c w = (resp, w', evs) ->
  let got := Database.GetConnection (sqlenv E) cfg (Param c "database") (pools w) in
  (Param c "function" = "login" /\ resp = refusedLogin)
  \/ (fst got = None /\ resp = poolUnavailable)
  \/ (jsonJSONRPCRequest c = None /\ resp = malformedBody)
  \/ (exists req,
       jsonJSONRPCRequest c = Some req /\ Param c "function" <> "login" /\
       is_Some (fst got) /\ responseID resp = JSONRPCRequest.ID req).
Proof.
  intros Hrun got.
  pose proof (handleFunctionCall_paths c w) as Hp. rewrite Hrun in Hp.
  cbv zeta in Hp. fold got in Hp.
  destruct Hp as [(Hevs & _ & _ & Hp)|(req & db & params & s & Hfn & Hgot & Hreq & _ & _ & _ & Hp)].
  - destruct Hp as [(Hfn & -> & _)|[(_ & Hgot & ->)|[(_ & _ & Hreq & ->)
                   |(req & Hfn & Hgot & Hreq & Hid & _)]]].
    + left; split; [assumption|reflexivity].
    + right; left; split; [assumption|reflexivity].
    + right; right; left; split; [assumption|reflexivity].
    + right; right; right. exists req. repeat split; assumption.
  - right; right; right. exists req.
    split; [assumption|]. split; [assumption|].
    split; [rewrite Hgot; eexists; reflexivity|].
    assert (Hb : evs <> []).
    { match type of Hp with
      | context [defer Rollback ?m ?w1] => destruct (defer Rollback m w1) as [[? ?] ?]
      end.
      destruct Hp as (_ & _ & ->). discriminate. }
    destruct (dispatch_traces c w w' resp evs Hrun Hb)
      as (req' & params' & Hreq' & _ & _ & _ & Hcases).
    rewrite Hreq in Hreq'. injection Hreq' as <-.
    cbv zeta in Hcases.
    destruct Hcases as [(_ & -> & _)|[(err & _ & -> & _)|[(_ & ->)
                       |[(_ & -> & _)|(row & _ & ->)]]]];
      try reflexivity.
    destruct (Strings.Contains err "does not exist"); reflexivity.
Qed.

End Dispatcher.

(** ** The authenticator *)

Section Authenticator.

Context {Store Session : Type}.
Variable E : Server.Env Store Session.
Variable cfg : Config.Config.

Import Server.

(** The session-credential path either lets the request through with the
    role of the credential, or refuses it for its scope. *)
Lemma tryJWT_cases (c : Context) (authType tokenString : string) (flow : Flow) :
  tryJWT E cfg c authType tokenString = Some flow ->
  (exists role, role <> EmptyString /\ flow = Next (Set_ c "db_role" (AString role)))
  \/ flow = Abort (JSON StatusUnauthorized
                     (errorResponse 0 (authFailureMessage AuthScopeMismatch) ANil)).
Proof.
  unfold tryJWT.
  destruct (String.eqb (Strings.ToLower authType) "bearer"); [|discriminate].
  destruct (jwt_Parse E tokenString (keyFunc cfg)) as [token|]; [|discriminate].
  destruct (Valid token); [|discriminate].
  destruct (TokenClaims token) as [m|].
  - destruct (assertString (m !! "db_role")) as [dbRole roleOk].
    destruct (assertString (m !! "db_name")) as [dbName dbNameOk].
    destruct roleOk; cbn [andb]; [|discriminate].
    destruct (String.eqb_spec dbRole EmptyString) as [|Hne]; cbn [negb andb];
      [discriminate|].
    destruct dbNameOk; [|discriminate].
    destruct (negb (String.eqb dbName (Param c "database")));
      intros [= <-]; [right; reflexivity|left; exists dbRole; split; auto].
  - destruct (assertString ((∅ : gmap string Any) !! "db_role")) as [dbRole roleOk].
    destruct (assertString ((∅ : gmap string Any) !! "db_name")) as [dbName dbNameOk].
    cbn [andb]. discriminate.
Qed.

(** [authMiddleware], path by path. *)
Lemma authMiddleware_paths (c : Context) (w : World Store Session) :
  let '(flow, w', evs) := authMiddleware E cfg c w in
  tx w' = tx w /\ count is_begin evs = 0%nat /\ count is_call evs = 0%nat /\
  match flow with
  | Next c' => exists role, c' = Set_ c "db_role" (AString role)
  | Abort r =>
      r = poolUnavailable
      \/ r = JSON StatusUnauthorized
               (errorResponse 0 (authFailureMessage (failedCheck E cfg c)) ANil)
  end.
Proof.
  unfold authMiddleware, failedCheck.
  destruct (String.eqb (GetHeader c "Authorization") EmptyString).
  { cbn. repeat split; try reflexivity. right; reflexivity. }
  destruct (Strings.SplitN (GetHeader c "Authorization") " " 2)
    as [|authType [|tokenString [|? ?]]];
    try (cbn; repeat split; try reflexivity; right; reflexivity).
  destruct (tryJWT E cfg c authType tokenString) as [flow|] eqn:Hjwt.
  { cbn. repeat split; try reflexivity.
    destruct (tryJWT_cases _ _ _ _ Hjwt) as [(role & _ & ->)| ->].
    - exists role; reflexivity.
    - right; reflexivity. }
  unfold bind at 1. unfold GetConnection at 1.
  destruct (Database.GetConnection (sqlenv E) cfg (Param c "database") (pools w))
    as [[db|] p].
  2:{ cbn. repeat split; try reflexivity. left; reflexivity. }
  unfold bind, QueryRowNullString, with_pools. cbn [pools committed tx].
  destruct (db_QueryRow E verifyQuery tokenString (committed w)) as [st [[role [|]]|]];
    cbn; repeat split; try reflexivity;
    try (right; reflexivity).
  exists role; reflexivity.
Qed.

(** An [int64] that is in range is itself. *)
Lemma int64_small (z : Z) :
  (- 2 ^ 63 <= z < 2 ^ 63)%Z -> int64 z = z.
Proof.
  intros Hz. unfold int64.
  rewrite Z.mod_small; lia.
Qed.

(** Adding whole hours moves the Unix second by 3600 for each. *)
Lemma Unix_Add_hours (now h : Z) :
  (- 2 ^ 63 <= h * Hour < 2 ^ 63)%Z ->
  Unix (Add now (hours h)) = (Unix now + 3600 * h)%Z.
Proof.
  intros Hh. unfold hours.
  assert (Hsmall : (- 2 ^ 63 <= h < 2 ^ 63)%Z) by (unfold Hour in Hh; lia).
  rewrite (int64_small h Hsmall), (int64_small _ Hh).
  unfold Unix, Add, Hour.
  replace (now + h * (3600 * 1000000000))%Z
    with (now + (3600 * h) * 1000000000)%Z by lia.
  apply Z.div_add. lia.
Qed.

(** C2.  A bearer value that [jwt.Parse] accepts under the signing secret
    (validly signed, not expired), whose claims carry a role and a database
    other than the one the request addresses, is refused with the
    scope-mismatch 401; the middleware leaves the world as it found it and
    asks the engine for nothing, so neither the pool of the API-token path
    is acquired nor its verification call made, and the handler does not
    run.  (A role is carried when [db_role] is a string that is not empty;
    the empty string is Go's absent value, here as at line 281.) *)
Theorem session_credential_scope_mismatch (c : Context) (w : World Store Session)
    (authType tokenString : string) (token : Token) (m : gmap string Any)
    (role dbName : string) :
  Strings.SplitN (GetHeader c "Authorization") " " 2 = [authType; tokenString] ->
  Strings.ToLower authType = "bearer" ->
  jwt_Parse E tokenString (keyFunc cfg) = Some token ->
  Valid token = true ->
  TokenClaims token = MapClaims m ->
  m !! "db_role" = Some (AString role) ->
  role <> EmptyString ->
  m !! "db_name" = Some (AString dbName) ->
  dbName <> Param c "database" ->
  let refusal :=
    JSON StatusUnauthorized (errorResponse 0 "Invalid token for this database" ANil) in
  authMiddleware E cfg c w = (Abort refusal, w, []) /\
  protectedAPI E cfg c w = (refusal, w, []).
Proof.
  intros Hsplit Hlow Hparse Hvalid Hclaims Hrole Hne Hname Hdb refusal.
  assert (Hauth : authMiddleware E cfg c w = (Abort refusal, w, [])).
  { unfold authMiddleware.
    destruct (String.eqb_spec (GetHeader c "Authorization") EmptyString) as [He|_].
    { rewrite He in Hsplit. discriminate Hsplit. }
    rewrite Hsplit. unfold tryJWT.
    rewrite Hlow, Hparse, Hvalid, Hclaims, Hrole, Hname. cbn [assertString andb].
    destruct (String.eqb_spec role EmptyString) as [|_]; [contradiction|].
    destruct (String.eqb_spec dbName (Param c "database")) as [|_]; [contradiction|].
    reflexivity. }
  split; [exact Hauth|].
  unfold protectedAPI, bind. rewrite Hauth. reflexivity.
Qed.

(** C5, as the code has it.  The message of an authentication failure is
    fixed by the sub-check that failed and by nothing else: a 401 of the
    protected route carries the message of the branch that refused the
    request, a 401 of the login route always the same one; the four
    messages of the protected route differ from each other. *)
Theorem auth_failure_message_by_subcheck (c : Context) (w w' : World Store Session)
    (r : Response) (evs : list Event) :
  (authMiddleware E cfg c w = (Abort r, w', evs) ->
   Status r = StatusUnauthorized ->
   r = JSON StatusUnauthorized
         (errorResponse 0 (authFailureMessage (failedCheck E cfg c)) ANil))
  /\ (handleLogin E cfg c w = (r, w', evs) ->
      Status r = StatusUnauthorized ->
      r = JSON StatusUnauthorized (H [("error", "Invalid login or password")]))
  /\ (forall f g : AuthFailure, authFailureMessage f = authFailureMessage g -> f = g).
Proof.
  split; [|split].
  - intros Hrun Hst.
    pose proof (authMiddleware_paths c w) as Hp. rewrite Hrun in Hp.
    destruct Hp as (_ & _ & _ & [-> | ->]); [discriminate Hst|reflexivity].
  - unfold handleLogin.
    destruct (ShouldBindJSON_LoginRequest c) as [req|]; [|intros [= <- _ _]; discriminate].
    unfold bind, Open, PingContext, ret.
    destruct (Database.Open _ _ _) as [[tempDB|] p];
      [|intros [= <- _ _]; discriminate].
    destruct (Database.Ping _ _ _) as [[|] p']; cbn.
    + destruct (jwt_SignedString E _ _ _); intros [= <- _ _]; discriminate.
    + intros [= <- _ _] _. reflexivity.
  - intros [] []; cbn; intros Heq; try reflexivity; discriminate Heq.
Qed.


(** The handler behind the middleware sees the request the middleware
    saw, with the resolved role among its keys. *)
Lemma protectedAPI_paths (c : Context) (w : World Store Session) :
  let '(flow, w1, evs1) := authMiddleware E cfg c w in
  match flow with
  | Abort r => protectedAPI E cfg c w = (r, w1, evs1)
  | Next c' =>
      Param c' = Param c /\ jsonJSONRPCRequest c' = jsonJSONRPCRequest c /\
      let '(resp, w', evs2) := handleFunctionCall E cfg c' w1 in
      protectedAPI E cfg c w = (resp, w', evs1 ++ evs2)
  end.
Proof.
  pose proof (authMiddleware_paths c w) as Hp.
  unfold protectedAPI, bind.
  destruct (authMiddleware E cfg c w) as [[[c'|r] w1] evs1].
  - destruct Hp as (_ & _ & _ & role & ->).
    split; [reflexivity|]. split; [reflexivity|].
    destruct (handleFunctionCall E cfg _ w1) as [[resp w'] evs2]. reflexivity.
  - cbn. rewrite app_nil_r. reflexivity.
Qed.

(** C7, as the code has it.  On the protected route the caller's
    correlation id is echoed by every answer written once the request
    envelope has been parsed, the success and each error alike; the
    answers written before that carry a nil id whatever the caller sent:
    the refusals of the middleware, the refusal of the login name, the
    unavailable pool and the malformed body. *)
Theorem correlation_id_echoed_once_parsed (c : Context)
    (w w' : World Store Session) (resp : Response) (evs : list Event) :
  protectedAPI E cfg c w = (resp, w', evs) ->
  match authMiddleware E cfg c w with
  | (Abort r, _, _) => resp = r /\ responseID resp = ANil
  | (Next _, w1, _) =>
      let got :=
        Database.GetConnection (sqlenv E) cfg (Param c "database") (pools w1) in
      (Param c "function" = "login" /\ resp = refusedLogin /\ responseID resp = ANil)
      \/ (fst got = None /\ resp = poolUnavailable /\ responseID resp = ANil)
      \/ (jsonJSONRPCRequest c = None /\ resp = malformedBody /\ responseID resp = ANil)
      \/ (exists req,
           jsonJSONRPCRequest c = Some req /\ Param c "function" <> "login" /\
           is_Some (fst got) /\ responseID resp = JSONRPCRequest.ID req)
  end.
Proof.
  intros Hrun.
  pose proof (protectedAPI_paths c w) as Hp.
  pose proof (authMiddleware_paths c w) as Ha.
  destruct (authMiddleware E cfg c w) as [[[c'|r] w1] evs1].
  - destruct Hp as (Hparam & Hbody & Hp).
    destruct (handleFunctionCall E cfg c' w1) as [[resp2 w2] evs2] eqn:Hh.
    rewrite Hrun in Hp. injection Hp as -> -> ->.
    pose proof (handleFunctionCall_id E cfg c' w1 w2 resp2 evs2 Hh) as Hid.
    cbv zeta in Hid. rewrite Hparam, Hbody in Hid. cbv zeta.
    destruct Hid as [(Hfn & ->)|[(Hgot & ->)|[(Hreq & ->)|Hid]]].
    + left. repeat split; assumption || reflexivity.
    + right; left. repeat split; assumption || reflexivity.
    + right; right; left. repeat split; assumption || reflexivity.
    + right; right; right. exact Hid.
  - rewrite Hrun in Hp. injection Hp as -> _ _.
    split; [reflexivity|].
    destruct Ha as (_ & _ & _ & [-> | ->]); reflexivity.
Qed.

(** [handleLogin] sends the engine of the gateway nothing, and answers
    with one of four statuses. *)
Lemma handleLogin_quiet (c : Context) (w : World Store Session) :
  let '(resp, w', evs) := handleLogin E cfg c w in
  evs = [] /\ tx w' = tx w /\ committed w' = committed w /\
  (Status resp = StatusOK \/ Status resp = StatusBadRequest \/
   Status resp = StatusUnauthorized \/ Status resp = StatusInternalServerError).
Proof.
  unfold handleLogin.
  destruct (ShouldBindJSON_LoginRequest c) as [req|];
    [|cbn; repeat split; auto].
  unfold bind, Open, PingContext, ret.
  destruct (Database.Open _ _ _) as [[tempDB|] p]; [|cbn; repeat split; auto].
  destruct (Database.Ping _ _ _) as [[|] p']; cbn [negb];
    [|cbn; repeat split; auto].
  destruct (jwt_SignedString E _ _ _); cbn; repeat split; auto.
Qed.

(** Of the request, [handleLogin] reads the body and the database of the
    path, and nothing else: no header, no key. *)
Lemma handleLogin_reads (c c2 : Context) (w : World Store Session) :
  jsonLoginRequest c2 = jsonLoginRequest c ->
  Param c2 "database" = Param c "database" ->
  handleLogin E cfg c2 w = handleLogin E cfg c w.
Proof.
  intros Hbody Hdb. unfold handleLogin, ShouldBindJSON_LoginRequest.
  rewrite Hbody, Hdb. reflexivity.
Qed.


(** Every token the login route hands out was signed, with the configured
    secret, from claims whose role is the login of the request, and that
    role is not empty. *)
Lemma login_token_claims (c : Context) (w : World Store Session) (tokenString : string) :
  outcome (handleLogin E cfg c w) = JSON StatusOK (H [("token", tokenString)]) ->
  exists req,
    jsonLoginRequest c = Some req /\
    LoginRequest.Login req <> EmptyString /\
    jwt_SignedString E SigningMethodHS256
      (sessionClaims cfg (LoginRequest.Login req) (Param c "database") (time_Now E))
      (Config.JWTSecret cfg) = Some tokenString.
Proof.
  unfold handleLogin, ShouldBindJSON_LoginRequest, outcome.
  destruct (jsonLoginRequest c) as [req|]; [|discriminate].
  destruct (String.eqb_spec (LoginRequest.Login req) EmptyString) as [|Hlogin];
    [discriminate|].
  destruct (String.eqb (LoginRequest.Password req) EmptyString); [discriminate|].
  cbn [orb]. unfold bind, Open, PingContext, ret.
  destruct (Database.Open _ _ _) as [[tempDB|] p]; [|discriminate].
  destruct (Database.Ping _ _ _) as [[|] p']; cbn; [|discriminate].
  destruct (jwt_SignedString E _ _ _) as [tok|] eqn:Hsign; cbn; [|discriminate].
  intros [= ->]. exists req. repeat split; assumption.
Qed.

End Authenticator.

(** ** The pool registry *)

Section Registry.

Import Database.

Variable e : SqlEnv.
Variable cfg : Config.Config.

Lemma tally_app (f : Thread -> bool) (l1 l2 : list Thread) :
  tally f (l1 ++ l2) = (tally f l1 + tally f l2)%nat.
Proof. unfold tally. rewrite List.filter_app, length_app. reflexivity. Qed.

Lemma tally_cons (f : Thread -> bool) (t : Thread) (l : list Thread) :
  tally f (t :: l) = ((if f t then 1 else 0) + tally f l)%nat.
Proof. unfold tally. cbn [List.filter]. destruct (f t); reflexivity. Qed.

Lemma tally_middle (f : Thread -> bool) (l1 l2 : list Thread) (t : Thread) :
  tally f (l1 ++ t :: l2) =
  (tally f l1 + (if f t then 1 else 0) + tally f l2)%nat.
Proof. rewrite tally_app, tally_cons. lia. Qed.

Lemma tally_zero (f : Thread -> bool) (l : list Thread) :
  tally f l = 0%nat -> Forall (fun t => f t = false) l.
Proof.
  induction l as [|t l IH]; intros Hz; [constructor|].
  rewrite tally_cons in Hz.
  destruct (f t) eqn:Hf; [discriminate|].
  constructor; [exact Hf|apply IH; exact Hz].
Qed.

(** A step moves one caller and leaves the others where they are. *)
Lemma step_middle (s s' : System) :
  step e cfg s s' ->
  exists sh sh' l1 l2 t t',
    s = {| shared := sh; threads := l1 ++ t :: l2 |} /\
    s' = {| shared := sh'; threads := l1 ++ t' :: l2 |} /\
    thread_step e cfg sh t = Some (sh', t').
Proof.
  intros [sh ts i t sh' t' Hi Hstep].
  exists sh, sh', (take i ts), (drop (S i) ts), t, t'.
  split; [|split; [|exact Hstep]].
  - rewrite take_drop_middle by exact Hi. reflexivity.
  - rewrite insert_take_drop by (eapply lookup_lt_Some; exact Hi). reflexivity.
Qed.

Lemma conj_Forall {A : Type} (P Q : A -> Prop) (l : list A) :
  Forall P l -> Forall Q l -> Forall (fun x => P x /\ Q x) l.
Proof.
  intros HP HQ. induction HP as [|x l Hx HP IH]; [constructor|].
  apply Forall_cons in HQ as [Hq HQ]. constructor; [split; assumption|auto].
Qed.

Lemma created_Info (d msg n : string) (p : Pools) :
  created d (Info msg n p) =
  ((if is_creation d {| log_msg := msg; log_database := n |} then 1 else 0)
   + created d p)%nat.
Proof.
  unfold created, Info. cbn [slog List.filter].
  destruct (is_creation d _); reflexivity.
Qed.


Lemma local_ok_store (d n : string) (reg : gmap string DB) (newDB : DB) (x : Thread) :
  (n = d -> reg !! d = None) ->
  holds_lock x = false ->
  local_ok d reg x ->
  local_ok d (<[n := newDB]> reg) x.
Proof.
  intros Hnone Hlock Hx Hname. specialize (Hx Hname).
  destruct (decide (n = d)) as [->|Hne].
  - specialize (Hnone eq_refl). rewrite Hnone in Hx.
    unfold holds_lock in Hlock.
    destruct (t_pc x) as [| |[?|]|[?|]| | |[?|]| |?|?|[?|]|[?|]];
      try discriminate; try exact I; try contradiction.
  - rewrite lookup_insert_ne by exact Hne. exact Hx.
Qed.

Lemma registered_store (d n : string) (reg : gmap string DB) (newDB : DB) :
  registered d (<[n := newDB]> reg) =
  if String.eqb n d then 1%nat else registered d reg.
Proof.
  unfold registered.
  destruct (String.eqb_spec n d) as [->|Hne].
  - rewrite lookup_insert_eq. reflexivity.
  - rewrite lookup_insert_ne by exact Hne. reflexivity.
Qed.

Lemma Inv_thread_step (d : string) (sh sh' : Shared) (l1 l2 : list Thread)
    (t t' : Thread) :
  healthy e ->
  Inv d {| shared := sh; threads := l1 ++ t :: l2 |} ->
  thread_step e cfg sh t = Some (sh', t') ->
  Inv d {| shared := sh'; threads := l1 ++ t' :: l2 |}.
Proof.
  intros [Hopen Hping] (Hr & Hw & Hx & Hc & Hl) Hstep.
  cbn [shared threads] in *.
  rewrite tally_middle in Hr, Hw, Hc.
  apply Forall_app in Hl as [Hl1 Hl2]. apply Forall_cons in Hl2 as [Ht Hl2].
  destruct sh as [p [rd wr]], t as [n pc].
  unfold Inv. cbn [shared threads]. rewrite !tally_middle.
  unfold thread_step in Hstep. cbn [t_dbName t_pc mu pools writer readers] in *.
  destruct pc as [| |r|[db|]| | |[db|]| |newDB|newDB|r|r].
  all: unfold Ping, Open, with_pools, with_mu, at_pc in Hstep;
       cbn [t_dbName t_pc mu pools writer readers clock] in Hstep;
       rewrite ?Hping, ?Hopen in Hstep.
  all: try (destruct wr; [discriminate Hstep|]).
  all: try (destruct rd; [|discriminate Hstep]).
  all: try discriminate Hstep.
  all: injection Hstep as <- <-.
  all: cbn [holds_lock holds_rlock in_flight t_dbName t_pc mu pools writer readers
            clock dbConnections shared threads andb] in *.
  all: rewrite ?andb_false_r, ?andb_true_r in *.
  all: repeat split.
  all: try lia.
  all: try (intros Hwr; specialize (Hx Hwr); lia).
  all: try (destruct wr; lia).
  all: try (apply Forall_app; split; [|apply Forall_cons; split]).
  all: try assumption.
  all: try (unfold local_ok in *; cbn [t_dbName t_pc] in *;
            intros ->; try specialize (Ht eq_refl);
            try assumption; try tauto;
            destruct (dbConnections p !! d); tauto).
  - (* the log line and [sql.Open] *)
    unfold created in *. cbn [slog List.filter].
    unfold in_flight, is_creation in *. cbn [t_dbName t_pc log_msg log_database] in *.
    rewrite andb_false_r in Hc. rewrite andb_true_r.
    change ("Creating new connection pool" =? "Creating new connection pool")%string
      with true.
    cbn [andb]. destruct (String.eqb n d); cbn [length]; lia.
  - (* the registration *)
    rewrite created_Info. unfold Info, store. cbn [dbConnections].
    rewrite registered_store.
    unfold in_flight in *. cbn [t_dbName t_pc] in *.
    rewrite andb_true_r in Hc. rewrite andb_false_r.
    change (is_creation d _) with (false && String.eqb n d). cbn [andb].
    unfold created in *. cbn [slog].
    destruct (String.eqb_spec n d) as [Hn|Hn]; [|lia].
    specialize (Ht Hn). cbn [t_pc] in Ht. unfold registered in Hc.
    rewrite Ht in Hc. lia.
  - unfold Info, store. cbn [dbConnections].
    assert (H0 : tally holds_lock l1 = 0%nat) by (destruct wr; lia).
    eapply Forall_impl; [exact (conj_Forall _ _ _ Hl1 (tally_zero _ _ H0))|].
    intros x [Hx1 Hx2]. apply local_ok_store; [exact Ht|exact Hx2|exact Hx1].
  - unfold Info, store, local_ok. cbn [dbConnections t_dbName t_pc].
    intros ->. apply lookup_insert_eq.
  - unfold Info, store. cbn [dbConnections].
    assert (H0 : tally holds_lock l2 = 0%nat) by (destruct wr; lia).
    eapply Forall_impl; [exact (conj_Forall _ _ _ Hl2 (tally_zero _ _ H0))|].
    intros x [Hx1 Hx2]. apply local_ok_store; [exact Ht|exact Hx2|exact Hx1].
Qed.


Lemma Inv_step (d : string) (s s' : System) :
  healthy e -> Inv d s -> step e cfg s s' -> Inv d s'.
Proof.
  intros Hh HI Hstep.
  destruct (step_middle s s' Hstep) as (sh & sh' & l1 & l2 & t & t' & -> & -> & Ht).
  eapply Inv_thread_step; eassumption.
Qed.

Lemma Inv_reachable (d : string) (s s' : System) :
  healthy e -> reachable e cfg s s' -> Inv d s -> Inv d s'.
Proof.
  intros Hh Hreach. induction Hreach as [s|s s1 s2 Hstep _ IH]; [auto|].
  intros HI. apply IH. eapply Inv_step; eassumption.
Qed.

Lemma tally_start (f : Thread -> bool) (names : list string) :
  (forall n, f {| t_dbName := n; t_pc := PcStart |} = false) ->
  tally f (map (fun n => {| t_dbName := n; t_pc := PcStart |}) names) = 0%nat.
Proof.
  intros Hf. induction names as [|n names IH]; [reflexivity|].
  cbn [map]. rewrite tally_cons, Hf, IH. reflexivity.
Qed.

Lemma Inv_start (d : string) (p : Pools) (names : list string) :
  created d p = registered d (dbConnections p) ->
  Inv d (start p names).
Proof.
  intros Hc. unfold Inv, start. cbn [shared threads pools mu readers writer].
  rewrite !tally_start; [|intros n; unfold in_flight; cbn; apply andb_false_r
                        |reflexivity|reflexivity].
  repeat split; try reflexivity; try lia.
  apply Forall_forall. intros t Ht.
  apply list_elem_of_In, in_map_iff in Ht as (n & <- & _).
  intros _. exact I.
Qed.

Lemma tally_le (f g : Thread -> bool) (l : list Thread) :
  (forall t, f t = true -> g t = true) -> (tally f l <= tally g l)%nat.
Proof.
  intros Hfg. induction l as [|t l IH]; [reflexivity|].
  rewrite !tally_cons.
  destruct (f t) eqn:Hf; [rewrite (Hfg t Hf)|destruct (g t)]; lia.
Qed.

Lemma tally_pos (f : Thread -> bool) (l : list Thread) :
  (0 < tally f l)%nat -> exists t, In t l /\ f t = true.
Proof.
  induction l as [|t l IH]; [cbn; lia|].
  rewrite tally_cons. destruct (f t) eqn:Hf.
  - intros _. exists t. split; [left; reflexivity|exact Hf].
  - intros Hpos. destruct (IH Hpos) as (x & Hx & Hfx).
    exists x. split; [right; exact Hx|exact Hfx].
Qed.

(** Under the invariant at most one pool has been created for [d]. *)
Lemma Inv_created_le (d : string) (s : System) :
  Inv d s -> (created d (pools (shared s)) <= 1)%nat.
Proof.
  intros (_ & Hw & _ & Hc & Hl).
  assert (Hle : (tally (in_flight d) (threads s) <= 1)%nat).
  { transitivity (tally holds_lock (threads s)).
    - apply tally_le. intros t. unfold in_flight, holds_lock.
      destruct (t_pc t); rewrite ?andb_false_r; try discriminate; reflexivity.
    - rewrite Hw. destruct (writer (mu (shared s))); lia. }
  destruct (Nat.eq_dec (tally (in_flight d) (threads s)) 0) as [Hz|Hnz];
    [rewrite Hc, Hz; unfold registered;
     destruct (dbConnections (pools (shared s)) !! d); lia|].
  destruct (tally_pos (in_flight d) (threads s)) as (t & Hin & Hf); [lia|].
  rewrite Forall_forall in Hl. specialize (Hl t (proj2 (list_elem_of_In _ _) Hin)).
  unfold in_flight in Hf. apply andb_prop in Hf as [Hn Hpc].
  apply String.eqb_eq in Hn. specialize (Hl Hn).
  assert (Hnone : dbConnections (pools (shared s)) !! d = None)
    by (destruct (t_pc t); try discriminate; exact Hl).
  rewrite Hc. unfold registered. rewrite Hnone. lia.
Qed.

(** A caller for [d] that has returned holds the registered pool, and that
    pool is the only one ever created for [d]. *)
Lemma Inv_returned (d : string) (s : System) (t : Thread) (r : option DB) :
  Inv d s -> In t (threads s) -> t_dbName t = d -> returned t = Some r ->
  created d (pools (shared s)) = 1%nat /\
  exists db, r = Some db /\ dbConnections (pools (shared s)) !! d = Some db.
Proof.
  intros HI Hin Hname Hret.
  pose proof (Inv_created_le d s HI) as Hle.
  destruct HI as (_ & _ & _ & Hc & Hl).
  rewrite Forall_forall in Hl. specialize (Hl t (proj2 (list_elem_of_In _ _) Hin) Hname).
  unfold returned in Hret.
  destruct (t_pc t); try discriminate. injection Hret as ->.
  destruct r as [db|]; [|contradiction].
  split; [|exists db; split; [reflexivity|exact Hl]].
  unfold registered in Hc. rewrite Hl in Hc. lia.
Qed.

(** The callers keep their database names. *)
Lemma reachable_names (s s' : System) :
  reachable e cfg s s' -> map t_dbName (threads s') = map t_dbName (threads s).
Proof.
  intros Hreach. induction Hreach as [s|s s1 s2 Hstep _ IH]; [reflexivity|].
  rewrite IH.
  destruct (step_middle s s1 Hstep) as (sh & sh' & l1 & l2 & t & t' & -> & -> & Ht).
  cbn [threads]. rewrite !map_app. cbn [map]. f_equal. f_equal.
  unfold thread_step in Ht.
  destruct (t_pc t) as [| |?|[?|]| | |[?|]| |?|?|?|?];
    unfold Ping, Open in Ht;
    repeat match type of Ht with
           | context [if ?b then _ else _] => destruct b
           | context [match ?x with _ => _ end] => destruct x
           end;
    try discriminate Ht; injection Ht as _ <-; reflexivity.
Qed.

(** A schedule only takes steps. *)
Lemma run_reachable (sched : list nat) (s : System) :
  reachable e cfg s (run e cfg sched s).
Proof.
  revert s. induction sched as [|i sched IH]; intros s; [apply rtc_refl|].
  unfold run. cbn [fold_left]. fold (run e cfg sched (sched_step e cfg i s)).
  transitivity (sched_step e cfg i s); [|apply IH].
  unfold sched_step.
  destruct (threads s !! i) as [t|] eqn:Hi; [|apply rtc_refl].
  destruct (thread_step e cfg (shared s) t) as [[sh' t']|] eqn:Ht; [|apply rtc_refl].
  apply rtc_once. destruct s as [sh ts]. econstructor; eassumption.
Qed.



Lemma sched_step_solo (sh : Shared) (t : Thread) :
  sched_step e cfg 0 {| shared := sh; threads := [t] |} =
  match thread_step e cfg sh t with
  | Some (sh', t') => {| shared := sh'; threads := [t'] |}
  | None => {| shared := sh; threads := [t] |}
  end.
Proof.
  unfold sched_step. cbn [threads shared lookup list_lookup].
  destruct (thread_step e cfg sh t) as [[sh' t']|]; reflexivity.
Qed.

(** One caller alone, run statement by statement to its return, does what
    [GetConnection] does: the mutex is free again, the registry and the
    result are the same. *)
Lemma solo_run_GetConnection (name : string) (p : Pools) :
  run e cfg (repeat 0%nat 11) (start p [name]) =
  {| shared := {| pools := snd (GetConnection e cfg name p);
                  mu := {| readers := 0; writer := false |} |};
     threads := [{| t_dbName := name;
                    t_pc := PcDone (fst (GetConnection e cfg name p)) |}] |}.
Proof.
  unfold run, start, GetConnection, createPool.
  cbn [repeat fold_left map].
  unfold Ping, Open, Info, store.
  cbn [dbConnections clock handles slog].
  set (newDB := {| db_id := handles p; db_dsn := connStr cfg name |}).
  destruct (dbConnections p !! name) as [db|] eqn:Hreg;
    destruct (sql_Open e (connStr cfg name)) eqn:Hopen;
    destruct (sql_Ping e (clock p) newDB) eqn:Hnew0;
    destruct (sql_Ping e (S (S (clock p))) newDB) eqn:Hnew2;
    try (destruct (sql_Ping e (clock p) db) eqn:Hp0);
    try (destruct (sql_Ping e (S (clock p)) db) eqn:Hp1).
  all: repeat
    (rewrite sched_step_solo;
     unfold thread_step, with_pools, with_mu, at_pc, Ping, Open, Info, store;
     cbn [t_pc t_dbName mu pools readers writer pred dbConnections clock
          handles slog fst snd];
     fold newDB;
     rewrite ?Hreg, ?Hopen, ?Hnew0, ?Hnew2, ?Hp0, ?Hp1;
     cbn [fst snd]).
  all: fold newDB; rewrite ?Hreg, ?Hopen, ?Hnew0, ?Hnew2, ?Hp0, ?Hp1;
       cbn [fst snd]; rewrite ?Hnew0, ?Hnew2, ?Hp0, ?Hp1; reflexivity.
Qed.

End Registry.

(** ** Runs on the small engine *)

Import Server.

Lemma run_eta {Store Session A : Type} (r : A * World Store Session * list Event) :
  r = (outcome r, after r, trace r).
Proof. destruct r as [[a w] evs]. reflexivity. Qed.

(** A successful call: one transaction, one commit, the counter moved. *)
Example dispatch_success :
  let r := handleFunctionCall (Demo.env true true true) Demo.cfg Demo.dispatch
             Demo.world in
  outcome r
  = JSON StatusOK
      (RPC {| JSONRPCResponse.JSONRPC := "2.0"; JSONRPCResponse.Result := "{}";
              JSONRPCResponse.Error := None;
              JSONRPCResponse.ID := AString "7" |})
  /\ trace r
     = [EvBeginTx; EvExec (setRoleStatement "demo") true;
        EvTxQueryRow "SELECT api.server_info($1::jsonb)::json" "{}" true;
        EvCommit true]
  /\ committed (after r) = 1%nat.
Proof. repeat split; vm_compute; reflexivity. Qed.

(** A commit the engine refuses: the deferred rollback finds the
    transaction done, and nothing is committed. *)
Example dispatch_commit_refused :
  let r := handleFunctionCall (Demo.env true true false) Demo.cfg Demo.dispatch
             Demo.world in
  Status (outcome r) = StatusInternalServerError
  /\ trace r
     = [EvBeginTx; EvExec (setRoleStatement "demo") true;
        EvTxQueryRow "SELECT api.server_info($1::jsonb)::json" "{}" true;
        EvCommit false]
  /\ committed (after r) = 0%nat.
Proof. repeat split; vm_compute; reflexivity. Qed.

(** The whole route with the session credential, then with the API token. *)
Example protected_call_with_session_credential :
  let r := protectedAPI (Demo.env true true true) Demo.cfg Demo.shopCall
             Demo.world in
  Status (outcome r) = StatusOK /\ responseID (outcome r) = AString "7"
  /\ count is_verify (trace r) = 0%nat.
Proof. repeat split; vm_compute; reflexivity. Qed.

Example protected_call_with_api_token :
  let r := protectedAPI (Demo.env true true true) Demo.cfg Demo.apiKeyCall
             Demo.world in
  Status (outcome r) = StatusOK
  /\ trace r
     = [EvQueryRow verifyQuery "api-key"; EvBeginTx;
        EvExec (setRoleStatement "demo") true;
        EvTxQueryRow "SELECT api.server_info($1::jsonb)::json" "{}" true;
        EvCommit true].
Proof. repeat split; vm_compute; reflexivity. Qed.

(** The grammar of the specification on a few names. *)
Example validProcedureName_examples :
  Spec.validProcedureName "server_info" = true /\
  Spec.validProcedureName "api.server_info" = true /\
  Spec.validProcedureName "a.b.c" = false /\
  Spec.validProcedureName "api." = false /\
  Spec.validProcedureName EmptyString = false /\
  Spec.validProcedureName "f();--" = false.
Proof. repeat split; reflexivity. Qed.

(** C1.  The dispatcher does not check the procedure name: a name outside
    the identifier grammar goes into the query text as it came, and the
    query is sent to the engine. *)
Theorem unvalidated_name_reaches_engine :
  Spec.validProcedureName Demo.oddName = false /\
  Param Demo.oddCall "function" = Demo.oddName /\
  trace (handleFunctionCall (Demo.env true true true) Demo.cfg Demo.oddCall
           Demo.world)
  = [EvBeginTx; EvExec (setRoleStatement "demo") true;
     EvTxQueryRow "SELECT pg_sleep(10)::text||($1::jsonb)::json" "{}" false;
     EvRollback].
Proof. repeat split; vm_compute; reflexivity. Qed.

(** The credential minted for [shop], presented to [warehouse]. *)
Lemma session_credential_scope_mismatch_witness :
  let refusal :=
    JSON StatusUnauthorized (errorResponse 0 "Invalid token for this database" ANil) in
  Param Demo.warehouseCall "database" = "warehouse" /\
  authMiddleware (Demo.env true true true) Demo.cfg Demo.warehouseCall Demo.world
    = (Abort refusal, Demo.world, []) /\
  protectedAPI (Demo.env true true true) Demo.cfg Demo.warehouseCall Demo.world
    = (refusal, Demo.world, []).
Proof.
  split; [reflexivity|].
  apply (session_credential_scope_mismatch (Demo.env true true true) Demo.cfg
           Demo.warehouseCall Demo.world "Bearer" "shop-token" Demo.shopToken
           (sessionClaims Demo.cfg "demo" "shop" Demo.now) "demo" "shop").
  - vm_compute; reflexivity.
  - vm_compute; reflexivity.
  - vm_compute; reflexivity.
  - reflexivity.
  - reflexivity.
  - vm_compute; reflexivity.
  - discriminate.
  - vm_compute; reflexivity.
  - discriminate.
Defined.

(** A dispatch whose commit the engine refuses. *)
Lemma dispatch_ends_transaction_once_witness :
  let E := Demo.env true true false in
  let c := Demo.dispatch in
  let w := Demo.world in
  let r := handleFunctionCall E Demo.cfg c w in
  In EvBeginTx (trace r) /\
  count is_begin (trace r) = 1%nat /\ count ends_tx (trace r) = 1%nat /\
  tx (after r) = None /\
  (count is_commit (trace r) = 1%nat <-> Status (outcome r) = StatusOK) /\
  (count is_rollback (trace r) = 1%nat -> committed (after r) = committed w) /\
  exists req params s,
    jsonJSONRPCRequest c = Some req /\
    json_Marshal E (JSONRPCRequest.Params req) = Some params /\
    db_BeginTx E (committed w) = Some s /\
    let switch := setRoleStatement (GetString c "db_role") in
    let query := callQuery (Param c "function") in
    let sent := [EvBeginTx; EvExec switch true; EvTxQueryRow query params true] in
    match tx_Exec E switch s with
    | None =>
        trace r = [EvBeginTx; EvExec switch false; EvRollback] /\
        Status (outcome r) = StatusForbidden /\ committed (after r) = committed w
    | Some s1 =>
        match tx_QueryRow E query params s1 with
        | inl err =>
            trace r = [EvBeginTx; EvExec switch true;
                       EvTxQueryRow query params false; EvRollback] /\
            (Status (outcome r) = StatusNotFound \/
             Status (outcome r) = StatusInternalServerError) /\
            committed (after r) = committed w
        | inr (s2, row) =>
            match tx_Commit E s2 with
            | Some st =>
                trace r = sent ++ [EvCommit true] /\
                Status (outcome r) = StatusOK /\ committed (after r) = st
            | None =>
                Status (outcome r) = StatusInternalServerError /\
                match tx_CommitError E s2 (committed w) with
                | CommitRefused engine =>
                    trace r = sent ++ [EvCommit false] /\ committed (after r) = engine
                | CommitNotSent =>
                    trace r = sent ++ [EvRollback] /\
                    committed (after r) = committed w
                end
            end
        end
    end.
Proof.
  intros E c w r.
  assert (Hin : In EvBeginTx (trace r)) by (vm_compute; left; reflexivity).
  split; [exact Hin|].
  exact (dispatch_ends_transaction_once E Demo.cfg c w (after r) (outcome r)
           (trace r) (run_eta r) Hin).
Defined.

(** A commit that the engine applies and whose answer does not come back:
    the caller is told that the commit failed, no rollback is sent, and
    what the procedure wrote is committed. *)
Lemma commit_error_leaves_change_committed :
  ~ (forall (E : Env nat nat) (c : Context) (w w' : World nat nat)
            (resp : Response) (evs : list Event),
       handleFunctionCall E Demo.cfg c w = (resp, w', evs) ->
       In EvBeginTx evs ->
       Status resp <> StatusOK ->
       count is_rollback evs = 1%nat /\ committed w' = committed w).
Proof.
  intros Hclaim.
  pose (r := handleFunctionCall Demo.lostAck Demo.cfg Demo.dispatch Demo.world).
  assert (Hin : In EvBeginTx (trace r)) by (vm_compute; left; reflexivity).
  assert (Hst : Status (outcome r) <> StatusOK) by (vm_compute; discriminate).
  destruct (Hclaim Demo.lostAck Demo.dispatch Demo.world (after r) (outcome r)
              (trace r) (run_eta r) Hin Hst) as (_ & Hc).
  vm_compute in Hc. discriminate Hc.
Qed.

(** The same dispatch on that engine, and on one that sees the request
    cancelled before the commit. *)
Example dispatch_commit_lost_or_cancelled :
  let lost := handleFunctionCall Demo.lostAck Demo.cfg Demo.dispatch Demo.world in
  let gone := handleFunctionCall Demo.cancelled Demo.cfg Demo.dispatch Demo.world in
  (Status (outcome lost) = StatusInternalServerError /\
   count is_rollback (trace lost) = 0%nat /\ committed (after lost) = 1%nat)
  /\ (Status (outcome gone) = StatusInternalServerError /\
      count is_rollback (trace gone) = 1%nat /\ committed (after gone) = 0%nat /\
      tx (after gone) = None).
Proof. repeat split; vm_compute; reflexivity. Qed.

(** A dispatch whose role the engine does not accept. *)
Lemma failed_role_switch_never_calls_witness :
  let r := handleFunctionCall (Demo.env true false true) Demo.cfg Demo.dispatch
             Demo.world in
  let stmt := setRoleStatement "demo" in
  In (EvExec stmt false) (trace r) /\
  stmt = setRoleStatement (GetString Demo.dispatch "db_role") /\
  trace r = [EvBeginTx; EvExec stmt false; EvRollback] /\
  count is_call (trace r) = 0%nat /\ count is_commit (trace r) = 0%nat /\
  Status (outcome r) = StatusForbidden /\
  message (outcome r) = "Permission denied for the specified role" /\
  committed (after r) = committed Demo.world /\ tx (after r) = None.
Proof.
  intros r stmt.
  assert (Hin : In (EvExec stmt false) (trace r))
    by (vm_compute; right; left; reflexivity).
  split; [exact Hin|].
  exact (failed_role_switch_never_calls (Demo.env true false true) Demo.cfg
           Demo.dispatch Demo.world (after r) (outcome r) (trace r) stmt
           (run_eta r) Hin).
Defined.

(** No header, and a header with a scheme and nothing else: two 401s, two
    messages. *)
Lemma auth_failure_messages_differ :
  ~ (forall (c1 c2 : Context) (r1 r2 : Response) (w1 w2 : World nat nat)
            (e1 e2 : list Event),
       authMiddleware (Demo.env true true true) Demo.cfg c1 Demo.world
         = (Abort r1, w1, e1) ->
       authMiddleware (Demo.env true true true) Demo.cfg c2 Demo.world
         = (Abort r2, w2, e2) ->
       Status r1 = StatusUnauthorized -> Status r2 = StatusUnauthorized ->
       message r1 = message r2).
Proof.
  intros Hsame.
  specialize (Hsame Demo.noHeader Demo.schemeOnly
                (JSON StatusUnauthorized
                   (errorResponse 0 "Authorization header is missing" ANil))
                (JSON StatusUnauthorized
                   (errorResponse 0 "Authorization header is malformed" ANil))
                Demo.world Demo.world [] []
                eq_refl eq_refl eq_refl eq_refl).
  discriminate Hsame.
Qed.

(** The header with a scheme and nothing else fails the malformed-header
    check and gets its message. *)
Lemma auth_failure_message_by_subcheck_witness :
  let r := JSON StatusUnauthorized
             (errorResponse 0 "Authorization header is malformed" ANil) in
  authMiddleware (Demo.env true true true) Demo.cfg Demo.schemeOnly Demo.world
    = (Abort r, Demo.world, []) /\
  Status r = StatusUnauthorized /\
  failedCheck (Demo.env true true true) Demo.cfg Demo.schemeOnly = AuthMalformed /\
  r = JSON StatusUnauthorized
        (errorResponse 0
           (authFailureMessage
              (failedCheck (Demo.env true true true) Demo.cfg Demo.schemeOnly))
           ANil).
Proof.
  intros r.
  split; [reflexivity|]. split; [reflexivity|]. split; [reflexivity|].
  apply (proj1 (auth_failure_message_by_subcheck (Demo.env true true true)
                  Demo.cfg Demo.schemeOnly Demo.world Demo.world r []));
    reflexivity.
Defined.



Example login_expiry_past_int64 :
  (Unix (Add Demo.now (hours (Config.JWTExpiryHours Demo.longLived)))
   < Unix Demo.now)%Z
  /\ (Unix (Add Demo.now (hours 2562047)) = Unix Demo.now + 3600 * 2562047)%Z.
Proof. split; vm_compute; reflexivity. Qed.

(** A valid credential, a well-formed envelope with id 7, a database that
    does not answer: the 503 carries no id. *)
Lemma correlation_id_dropped_when_pool_unavailable :
  ~ (forall (c : Context) (w w' : World nat nat) (resp : Response)
            (evs : list Event) (req : JSONRPCRequest.t),
       protectedAPI (Demo.env false true true) Demo.cfg c w = (resp, w', evs) ->
       jsonJSONRPCRequest c = Some req ->
       responseID resp = JSONRPCRequest.ID req).
Proof.
  intros Hecho.
  pose (r := protectedAPI (Demo.env false true true) Demo.cfg Demo.shopCall
               Demo.world).
  specialize (Hecho Demo.shopCall Demo.world (after r) (outcome r) (trace r) _
                (run_eta r) eq_refl).
  vm_compute in Hecho. discriminate Hecho.
Qed.

(** The id comes back on a commit failure. *)
Lemma correlation_id_echoed_once_parsed_witness :
  let r := protectedAPI (Demo.env true true false) Demo.cfg Demo.shopCall
             Demo.world in
  responseID (outcome r) = AString "7" /\
  match authMiddleware (Demo.env true true false) Demo.cfg Demo.shopCall Demo.world with
  | (Abort r0, _, _) => outcome r = r0 /\ responseID (outcome r) = ANil
  | (Next _, w1, _) =>
      let got :=
        Database.GetConnection (sqlenv (Demo.env true true false)) Demo.cfg
          (Param Demo.shopCall "database") (pools w1) in
      (Param Demo.shopCall "function" = "login" /\ outcome r = refusedLogin /\
       responseID (outcome r) = ANil)
      \/ (fst got = None /\ outcome r = poolUnavailable /\
          responseID (outcome r) = ANil)
      \/ (jsonJSONRPCRequest Demo.shopCall = None /\ outcome r = malformedBody /\
          responseID (outcome r) = ANil)
      \/ (exists req,
           jsonJSONRPCRequest Demo.shopCall = Some req /\
           Param Demo.shopCall "function" <> "login" /\
           is_Some (fst got) /\ responseID (outcome r) = JSONRPCRequest.ID req)
  end.
Proof.
  intros r. split; [vm_compute; reflexivity|].
  exact (correlation_id_echoed_once_parsed (Demo.env true true false) Demo.cfg
           Demo.shopCall Demo.world (after r) (outcome r) (trace r) (run_eta r)).
Defined.



(** A role with a double quote in it. *)
Lemma role_switch_is_one_quoted_identifier_witness :
  let r := handleFunctionCall (Demo.env true true true) Demo.cfg Demo.oddRoleCall
             Demo.world in
  let stmt := setRoleStatement Demo.oddRole in
  let role := GetString Demo.oddRoleCall "db_role" in
  role = Demo.oddRole /\
  In (EvExec stmt true) (trace r) /\
  role <> EmptyString /\
  stmt = "SET LOCAL ROLE " +:+ Strings.dq +:+ Spec.doubleQuotes role +:+ Strings.dq /\
  PgLex.scan_quoted_ident (Strings.dq +:+ Spec.doubleQuotes role +:+ Strings.dq)
    = Some (role, EmptyString) /\
  PgLex.parse_set_local_role stmt = Some role.
Proof.
  intros r stmt role.
  assert (Hin : In (EvExec stmt true) (trace r))
    by (vm_compute; right; left; reflexivity).
  split; [reflexivity|]. split; [exact Hin|].
  exact (role_switch_is_one_quoted_identifier (Demo.env true true true) Demo.cfg
           Demo.oddRoleCall Demo.world (after r) (outcome r) (trace r) stmt true
           (run_eta r) Hin).
Defined.



(** ** [GetConnection] run by one caller *)

Section GetConnectionAlone.

Import Database.

Variable e : SqlEnv.
Variable cfg : Config.Config.

(** What [createPool] leaves, outcome by outcome. *)
Lemma createPool_cases (name : string) (p : Pools) :
  let '(r, p') := createPool e cfg name p in
  let newDB := {| db_id := handles p; db_dsn := connStr cfg name |} in
  created name p' = S (created name p) /\
  (clock p <= clock p' <= S (clock p))%nat /\
  (handles p <= handles p' <= S (handles p))%nat /\
  match r with
  | Some db =>
      db = newDB /\ sql_Ping e (clock p) newDB = true /\ clock p' = S (clock p) /\
      dbConnections p' = <[name := newDB]> (dbConnections p)
  | None => dbConnections p' = dbConnections p
  end.
Proof.
  assert (Hc : forall q, created name (Info "Creating new connection pool" name q)
                         = S (created name q)).
  { intros q. rewrite created_Info. unfold is_creation.
    cbn [log_msg log_database]. rewrite !String.eqb_refl. reflexivity. }
  assert (Hs : forall q, created name (Info "Successfully connected to database" name q)
                         = created name q).
  { intros q. rewrite created_Info. reflexivity. }
  unfold createPool, Open.
  cbn [handles clock dbConnections slog Info].
  destruct (sql_Open e (connStr cfg name)).
  - unfold Ping. cbn [handles clock dbConnections slog].
    destruct (sql_Ping e (clock p) _) eqn:Hping.
    + rewrite Hs. unfold store. cbn [handles clock dbConnections slog Info].
      specialize (Hc p). unfold created, Info in *. cbn [slog] in *.
      repeat split; try reflexivity; try lia; try exact Hc.
    + specialize (Hc p). unfold created, Info in *. cbn [slog handles clock dbConnections] in *.
      repeat split; try reflexivity; try lia; try exact Hc.
  - specialize (Hc p). unfold created, Info in *. cbn [slog handles clock dbConnections] in *.
    repeat split; try reflexivity; try lia; try exact Hc.
Qed.

(** [GetConnection] alone, path by path. *)
Lemma GetConnection_cases (name : string) (p : Pools) :
  let r := fst (GetConnection e cfg name p) in
  let p' := snd (GetConnection e cfg name p) in
  let tick q := snd (Ping e {| db_id := 0; db_dsn := EmptyString |} q) in
  match dbConnections p !! name with
  | Some db =>
      (sql_Ping e (clock p) db = true /\ r = Some db /\ p' = tick p)
      \/ (sql_Ping e (clock p) db = false /\ sql_Ping e (S (clock p)) db = true /\
          r = Some db /\ p' = tick (tick p))
      \/ (sql_Ping e (clock p) db = false /\ sql_Ping e (S (clock p)) db = false /\
          (r, p') = createPool e cfg name (tick (tick p)))
  | None => (r, p') = createPool e cfg name p
  end.
Proof.
  unfold GetConnection, Ping. cbn [snd].
  destruct (dbConnections p !! name) as [db|] eqn:Hreg.
  - destruct (sql_Ping e (clock p) db) eqn:H0; cbn [dbConnections clock fst snd].
    + left. repeat split; reflexivity.
    + rewrite Hreg.
      destruct (sql_Ping e (S (clock p)) db) eqn:H1; cbn [fst snd].
      * right; left. repeat split; reflexivity.
      * right; right. repeat split; try reflexivity.
        destruct (createPool e cfg name _); reflexivity.
  - cbn [fst snd]. rewrite Hreg. destruct (createPool e cfg name p); reflexivity.
Qed.

(** X1.  A call of [GetConnection] that runs alone, no other caller
    between its first statement and its return: the pool it returns is the
    one registered under the name when it returns, and it has answered a
    probe during the call.  (With callers side by side the pool of the fast
    path may have been replaced by then: see [late_probe_returns_replaced_pool].) *)
Theorem GetConnection_returns_registered_probed (name : string) (p : Pools) (db : DB) :
  fst (GetConnection e cfg name p) = Some db ->
  let p' := snd (GetConnection e cfg name p) in
  dbConnections p' !! name = Some db /\
  exists n, (clock p <= n < clock p')%nat /\ sql_Ping e n db = true.
Proof.
  intros Hr p'. pose proof (GetConnection_cases name p) as Hc.
  cbv zeta in Hc. fold p' in Hc. rewrite Hr in Hc.
  pose proof (createPool_cases name p) as Hn.
  destruct (dbConnections p !! name) as [db0|] eqn:Hreg.
  - destruct Hc as [(H0 & [= ->] & Hp)|[(H0 & H1 & [= ->] & Hp)|(H0 & H1 & Hp)]].
    + rewrite Hp. cbn. split; [exact Hreg|]. exists (clock p). split; [lia|exact H0].
    + rewrite Hp. cbn. split; [exact Hreg|]. exists (S (clock p)). split; [lia|exact H1].
    + clear Hn. pose proof (createPool_cases name
                   (snd (Ping e {| db_id := 0; db_dsn := EmptyString |}
                      (snd (Ping e {| db_id := 0; db_dsn := EmptyString |} p))))) as Hn.
      rewrite <- Hp in Hn. cbn [Ping snd clock handles dbConnections] in Hn.
      destruct Hn as (_ & _ & _ & -> & Hping & Hclock & Hstore).
      rewrite Hstore, Hclock. split; [apply lookup_insert_eq|].
      exists (S (S (clock p))). split; [lia|exact Hping].
  - rewrite <- Hc in Hn.
    destruct Hn as (_ & _ & _ & -> & Hping & Hclock & Hstore).
    rewrite Hstore, Hclock. split; [apply lookup_insert_eq|].
    exists (clock p). split; [lia|exact Hping].
Qed.

(** X2.  When [GetConnection] returns an error the registry is what it
    was, entry for entry (a pool that failed its probes stays registered),
    and the error comes from an attempt to create a pool: the creation line
    has been logged once. *)
Theorem GetConnection_error_keeps_registry (name : string) (p : Pools) :
  fst (GetConnection e cfg name p) = None ->
  let p' := snd (GetConnection e cfg name p) in
  dbConnections p' = dbConnections p /\
  created name p' = S (created name p).
Proof.
  intros Hr p'. pose proof (GetConnection_cases name p) as Hc.
  cbv zeta in Hc. fold p' in Hc. rewrite Hr in Hc.
  destruct (dbConnections p !! name) as [db0|] eqn:Hreg.
  - destruct Hc as [(_ & [=] & _)|[(_ & _ & [=] & _)|(H0 & H1 & Hp)]].
    pose proof (createPool_cases name
                  (snd (Ping e {| db_id := 0; db_dsn := EmptyString |}
                     (snd (Ping e {| db_id := 0; db_dsn := EmptyString |} p))))) as Hn.
    rewrite <- Hp in Hn. cbn [Ping snd clock handles dbConnections] in Hn.
    destruct Hn as (Hcr & _ & _ & Hsame). split; [exact Hsame|exact Hcr].
  - pose proof (createPool_cases name p) as Hn. rewrite <- Hc in Hn.
    destruct Hn as (Hcr & _ & _ & Hsame). split; [exact Hsame|exact Hcr].
Qed.

(** The registry after a call, whatever it returned. *)
Lemma GetConnection_registry (name : string) (p : Pools) :
  let r := fst (GetConnection e cfg name p) in
  let p' := snd (GetConnection e cfg name p) in
  (dbConnections p' = dbConnections p /\
   (r = None \/ r = dbConnections p !! name))
  \/ (exists newDB,
        r = Some newDB /\ db_id newDB = handles p /\
        db_dsn newDB = connStr cfg name /\
        dbConnections p' = <[name := newDB]> (dbConnections p)).
Proof.
  intros r p'. pose proof (GetConnection_cases name p) as Hc.
  cbv zeta in Hc. fold r p' in Hc.
  assert (Hcreate : forall q,
            handles q = handles p -> dbConnections q = dbConnections p ->
            (r, p') = createPool e cfg name q ->
            (dbConnections p' = dbConnections p /\
             (r = None \/ r = dbConnections p !! name))
            \/ (exists newDB,
                  r = Some newDB /\ db_id newDB = handles p /\
                  db_dsn newDB = connStr cfg name /\
                  dbConnections p' = <[name := newDB]> (dbConnections p))).
  { intros q Hh Hd Hq. pose proof (createPool_cases name q) as Hn.
    rewrite <- Hq in Hn. destruct Hn as (_ & _ & _ & Hn).
    destruct r as [db|].
    - destruct Hn as (-> & _ & _ & Hstore). right.
      eexists. split; [reflexivity|]. cbn [db_id db_dsn].
      rewrite Hstore, Hh, Hd. repeat split; reflexivity.
    - left. rewrite Hn, Hd. split; [reflexivity|left; reflexivity]. }
  destruct (dbConnections p !! name) as [db0|] eqn:Hreg.
  - destruct Hc as [(_ & -> & ->)|[(_ & _ & -> & ->)|(_ & _ & Hp)]].
    + left. split; [reflexivity|right; reflexivity].
    + left. split; [reflexivity|right; reflexivity].
    + eapply Hcreate; [| |exact Hp]; reflexivity.
  - apply (Hcreate p eq_refl eq_refl Hc).
Qed.

(** X3.  A call for one name leaves the entry of every other name as it
    was, and removes no entry. *)
Theorem GetConnection_frame (name : string) (p : Pools) :
  let p' := snd (GetConnection e cfg name p) in
  (forall d, d <> name -> dbConnections p' !! d = dbConnections p !! d) /\
  (forall d, is_Some (dbConnections p !! d) -> is_Some (dbConnections p' !! d)).
Proof.
  intros p'.
  destruct (GetConnection_registry name p) as [(Hsame & _)|(newDB & _ & _ & _ & Hstore)];
    fold p' in Hsame || fold p' in Hstore.
  - rewrite Hsame. split; auto.
  - rewrite Hstore. split.
    + intros d Hd. apply lookup_insert_ne. congruence.
    + intros d Hd. destruct (decide (name = d)) as [->|Hne].
      * rewrite lookup_insert_eq. eexists; reflexivity.
      * rewrite lookup_insert_ne by exact Hne. exact Hd.
Qed.

(** X4.  After a successful call, the next call for the same name returns
    the same pool as long as it answers its probe: one probe, nothing
    opened, nothing logged, the registry unchanged. *)
Theorem GetConnection_reuses_pool (name : string) (p : Pools) (db : DB) :
  fst (GetConnection e cfg name p) = Some db ->
  let p1 := snd (GetConnection e cfg name p) in
  sql_Ping e (clock p1) db = true ->
  GetConnection e cfg name p1 =
  (Some db, {| dbConnections := dbConnections p1; clock := S (clock p1);
               handles := handles p1; slog := slog p1 |}).
Proof.
  intros Hr p1 Hping.
  assert (Hreg : dbConnections p1 !! name = Some db).
  { pose proof (GetConnection_cases name p) as Hc.
    cbv zeta in Hc. fold p1 in Hc. rewrite Hr in Hc.
    destruct (dbConnections p !! name) as [db0|] eqn:Hreg0.
    - destruct Hc as [(H0 & [= ->] & Hp)|[(H0 & H1 & [= ->] & Hp)|(H0 & H1 & Hp)]].
      + rewrite Hp. exact Hreg0.
      + rewrite Hp. exact Hreg0.
      + pose proof (createPool_cases name
                      (snd (Ping e {| db_id := 0; db_dsn := EmptyString |}
                         (snd (Ping e {| db_id := 0; db_dsn := EmptyString |} p))))) as Hn.
        rewrite <- Hp in Hn. destruct Hn as (_ & _ & _ & -> & _ & _ & Hstore).
        rewrite Hstore. apply lookup_insert_eq.
    - pose proof (createPool_cases name p) as Hn. rewrite <- Hc in Hn.
      destruct Hn as (_ & _ & _ & -> & _ & _ & Hstore).
      rewrite Hstore. apply lookup_insert_eq. }
  unfold GetConnection, Ping. rewrite Hreg, Hping. reflexivity.
Qed.

(** X5.  One call probes at most three times, opens at most one pool and
    logs at most one creation: there is no retry. *)
Theorem GetConnection_bounded (name : string) (p : Pools) :
  let p' := snd (GetConnection e cfg name p) in
  (clock p <= clock p' <= clock p + 3)%nat /\
  (handles p <= handles p' <= handles p + 1)%nat /\
  (created name p <= created name p' <= created name p + 1)%nat.
Proof.
  intros p'. pose proof (GetConnection_cases name p) as Hc.
  cbv zeta in Hc. fold p' in Hc.
  assert (Hcreate : forall q,
            (fst (GetConnection e cfg name p), p') = createPool e cfg name q ->
            (clock q <= clock p' <= S (clock q))%nat /\
            (handles q <= handles p' <= S (handles q))%nat /\
            created name p' = S (created name q)).
  { intros q Hq. pose proof (createPool_cases name q) as Hn.
    rewrite <- Hq in Hn. destruct Hn as (Hcr & Hcl & Hh & _).
    repeat split; try lia; exact Hcr. }
  destruct (dbConnections p !! name) as [db0|] eqn:Hreg.
  - destruct Hc as [(_ & _ & ->)|[(_ & _ & _ & ->)|(_ & _ & Hp)]].
    + cbn. unfold created. cbn. lia.
    + cbn. unfold created. cbn. lia.
    + apply Hcreate in Hp. cbn [Ping snd clock handles] in Hp.
      unfold created in *. cbn [Ping snd slog] in Hp. lia.
  - apply Hcreate in Hc. lia.
Qed.

End GetConnectionAlone.

(** ** [GetConnection] run by many callers, on any engine *)

(** The data source name of line 41 determines the name it was built
    from. *)
Lemma append_inv_head (p a b : string) : p +:+ a = p +:+ b -> a = b.
Proof.
  induction p as [|x p IH]; intros H; [exact H|].
  rewrite !append_cons in H. injection H as H. exact (IH H).
Qed.

Lemma length_append (a b : string) :
  String.length (a +:+ b) = (String.length a + String.length b)%nat.
Proof.
  induction a as [|x a IH]; [reflexivity|].
  rewrite append_cons. cbn. f_equal. exact IH.
Qed.

Lemma append_inv_tail (s a b : string) : a +:+ s = b +:+ s -> a = b.
Proof.
  revert b. induction a as [|x a IH]; intros [|y b] H;
    rewrite ?append_cons in H.
  - reflexivity.
  - apply (f_equal String.length) in H.
    cbn [String.length] in H. rewrite !length_append in H.
    cbn [String.length] in H. lia.
  - apply (f_equal String.length) in H.
    cbn [String.length] in H. rewrite !length_append in H.
    cbn [String.length] in H. lia.
  - injection H as -> H. f_equal. exact (IH b H).
Qed.

Lemma connStr_inj (cfg : Config.Config) (a b : string) :
  Database.connStr cfg a = Database.connStr cfg b -> a = b.
Proof.
  unfold Database.connStr. intros H.
  do 7 apply append_inv_head in H.
  exact (append_inv_tail _ _ _ H).
Qed.

Section ManyCallers.

Import Database Invariants.

Variable e : SqlEnv.
Variable cfg : Config.Config.

(** A statement keeps the mutex in step with the callers, whatever the
    probes and [sql.Open] answer. *)
Lemma mutex_ok_thread_step (sh sh' : Shared) (l1 l2 : list Thread) (t t' : Thread) :
  mutex_ok {| shared := sh; threads := l1 ++ t :: l2 |} ->
  thread_step e cfg sh t = Some (sh', t') ->
  mutex_ok {| shared := sh'; threads := l1 ++ t' :: l2 |}.
Proof.
  intros (Hr & Hw & Hx) Hstep.
  cbn [shared threads] in *.
  rewrite tally_middle in Hr, Hw.
  destruct sh as [p [rd wr]], t as [n pc].
  unfold mutex_ok. cbn [shared threads]. rewrite !tally_middle.
  unfold thread_step in Hstep. cbn [t_dbName t_pc mu pools writer readers] in *.
  destruct pc as [| |r|[db|]| | |[db|]| |newDB|newDB|r|r].
  all: unfold Ping, Open, with_pools, with_mu, at_pc in Hstep;
       cbn [t_dbName t_pc mu pools writer readers clock] in Hstep.
  all: repeat match type of Hstep with
         | context [sql_Ping e ?n ?db] => destruct (sql_Ping e n db)
         | context [sql_Open e ?dsn] => destruct (sql_Open e dsn)
         end.
  all: try (destruct wr; [discriminate Hstep|]).
  all: try (destruct rd; [|discriminate Hstep]).
  all: try discriminate Hstep.
  all: injection Hstep as <- <-.
  all: cbn [holds_lock holds_rlock t_dbName t_pc mu pools writer readers
            shared threads] in *.
  all: repeat split.
  all: try lia.
  all: try (intros Hwr; specialize (Hx Hwr); lia).
  all: try (destruct wr; lia).
  all: try discriminate.
Qed.

Lemma mutex_ok_reachable (s s' : System) :
  reachable e cfg s s' -> mutex_ok s -> mutex_ok s'.
Proof.
  intros Hreach. induction Hreach as [s|s s1 s2 Hstep _ IH]; [auto|].
  intros HI. apply IH.
  destruct (step_middle e cfg s s1 Hstep)
    as (sh & sh' & l1 & l2 & t & t' & -> & -> & Ht).
  eapply mutex_ok_thread_step; eassumption.
Qed.

Lemma mutex_ok_start (p : Pools) (names : list string) : mutex_ok (start p names).
Proof.
  unfold mutex_ok, start. cbn [shared threads mu readers writer].
  rewrite !tally_start by reflexivity.
  repeat split; discriminate.
Qed.

Lemma tally_lookup (f : Thread -> bool) (l : list Thread) (i : nat) (t : Thread) :
  l !! i = Some t -> f t = true -> (1 <= tally f l)%nat.
Proof.
  revert i. induction l as [|x l IH]; intros [|i] Hi Hf; try discriminate.
  - injection Hi as ->. rewrite tally_cons, Hf. lia.
  - rewrite tally_cons. specialize (IH i Hi Hf). lia.
Qed.

Lemma tally_two (f : Thread -> bool) (l : list Thread) (i j : nat) (ti tj : Thread) :
  i <> j -> l !! i = Some ti -> l !! j = Some tj ->
  f ti = true -> f tj = true -> (2 <= tally f l)%nat.
Proof.
  revert i j. induction l as [|x l IH]; intros [|i] [|j] Hne Hi Hj Hfi Hfj;
    try discriminate; try congruence; rewrite tally_cons.
  - injection Hi as ->. rewrite Hfi.
    pose proof (tally_lookup f l j tj Hj Hfj). lia.
  - injection Hj as ->. rewrite Hfj.
    pose proof (tally_lookup f l i ti Hi Hfi). lia.
  - assert (i <> j) by congruence.
    specialize (IH i j ltac:(assumption) Hi Hj Hfi Hfj). lia.
Qed.

(** X6.  Whatever the schedule and whatever the probes answer, the write
    lock is exclusive: while one caller is between [Lock] and [Unlock] (it
    may be writing [dbConnections]) no other caller is there, and none is
    between [RLock] and [RUnlock] (reading it). *)
Theorem write_lock_exclusive (p : Pools) (names : list string) (s : System)
    (i j : nat) (ti tj : Thread) :
  reachable e cfg (start p names) s ->
  threads s !! i = Some ti -> threads s !! j = Some tj -> i <> j ->
  holds_lock ti = true ->
  holds_lock tj = false /\ holds_rlock tj = false.
Proof.
  intros Hreach Hi Hj Hne Hti.
  destruct (mutex_ok_reachable _ _ Hreach (mutex_ok_start p names)) as (Hr & Hw & Hx).
  pose proof (tally_lookup holds_lock _ i ti Hi Hti) as H1.
  destruct (writer (mu (shared s))); [|lia].
  split.
  - destruct (holds_lock tj) eqn:Htj; [|reflexivity].
    pose proof (tally_two holds_lock _ i j ti tj Hne Hi Hj Hti Htj). lia.
  - destruct (holds_rlock tj) eqn:Htj; [|reflexivity].
    pose proof (tally_lookup holds_rlock _ j tj Hj Htj).
    specialize (Hx eq_refl). lia.
Qed.

(** A caller inside a lock is never blocked. *)
Lemma thread_step_inside (sh : Shared) (t : Thread) :
  holds_lock t = true \/ holds_rlock t = true ->
  is_Some (thread_step e cfg sh t).
Proof.
  unfold holds_lock, holds_rlock, thread_step, Ping, Open.
  destruct (t_pc t) as [| |r|[db|]| | |[db|]| |newDB|newDB|r|r];
    intros [H|H]; try discriminate; cbn;
    repeat match goal with
      | |- context [if ?b then _ else _] => destruct b
      end; eexists; reflexivity.
Qed.

(** With the mutex free, only a caller that has returned cannot move. *)
Lemma thread_step_free (sh : Shared) (t : Thread) :
  writer (mu sh) = false -> readers (mu sh) = 0%nat -> returned t = None ->
  is_Some (thread_step e cfg sh t).
Proof.
  unfold returned, thread_step, Ping, Open. intros Hw Hr.
  destruct (t_pc t) as [| |r|[db|]| | |[db|]| |newDB|newDB|r|r];
    intros H; try discriminate; rewrite ?Hw, ?Hr; cbn;
    repeat match goal with
      | |- context [if ?b then _ else _] => destruct b
      end; eexists; reflexivity.
Qed.

Lemma In_lookup (l : list Thread) (t : Thread) :
  In t l -> exists i, l !! i = Some t.
Proof. intros Hin. apply list_elem_of_lookup, list_elem_of_In. exact Hin. Qed.

(** X7.  The callers never deadlock: in every state they can reach, with
    any answers of the probes, if some caller has not returned then some
    caller can take its next statement. *)
Theorem no_deadlock (p : Pools) (names : list string) (s : System) (t : Thread) :
  reachable e cfg (start p names) s ->
  In t (threads s) -> returned t = None ->
  exists s', step e cfg s s'.
Proof.
  intros Hreach Hin Hret.
  destruct (mutex_ok_reachable _ _ Hreach (mutex_ok_start p names)) as (Hr & Hw & Hx).
  assert (Hmove : exists i t1, threads s !! i = Some t1 /\
                               is_Some (thread_step e cfg (shared s) t1)).
  { destruct (writer (mu (shared s))) eqn:Hwr.
    - destruct (tally_pos holds_lock (threads s)) as (t1 & Hin1 & Hl1); [lia|].
      destruct (In_lookup _ _ Hin1) as [i Hi].
      exists i, t1. split; [exact Hi|]. apply thread_step_inside. left; exact Hl1.
    - destruct (readers (mu (shared s))) as [|n] eqn:Hrd.
      + destruct (In_lookup _ _ Hin) as [i Hi].
        exists i, t. split; [exact Hi|]. apply thread_step_free; assumption.
      + destruct (tally_pos holds_rlock (threads s)) as (t1 & Hin1 & Hl1); [lia|].
        destruct (In_lookup _ _ Hin1) as [i Hi].
        exists i, t1. split; [exact Hi|]. apply thread_step_inside. right; exact Hl1. }
  destruct Hmove as (i & t1 & Hi & [[sh' t'] Hstep]).
  destruct s as [sh ts]. eexists. econstructor; eassumption.
Qed.

Lemma thread_step_rank (sh sh' : Shared) (t t' : Thread) :
  thread_step e cfg sh t = Some (sh', t') ->
  (rank (t_pc t') < rank (t_pc t))%nat.
Proof.
  unfold thread_step, Ping, Open, at_pc.
  destruct (t_pc t) as [| |r|[db|]| | |[db|]| |newDB|newDB|r|r]; cbn;
    repeat match goal with
      | |- context [if ?b then _ else _] => destruct b
      | |- context [match ?n with O => _ | S _ => _ end] => destruct n
      end; intros H; try discriminate H; injection H as _ <-; cbn; lia.
Qed.

Lemma total_rank_middle (l1 l2 : list Thread) (t : Thread) :
  total_rank (l1 ++ t :: l2) = (total_rank l1 + rank (t_pc t) + total_rank l2)%nat.
Proof.
  unfold total_rank. rewrite map_app, list_sum_app. simpl. lia.
Qed.

Lemma step_rank (s s' : System) :
  step e cfg s s' -> (total_rank (threads s') < total_rank (threads s))%nat.
Proof.
  intros Hstep.
  destruct (step_middle e cfg s s' Hstep)
    as (sh & sh' & l1 & l2 & t & t' & -> & -> & Ht).
  cbn [threads]. rewrite !total_rank_middle.
  pose proof (thread_step_rank _ _ _ _ Ht). lia.
Qed.

Lemma total_rank_start (p : Pools) (names : list string) :
  total_rank (threads (start p names)) = (11 * length names)%nat.
Proof.
  unfold start, total_rank. cbn [threads]. rewrite map_map. cbn [t_pc rank].
  induction names as [|n names IH]; [reflexivity|]. simpl in *. lia.
Qed.

(** X8.  Every caller returns within eleven statements: a run of [n]
    statements of [N] callers, in any interleaving and with any answers of
    the probes, has [n] at most [11 * N]. *)
Theorem run_length_bounded (p : Pools) (names : list string) (s : System) (n : nat) :
  nsteps (step e cfg) n (start p names) s ->
  (n + total_rank (threads s) <= 11 * length names)%nat.
Proof.
  rewrite <- (total_rank_start p names).
  generalize (start p names). intros s0 Hrun.
  induction Hrun as [s0|n s0 s1 s2 Hstep _ IH]; [lia|].
  pose proof (step_rank _ _ Hstep). lia.
Qed.

(** A statement keeps the data source names right. *)
Lemma names_ok_thread_step (sh sh' : Shared) (l1 l2 : list Thread) (t t' : Thread) :
  names_ok cfg {| shared := sh; threads := l1 ++ t :: l2 |} ->
  thread_step e cfg sh t = Some (sh', t') ->
  names_ok cfg {| shared := sh'; threads := l1 ++ t' :: l2 |}.
Proof.
  intros (Hreg & Hl) Hstep. cbn [shared threads] in *.
  apply Forall_app in Hl as [Hl1 Hl2]. apply Forall_cons in Hl2 as [Ht Hl2].
  destruct sh as [p m], t as [n pc].
  unfold names_ok. cbn [shared threads].
  unfold thread_step, Ping, Open, with_pools, with_mu, at_pc, Info, store in Hstep.
  unfold holds_own in Ht.
  cbn [t_dbName t_pc mu pools clock dbConnections handles slog] in *.
  assert (Hlook : forall db, dbConnections p !! n = Some db -> db_dsn db = connStr cfg n)
    by (intros db; apply Hreg).
  destruct pc as [| |r|[db|]| | |[db|]| |newDB|newDB|r|r];
    repeat match type of Hstep with
      | context [if ?b then _ else _] => destruct b
      | context [match ?n with O => _ | S _ => _ end] => destruct n
      end; try discriminate Hstep; injection Hstep as <- <-;
    cbn [pools dbConnections];
    (split; [|apply Forall_app; split; [exact Hl1|apply Forall_cons; split; [|exact Hl2]]]);
    try exact Hreg; unfold holds_own; cbn [t_pc t_dbName db_dsn]; try exact I;
    try exact Ht; try reflexivity.
  - destruct (dbConnections p !! n) as [db|] eqn:Hdb; [apply Hlook; reflexivity|exact I].
  - destruct (dbConnections p !! n) as [db|] eqn:Hdb; [apply Hlook; reflexivity|exact I].
  - intros d db. destruct (decide (n = d)) as [<-|Hne].
    + rewrite lookup_insert_eq. intros [= <-]. exact Ht.
    + rewrite lookup_insert_ne by exact Hne. apply Hreg.
Qed.

Lemma names_ok_reachable (s s' : System) :
  reachable e cfg s s' -> names_ok cfg s -> names_ok cfg s'.
Proof.
  intros Hreach. induction Hreach as [s|s s1 s2 Hstep _ IH]; [auto|].
  intros HI. apply IH.
  destruct (step_middle e cfg s s1 Hstep)
    as (sh & sh' & l1 & l2 & t & t' & -> & -> & Ht).
  eapply names_ok_thread_step; eassumption.
Qed.

(** X9.  Every pool stays with the name it was opened for: if every
    pool registered at the start was opened with the data source name that
    line 41 builds from its name, then so is every pool registered later,
    and so is the pool any caller returns, in any interleaving and with any
    answers of the probes; and as that text determines the name, callers
    that ask for different names are never returned the same pool.  (The
    name is pasted into the text unescaped, see [connStr_pastes_unescaped]:
    it is the text, not the name, that tells the driver which database to
    connect to.) *)
Theorem pools_opened_for_their_name (p : Pools) (names : list string) (s : System) :
  well_named cfg (dbConnections p) ->
  reachable e cfg (start p names) s ->
  well_named cfg (dbConnections (pools (shared s))) /\
  (forall t db, In t (threads s) -> returned t = Some (Some db) ->
                db_dsn db = connStr cfg (t_dbName t)) /\
  (forall t1 t2 db1 db2,
     In t1 (threads s) -> In t2 (threads s) ->
     returned t1 = Some (Some db1) -> returned t2 = Some (Some db2) ->
     t_dbName t1 <> t_dbName t2 -> db1 <> db2).
Proof.
  intros Hp Hreach.
  assert (H0 : names_ok cfg (start p names)).
  { split; [exact Hp|]. unfold start. cbn [threads].
    apply Forall_forall. intros t Ht.
    apply list_elem_of_In, in_map_iff in Ht as (n & <- & _). exact I. }
  destruct (names_ok_reachable _ _ Hreach H0) as (Hreg & Hl).
  assert (Hown : forall t db, In t (threads s) -> returned t = Some (Some db) ->
                              db_dsn db = connStr cfg (t_dbName t)).
  { intros t db Hin Hret. rewrite Forall_forall in Hl.
    specialize (Hl t (proj2 (list_elem_of_In _ _) Hin)).
    unfold returned in Hret. unfold holds_own in Hl.
    destruct (t_pc t); try discriminate. injection Hret as ->. exact Hl. }
  split; [exact Hreg|]. split; [exact Hown|].
  intros t1 t2 db1 db2 Hin1 Hin2 Hr1 Hr2 Hne Heq. apply Hne.
  apply (connStr_inj cfg).
  rewrite <- (Hown t1 db1 Hin1 Hr1), <- (Hown t2 db2 Hin2 Hr2), Heq.
  reflexivity.
Qed.

End ManyCallers.

(** Line 41 pastes the name into the data source name as it is: a name
    with a space in it adds settings of its own to the text. *)
Example connStr_pastes_unescaped :
  Database.connStr Demo.cfg "shop user=intruder"
  = "host=localhost port=5432 user=pgarachne dbname=shop user=intruder"
    +:+ " sslmode=disable".
Proof. vm_compute. reflexivity. Qed.

(** ** The gateway, end to end *)

Section Gateway.

Context {Store Session : Type}.
Variable E : Server.Env Store Session.
Variable cfg : Config.Config.

Import Server.

Lemma tryJWT_Next (c c' : Context) (authType tokenString : string) :
  tryJWT E cfg c authType tokenString = Some (Next c') ->
  Strings.SplitN (GetHeader c "Authorization") " " 2 = [authType; tokenString] ->
  exists role, c' = Set_ c "db_role" (AString role) /\ Resolve.bySession E cfg c role.
Proof.
  unfold tryJWT. intros Hjwt Hsplit.
  destruct (String.eqb_spec (Strings.ToLower authType) "bearer") as [Hlow|];
    [|discriminate].
  destruct (jwt_Parse E tokenString (keyFunc cfg)) as [token|] eqn:Hparse;
    [|discriminate].
  destruct (Valid token) eqn:Hvalid; [|discriminate].
  destruct (TokenClaims token) as [m|] eqn:Hclaims.
  - destruct (m !! "db_role") as [[|dbRole| | |]|] eqn:Hrole;
      cbn in Hjwt; try discriminate;
      try (destruct (assertString (m !! "db_name")); discriminate).
    destruct (m !! "db_name") as [[|dbName| | |]|] eqn:Hname;
      cbn in Hjwt;
      destruct (String.eqb_spec dbRole EmptyString) as [|Hne];
      cbn in Hjwt; try discriminate.
    destruct (String.eqb_spec dbName (Param c "database")) as [Hdb|];
      cbn in Hjwt; [|discriminate].
    injection Hjwt as <-. exists dbRole. split; [reflexivity|].
    exists authType, tokenString, token, m. subst dbName.
    repeat split; assumption.
  - cbn in Hjwt. destruct (assertString (∅ !! "db_role")), (assertString (∅ !! "db_name")).
    discriminate.
Qed.

(** What [authMiddleware] asks of the engine and how it lets a request
    through. *)
Lemma authMiddleware_resolved (c : Context) (w : World Store Session) :
  let '(flow, w', evs) := authMiddleware E cfg c w in
  tx w' = tx w /\
  (evs = [] /\ committed w' = committed w
   \/ exists authType tokenString,
        Strings.SplitN (GetHeader c "Authorization") " " 2 = [authType; tokenString] /\
        evs = [EvQueryRow verifyQuery tokenString]) /\
  forall c', flow = Next c' ->
    exists role,
      c' = Set_ c "db_role" (AString role) /\
      (Resolve.bySession E cfg c role /\ evs = [] /\ w' = w
       \/ Resolve.byToken E cfg c w role /\ evs <> []).
Proof.
  unfold authMiddleware.
  destruct (String.eqb (GetHeader c "Authorization") EmptyString).
  { cbn. split; [reflexivity|]. split; [left; split; reflexivity|]. discriminate. }
  destruct (Strings.SplitN (GetHeader c "Authorization") " " 2)
    as [|authType [|tokenString [|? ?]]] eqn:Hsplit;
    try (cbn; split; [reflexivity|]; split; [left; split; reflexivity|]; discriminate).
  destruct (tryJWT E cfg c authType tokenString) as [flow|] eqn:Hjwt.
  { cbn. split; [reflexivity|]. split; [left; split; reflexivity|].
    intros c' ->. destruct (tryJWT_Next _ _ _ _ Hjwt Hsplit) as (role & -> & Hs).
    exists role. split; [reflexivity|]. left. repeat split; assumption. }
  unfold bind at 1. unfold GetConnection at 1.
  destruct (Database.GetConnection (sqlenv E) cfg (Param c "database") (pools w))
    as [[db|] p] eqn:Hgot.
  2:{ cbn. split; [reflexivity|]. split; [left; split; reflexivity|]. discriminate. }
  unfold bind, QueryRowNullString, with_pools. cbn [pools committed tx].
  destruct (db_QueryRow E verifyQuery tokenString (committed w))
    as [st [[role [|]]|]] eqn:Hq; cbn;
    (split; [reflexivity|]);
    (split; [right; exists authType, tokenString; split; first [exact Hsplit|reflexivity]|]);
    try discriminate.
  intros c' [= <-]. exists role. split; [reflexivity|]. right.
  split; [|discriminate].
  exists authType, tokenString. split; [first [exact Hsplit|reflexivity]|].
  rewrite Hgot, Hq. split; [eexists; reflexivity|reflexivity].
Qed.

(** X10.  [authMiddleware] lets a request through only with a role it has
    resolved: the role of a session credential that [jwt.Parse] accepted and
    whose claims name the database of the path, in which case nothing was
    asked of any engine and the world is untouched; or the role that
    [pgarachne.verify_api_token] returned, not NULL, for the header's token on
    a pool of the path's database.  The role is stored under [db_role] and
    nothing else of the request changes. *)
Theorem authMiddleware_accepts_resolved_role (c c' : Context)
    (w w' : World Store Session) (evs : list Event) :
  authMiddleware E cfg c w = (Next c', w', evs) ->
  exists role,
    c' = Set_ c "db_role" (AString role) /\
    GetString c' "db_role" = role /\
    (Resolve.bySession E cfg c role /\ evs = [] /\ w' = w
     \/ Resolve.byToken E cfg c w role /\ evs <> []).
Proof.
  intros Hrun.
  pose proof (authMiddleware_resolved c w) as Hp. rewrite Hrun in Hp.
  destruct Hp as (_ & _ & Hnext).
  destruct (Hnext c' eq_refl) as (role & -> & Hres).
  exists role. split; [reflexivity|]. split; [|exact Hres].
  unfold GetString, Set_. cbn [Keys]. rewrite lookup_insert_eq. reflexivity.
Qed.

(** X11.  Whatever it answers, [authMiddleware] asks the engine for at most
    one thing, the fixed query [SELECT pgarachne.verify_api_token($1)] with
    the second part of the header as its bound argument, never as query
    text; it opens no transaction, and when it asks nothing the committed
    state is the one it found. *)
Theorem authMiddleware_footprint (c : Context) (w : World Store Session) :
  let r := authMiddleware E cfg c w in
  tx (after r) = tx w /\
  (trace r = [] /\ committed (after r) = committed w
   \/ exists authType tokenString,
        Strings.SplitN (GetHeader c "Authorization") " " 2 = [authType; tokenString] /\
        trace r = [EvQueryRow verifyQuery tokenString]).
Proof.
  pose proof (authMiddleware_resolved c w) as Hp.
  unfold after, trace.
  destruct (authMiddleware E cfg c w) as [[flow w'] evs]. cbn [fst snd].
  destruct Hp as (Htx & Hevs & _). split; assumption.
Qed.

(** The answers written without a transaction are never a success. *)
Lemma dispatch_success_has_trace (c : Context) (w w' : World Store Session)
    (resp : Response) (evs : list Event) :
  handleFunctionCall E cfg c w = (resp, w', evs) ->
  Status resp = StatusOK -> evs <> [].
Proof.
  intros Hrun Hok ->.
  pose proof (handleFunctionCall_paths E cfg c w) as Hp. rewrite Hrun in Hp.
  destruct Hp as [(_ & _ & _ & Hp)|(req & db & params & s & _ & _ & _ & _ & _ & _ & Hp)].
  - destruct Hp as [(_ & -> & _)|[(_ & _ & ->)|[(_ & _ & _ & ->)|(req & _ & _ & _ & _ & Hs)]]];
      try discriminate.
    contradiction.
  - cbv zeta in Hp.
    match type of Hp with
    | context [defer Rollback ?m ?w1] => destruct (defer Rollback m w1) as [[? ?] ?]
    end.
    destruct Hp as (_ & _ & Hp). discriminate.
Qed.

(** X13.  How a failed procedure call is answered.  When the engine's call
    returns an error, the answer is 404 [Function does not exist] exactly
    when the engine's error text contains [does not exist], whatever it is
    that does not exist; otherwise it is 500 and the engine's error text is
    handed to the caller after [Function call failed: ].  Either way the
    committed state is untouched. *)
Theorem failed_call_answer (c : Context) (w w' : World Store Session)
    (resp : Response) (evs : list Event) (query arg : string) :
  handleFunctionCall E cfg c w = (resp, w', evs) ->
  In (EvTxQueryRow query arg false) evs ->
  exists s1 err,
    query = callQuery (Param c "function") /\
    tx_QueryRow E query arg s1 = inl err /\
    (if Strings.Contains err "does not exist"
     then Status resp = StatusNotFound /\ message resp = "Function does not exist"
     else Status resp = StatusInternalServerError /\
          message resp = "Function call failed: " +:+ err) /\
    committed w' = committed w.
Proof.
  intros Hrun Hin.
  assert (Hb : evs <> []) by (intros ->; destruct Hin).
  destruct (dispatch_engine E cfg c w w' resp evs Hrun Hb)
    as (req & params & s & _ & _ & _ & _ & Hcases).
  cbv zeta in Hcases.
  destruct Hcases as [(_ & -> & _)
                     |[(s1 & err & _ & Hq & -> & -> & Hc)
                      |[(s1 & s2 & row & engine & _ & _ & _ & _ & -> & _)
                       |[(s1 & s2 & row & _ & _ & _ & _ & -> & _)
                        |(s1 & s2 & row & st & _ & _ & _ & _ & -> & _)]]]];
    cbn in Hin;
    repeat (destruct Hin as [Hin|Hin]; [try discriminate|]);
    try contradiction.
  injection Hin as <- <-.
  exists s1, err. split; [reflexivity|]. split; [exact Hq|]. split; [|exact Hc].
  destruct (Strings.Contains err "does not exist"); split; reflexivity.
Qed.

(** X14.  A 200 answer of the dispatcher is the engine's row, committed: the
    transaction was begun on the committed state, the role switch succeeded
    in it, the call returned the row that the answer carries as its result,
    with the caller's id and no error, and the commit went through; the
    committed state afterwards is the one that commit produced. *)
Theorem success_is_committed_engine_row (c : Context) (w w' : World Store Session)
    (resp : Response) (evs : list Event) :
  handleFunctionCall E cfg c w = (resp, w', evs) ->
  Status resp = StatusOK ->
  exists req params s s1 s2 row,
    jsonJSONRPCRequest c = Some req /\
    json_Marshal E (JSONRPCRequest.Params req) = Some params /\
    db_BeginTx E (committed w) = Some s /\
    tx_Exec E (setRoleStatement (GetString c "db_role")) s = Some s1 /\
    tx_QueryRow E (callQuery (Param c "function")) params s1 = inr (s2, row) /\
    tx_Commit E s2 = Some (committed w') /\
    Body resp = RPC {| JSONRPCResponse.JSONRPC := "2.0";
                       JSONRPCResponse.Result := row;
                       JSONRPCResponse.Error := None;
                       JSONRPCResponse.ID := JSONRPCRequest.ID req |}.
Proof.
  intros Hrun Hok.
  pose proof (dispatch_success_has_trace c w w' resp evs Hrun Hok) as Hb.
  destruct (dispatch_engine E cfg c w w' resp evs Hrun Hb)
    as (req & params & s & Hreq & Hm & Hbegin & _ & Hcases).
  cbv zeta in Hcases.
  destruct Hcases as [(_ & _ & Hs & _)
                     |[(s1 & err & _ & _ & -> & _)
                      |[(s1 & s2 & row & engine & _ & _ & _ & _ & _ & Hs & _)
                       |[(s1 & s2 & row & _ & _ & _ & _ & _ & Hs & _)
                        |(s1 & s2 & row & st & He & Hq & Hcm & -> & _ & Hc)]]]].
  - rewrite Hs in Hok. discriminate.
  - destruct (Strings.Contains err "does not exist"); discriminate.
  - rewrite Hs in Hok. discriminate.
  - rewrite Hs in Hok. discriminate.
  - exists req, params, s, s1, s2, row. rewrite Hc.
    repeat split; assumption.
Qed.

(** X12.  On the protected route every statement that reaches the engine
    inside a transaction runs under a role the authenticator resolved for
    this request: the role switch is [SET LOCAL ROLE] with that role, quoted,
    the role is not empty, and it is the role of an accepted session
    credential for the database of the path or the one
    [pgarachne.verify_api_token] returned for the header's token. *)
Theorem engine_runs_under_resolved_role (c : Context) (w w' : World Store Session)
    (resp : Response) (evs : list Event) (stmt : string) (ok : bool) :
  protectedAPI E cfg c w = (resp, w', evs) ->
  In (EvExec stmt ok) evs ->
  exists role,
    role <> EmptyString /\
    stmt = setRoleStatement role /\
    (Resolve.bySession E cfg c role \/ Resolve.byToken E cfg c w role).
Proof.
  intros Hrun Hin.
  pose proof (protectedAPI_paths E cfg c w) as Hp.
  pose proof (authMiddleware_resolved c w) as Hr.
  destruct (authMiddleware E cfg c w) as [[[c'|r] w1] evs1].
  2:{ rewrite Hrun in Hp. injection Hp as -> -> ->.
      destruct Hr as (_ & [(-> & _)|(a & t & _ & ->)] & _); cbn in Hin.
      - destruct Hin.
      - destruct Hin as [Hin|[]]. discriminate. }
  destruct Hp as (_ & _ & Hp).
  destruct (handleFunctionCall E cfg c' w1) as [[resp2 w2] evs2] eqn:Hcall.
  rewrite Hrun in Hp. injection Hp as -> -> ->.
  destruct Hr as (_ & Hevs1 & Hnext).
  destruct (Hnext c' eq_refl) as (role & -> & Hres).
  assert (Hin2 : In (EvExec stmt ok) evs2).
  { apply in_app_or in Hin. destruct Hin as [Hin|Hin]; [|exact Hin].
    destruct Hevs1 as [(-> & _)|(a & t & _ & ->)]; cbn in Hin.
    - destruct Hin.
    - destruct Hin as [Hin|[]]. discriminate. }
  assert (Hb : evs2 <> []) by (intros ->; destruct Hin2).
  destruct (dispatch_traces E cfg _ w1 w2 resp2 evs2 Hcall Hb)
    as (req & params & _ & Hrole & _ & _ & Hcases).
  assert (Hget : GetString (Set_ c "db_role" (AString role)) "db_role" = role).
  { unfold GetString, Set_. cbn [Keys]. rewrite lookup_insert_eq. reflexivity. }
  rewrite Hget in Hrole, Hcases.
  exists role. split; [exact Hrole|]. split.
  - cbv zeta in Hcases.
    destruct Hcases as [(-> & _)|[(err & -> & _)|[(-> & _)|[(-> & _)|(row & -> & _)]]]];
      cbn in Hin2;
      repeat (destruct Hin2 as [Hin2|Hin2]; [try discriminate|]);
      try (injection Hin2 as <- _; reflexivity); try destruct Hin2.
  - destruct Hres as [(Hs & _)|(Ht & _)]; [left|right]; assumption.
Qed.

(** X15.  [handleLogin] leaves the shared data of the gateway alone: it
    asks the engine for no query and opens no transaction, leaves the
    committed state and the registry of pools as they were, and opens at
    most one handle, its own throwaway connection, which it probes at most
    once.  (What it writes to the log is outside the model.) *)
Theorem handleLogin_footprint (c : Context) (w : World Store Session) :
  let r := handleLogin E cfg c w in
  trace r = [] /\ committed (after r) = committed w /\ tx (after r) = tx w /\
  Database.dbConnections (pools (after r)) = Database.dbConnections (pools w) /\
  (Database.handles (pools w) <= Database.handles (pools (after r))
     <= S (Database.handles (pools w)))%nat /\
  (Database.clock (pools w) <= Database.clock (pools (after r))
     <= S (Database.clock (pools w)))%nat.
Proof.
  unfold handleLogin, after, trace.
  destruct (ShouldBindJSON_LoginRequest c) as [req|];
    [|cbn; repeat split; lia].
  unfold bind, Open, PingContext, ret, Database.Open, Database.Ping.
  destruct (Database.sql_Open (sqlenv E) _); [|cbn; repeat split; lia].
  cbn [with_pools pools Database.clock Database.handles].
  destruct (Database.sql_Ping (sqlenv E) _ _); cbn [negb];
    [|cbn; repeat split; lia].
  destruct (jwt_SignedString E _ _ _); cbn; repeat split; lia.
Qed.

(** X16.  A session token is handed out only after a connection has
    answered the probe: the body carried a login and a password, neither
    empty; the data source name of lines 133 and 134, with that login, that
    password and the database of the path pasted into it as they are, was
    accepted by [sql.Open], and the connection opened with it answered the
    probe; and the token is the signature, under the configured secret, of
    claims naming that login as the role and that database.  (The three
    values are not escaped, so the text alone does not say which user the
    driver connected as: see [loginConnStr_pastes_unescaped].) *)
Theorem login_token_requires_accepted_connection (c : Context)
    (w : World Store Session) (tokenString : string) :
  outcome (handleLogin E cfg c w) = JSON StatusOK (H [("token", tokenString)]) ->
  exists req,
    jsonLoginRequest c = Some req /\
    LoginRequest.Login req <> EmptyString /\
    LoginRequest.Password req <> EmptyString /\
    let dsn := loginConnStr cfg (LoginRequest.Login req) (LoginRequest.Password req)
                 (Param c "database") in
    Database.sql_Open (sqlenv E) dsn = true /\
    Database.sql_Ping (sqlenv E) (Database.clock (pools w))
      {| Database.db_id := Database.handles (pools w); Database.db_dsn := dsn |} = true /\
    jwt_SignedString E SigningMethodHS256
      (sessionClaims cfg (LoginRequest.Login req) (Param c "database") (time_Now E))
      (Config.JWTSecret cfg) = Some tokenString.
Proof.
  unfold handleLogin, ShouldBindJSON_LoginRequest, outcome.
  destruct (jsonLoginRequest c) as [req|]; [|discriminate].
  destruct (String.eqb_spec (LoginRequest.Login req) EmptyString) as [|Hlogin];
    [discriminate|].
  destruct (String.eqb_spec (LoginRequest.Password req) EmptyString) as [|Hpw];
    [discriminate|].
  cbn [orb]. unfold bind, Open, PingContext, ret, Database.Open, Database.Ping.
  destruct (Database.sql_Open (sqlenv E) _) eqn:Hopen; [|discriminate].
  cbn [with_pools pools Database.clock Database.handles].
  destruct (Database.sql_Ping (sqlenv E) _ _) eqn:Hping; cbn; [|discriminate].
  destruct (jwt_SignedString E _ _ _) as [tok|] eqn:Hsign; cbn; [|discriminate].
  intros [= ->]. exists req. repeat split; assumption.
Qed.

End Gateway.

(** Lines 133 and 134 paste the login and the password into the data
    source name unescaped: a login that carries a [password=] of its own
    gives the text of another login with another password, and a password
    that carries a [user=] names a second user in it. *)
Example loginConnStr_pastes_unescaped :
  Server.loginConnStr Demo.cfg "admin" "x user=demo password=pw" "shop"
  = Server.loginConnStr Demo.cfg "admin password=x user=demo" "pw" "shop"
  /\ Server.loginConnStr Demo.cfg "admin" "x user=demo password=pw" "shop"
     = "host=localhost port=5432 user=admin password=x user=demo password=pw"
       +:+ " dbname=shop sslmode=disable".
Proof. split; vm_compute; reflexivity. Qed.

(** X17.  Two different roles never yield the same role switch: the quoting
    of line 302 loses nothing, so the statement determines the role. *)
Theorem setRoleStatement_injective (role1 role2 : string) :
  role1 <> role2 ->
  Server.setRoleStatement role1 <> Server.setRoleStatement role2.
Proof.
  intros Hne Heq. apply Hne.
  apply (f_equal PgLex.parse_set_local_role) in Heq.
  rewrite !parse_setRoleStatement in Heq.
  destruct role1, role2; cbn in Heq; congruence.
Qed.

(** ** [config.Load] and the origins [Run] lets in *)

(** The library functions on the inputs that matter to [Load]. *)
Example Atoi_examples :
  Strconv.Atoi "5432" = Some 5432%Z /\ Strconv.Atoi "-12" = Some (-12)%Z /\
  Strconv.Atoi "+7" = Some 7%Z /\ Strconv.Atoi "007" = Some 7%Z /\
  Strconv.Atoi EmptyString = None /\ Strconv.Atoi "+" = None /\
  Strconv.Atoi "12a" = None /\ Strconv.Atoi " 12" = None /\
  Strconv.Atoi "9223372036854775807" = Some 9223372036854775807%Z /\
  Strconv.Atoi "9223372036854775808" = None /\
  Strconv.Atoi "-9223372036854775808" = Some (-9223372036854775808)%Z.
Proof. repeat split; vm_compute; reflexivity. Qed.

Example Split_TrimSpace_examples :
  GoStrings.Split "a,,b" "," = ["a"; EmptyString; "b"] /\
  GoStrings.Split EmptyString "," = [EmptyString] /\
  GoStrings.TrimSpace " https://a.example  " = "https://a.example" /\
  GoStrings.TrimSpace "a b" = "a b" /\
  GoStrings.TrimSpace "   " = EmptyString /\
  GoStrings.TrimSpace
    (String (GoStrings.byte 194) (String (GoStrings.byte 160) "x")) = "x" /\
  GoStrings.TrimSpace (String (GoStrings.byte 160) "x")
    = String (GoStrings.byte 160) "x".
Proof. repeat split; vm_compute; reflexivity. Qed.

(** [Load] on a small file system: no [ALLOWED_ORIGINS], a path that does
    not load, and a port that is zero. *)
Example Load_examples :
  (exists cfg,
     fst (fst (ConfigLoad.Load Cases.os EmptyString Cases.environAnyOrigin)) = inr cfg /\
     Config.AllowedOrigins cfg = ["*"]) /\
  fst (fst (ConfigLoad.Load Cases.os "/nowhere" Cases.environ))
    = inl (ConfigLoad.ErrConfigFile "/nowhere") /\
  fst (fst (ConfigLoad.Load Cases.os EmptyString (<["DB_PORT" := "0"]> Cases.environ)))
    = inl ConfigLoad.ErrMissingDatabase /\
  fst (fst (ConfigLoad.Load Cases.os EmptyString (<["DB_PORT" := "5432 "]> Cases.environ)))
    = inl (ConfigLoad.ErrDBPort "5432 ").
Proof.
  split; [eexists; split; vm_compute; reflexivity|].
  repeat split; vm_compute; reflexivity.
Qed.

Section Loading.

Import Config ConfigLoad.

Lemma listed_In (origin : string) (allowed : list string) :
  Cors.listed origin allowed = true <-> In origin allowed.
Proof.
  induction allowed as [|a l IH]; cbn [Cors.listed In].
  - split; [discriminate|tauto].
  - destruct (String.eqb_spec a origin) as [->|Hne].
    + split; auto.
    + rewrite IH. split; [auto|]. intros [H|H]; [contradiction|exact H].
Qed.

(** X18.  The CORS middleware lets an origin in exactly when the allowed
    origins are the single entry [*], or the origin is, byte for byte, one
    of the entries.  A [*] that is one entry among several is no wildcard:
    it admits only the origin spelled [*]. *)
Theorem AllowOriginFunc_iff (cfg : Config) (origin : string) :
  Cors.AllowOriginFunc cfg origin = true <->
  AllowedOrigins cfg = ["*"] \/ In origin (AllowedOrigins cfg).
Proof.
  unfold Cors.AllowOriginFunc.
  destruct (AllowedOrigins cfg) as [|a [|b l]] eqn:Hl.
  - cbn. split; [discriminate|]. intros [H|[]]. discriminate.
  - cbn [length Nat.eqb nth andb].
    destruct (String.eqb_spec a "*") as [->|Hne].
    + split; auto.
    + rewrite listed_In. split; [auto|]. intros [H|H]; [congruence|exact H].
  - cbn [length Nat.eqb nth andb]. rewrite listed_In.
    split; [auto|]. intros [H|H]; [discriminate|exact H].
Qed.

(** The loop over the pieces keeps, in order, the trimmed pieces that are
    not empty. *)
Lemma parseOrigins_filter (s : string) :
  parseOrigins s =
  List.filter (fun o => negb (String.eqb o EmptyString))
    (map GoStrings.TrimSpace (GoStrings.Split s ",")).
Proof.
  unfold parseOrigins.
  assert (H : forall l acc,
             fold_left
               (fun acc origin =>
                  let trimmedOrigin := GoStrings.TrimSpace origin in
                  if negb (String.eqb trimmedOrigin EmptyString)
                  then acc ++ [trimmedOrigin] else acc) l acc
             = acc ++ List.filter (fun o => negb (String.eqb o EmptyString))
                        (map GoStrings.TrimSpace l)).
  { induction l as [|o l IH]; intros acc; cbn [fold_left map List.filter].
    - rewrite app_nil_r. reflexivity.
    - rewrite IH. destruct (negb (String.eqb (GoStrings.TrimSpace o) EmptyString)).
      + rewrite <- app_assoc. reflexivity.
      + reflexivity. }
  apply (H _ []).
Qed.

(** The configuration [fromEnv] accepts. *)
Lemma fromEnv_ok (os : Os) (env : Environ) (cfg : Config) :
  fromEnv os env = inr cfg ->
  let entries := List.filter (fun o => negb (String.eqb o EmptyString))
                   (map GoStrings.TrimSpace
                      (GoStrings.Split (Getenv env "ALLOWED_ORIGINS") ",")) in
  DBHost cfg = Getenv env "DB_HOST" /\ DBHost cfg <> EmptyString /\
  DBUser cfg = Getenv env "DB_USER" /\ DBUser cfg <> EmptyString /\
  Strconv.Atoi (Getenv env "DB_PORT") = Some (DBPort cfg) /\ DBPort cfg <> 0%Z /\
  JWTSecret cfg = Getenv env "JWT_SECRET" /\ JWTSecret cfg <> EmptyString /\
  (if String.eqb (Getenv env "JWT_EXPIRY_HOURS") EmptyString
   then JWTExpiryHours cfg = 8%Z
   else Strconv.Atoi (Getenv env "JWT_EXPIRY_HOURS") = Some (JWTExpiryHours cfg)) /\
  HTTPPort cfg <> EmptyString /\ LogLevel cfg <> EmptyString /\
  LogOutput cfg <> EmptyString /\
  AllowedOrigins cfg = (match entries with [] => ["*"] | _ => entries end) /\
  (StaticFilesPath cfg = EmptyString \/ os_Stat os (StaticFilesPath cfg) = StatDir).
Proof.
  intros Hok entries. unfold fromEnv in Hok.
  destruct (String.eqb_spec (Getenv env "DB_PORT") EmptyString) as [Hp|Hp];
    cbn [negb] in Hok.
  { (* the port stays zero and the check of the required variables fails *)
    destruct (if negb (String.eqb (Getenv env "JWT_EXPIRY_HOURS") EmptyString)
              then Strconv.Atoi (Getenv env "JWT_EXPIRY_HOURS") else Some 8%Z);
      [|discriminate].
    destruct (if negb (String.eqb (Getenv env "STATIC_FILES_PATH") EmptyString)
              then _ else _); [discriminate|].
    rewrite Z.eqb_refl, !orb_true_r in Hok. discriminate. }
  destruct (Strconv.Atoi (Getenv env "DB_PORT")) as [dbPort|] eqn:Hport;
    [|discriminate].
  assert (Hhours :
            match (if negb (String.eqb (Getenv env "JWT_EXPIRY_HOURS") EmptyString)
                   then Strconv.Atoi (Getenv env "JWT_EXPIRY_HOURS") else Some 8%Z)
            with
            | Some h =>
                if String.eqb (Getenv env "JWT_EXPIRY_HOURS") EmptyString
                then h = 8%Z
                else Strconv.Atoi (Getenv env "JWT_EXPIRY_HOURS") = Some h
            | None => True
            end).
  { destruct (String.eqb (Getenv env "JWT_EXPIRY_HOURS") EmptyString); cbn [negb].
    - reflexivity.
    - destruct (Strconv.Atoi (Getenv env "JWT_EXPIRY_HOURS")); [reflexivity|exact I]. }
  destruct (if negb (String.eqb (Getenv env "JWT_EXPIRY_HOURS") EmptyString)
            then Strconv.Atoi (Getenv env "JWT_EXPIRY_HOURS") else Some 8%Z)
    as [hours|]; [|discriminate].
  assert (Hstatic :
            match (if negb (String.eqb (Getenv env "STATIC_FILES_PATH") EmptyString)
                   then
                     match filepath_Abs os (Getenv env "STATIC_FILES_PATH") with
                     | None => inl (ErrStaticAbs (Getenv env "STATIC_FILES_PATH"))
                     | Some absPath =>
                         match os_Stat os absPath with
                         | StatNotExist => inl (ErrStaticNotExist absPath)
                         | StatError => inl ErrStaticStat
                         | StatFile => inl (ErrStaticNotDir absPath)
                         | StatDir => inr absPath
                         end
                     end
                   else inr EmptyString) with
            | inr path => path = EmptyString \/ os_Stat os path = StatDir
            | inl _ => True
            end).
  { destruct (negb (String.eqb (Getenv env "STATIC_FILES_PATH") EmptyString));
      [|left; reflexivity].
    destruct (filepath_Abs os (Getenv env "STATIC_FILES_PATH")) as [absPath|];
      [|exact I].
    destruct (os_Stat os absPath) eqn:Hstat; try exact I. right; exact Hstat. }
  destruct (if negb (String.eqb (Getenv env "STATIC_FILES_PATH") EmptyString)
            then _ else _) as [err|staticFilesPath]; [discriminate|].
  destruct (String.eqb_spec (Getenv env "DB_HOST") EmptyString) as [|Hhost];
    [discriminate|].
  destruct (String.eqb_spec (Getenv env "DB_USER") EmptyString) as [|Huser];
    [discriminate|].
  destruct (Z.eqb_spec dbPort 0) as [|Hport0]; [discriminate|].
  cbn [orb] in Hok.
  destruct (String.eqb_spec (Getenv env "JWT_SECRET") EmptyString) as [|Hsecret];
    [discriminate|].
  injection Hok as <-. cbn [DBHost DBUser DBPort JWTSecret JWTExpiryHours HTTPPort
                             LogLevel LogOutput AllowedOrigins StaticFilesPath].
  repeat (split; [first [reflexivity|assumption]|]).
  split.
  { destruct (String.eqb_spec (Getenv env "HTTP_PORT") EmptyString);
      [discriminate|assumption]. }
  split.
  { destruct (String.eqb_spec (Getenv env "LOG_LEVEL") EmptyString);
      [discriminate|assumption]. }
  split.
  { destruct (String.eqb_spec (Getenv env "LOG_OUTPUT") EmptyString);
      [discriminate|assumption]. }
  split; [|exact Hstatic].
  destruct (String.eqb_spec (Getenv env "ALLOWED_ORIGINS") EmptyString) as [He|He];
    cbn [negb].
  - unfold entries. rewrite He. reflexivity.
  - rewrite parseOrigins_filter. fold entries.
    destruct entries; reflexivity.
Qed.

(** Whatever the path, a configuration comes from [fromEnv] on the
    environment [Load] leaves. *)
Lemma Load_fromEnv (os : Os) (configPath : string) (env env' : Environ)
    (r : LoadError + Config) (loadedFile : string) :
  Load os configPath env = (r, env', loadedFile) ->
  (r = inl (ErrConfigFile configPath) /\ configPath <> EmptyString /\
   godotenv_Load os configPath env = None /\ env' = env)
  \/ (r = fromEnv os env' /\
      (configPath <> EmptyString ->
       godotenv_Load os configPath env = Some env' /\ loadedFile = configPath)).
Proof.
  unfold Load.
  destruct (String.eqb_spec configPath EmptyString) as [->|Hne]; cbn [negb].
  - destruct (loadFirst os env (searchPaths os env)) as [f e'].
    intros [= <- <- <-]. right. split; [reflexivity|]. intros H; contradiction.
  - destruct (godotenv_Load os configPath env) as [e'|] eqn:Hl.
    + intros [= <- <- <-]. right. split; [reflexivity|]. intros _. split; reflexivity.
    + intros [= <- <- <-]. left. repeat split; assumption.
Qed.

(** X19.  A configuration that [Load] returns is complete: host, user and
    signing secret are not empty, the port is the integer [DB_PORT] spells
    and is not zero (there is no default port), the expiry is 8 hours when
    [JWT_EXPIRY_HOURS] is unset and otherwise the integer it spells, of
    either sign, HTTP port, log level and log output are not empty, there is
    at least one allowed origin and none is empty, and the static path, when
    set, is a directory that exists.  All of it is read from the environment
    as the configuration file left it. *)
Theorem Load_configuration_complete (os : Os) (configPath : string)
    (env env' : Environ) (cfg : Config) (loadedFile : string) :
  Load os configPath env = (inr cfg, env', loadedFile) ->
  DBHost cfg = Getenv env' "DB_HOST" /\ DBHost cfg <> EmptyString /\
  DBUser cfg = Getenv env' "DB_USER" /\ DBUser cfg <> EmptyString /\
  Strconv.Atoi (Getenv env' "DB_PORT") = Some (DBPort cfg) /\ DBPort cfg <> 0%Z /\
  JWTSecret cfg = Getenv env' "JWT_SECRET" /\ JWTSecret cfg <> EmptyString /\
  (if String.eqb (Getenv env' "JWT_EXPIRY_HOURS") EmptyString
   then JWTExpiryHours cfg = 8%Z
   else Strconv.Atoi (Getenv env' "JWT_EXPIRY_HOURS") = Some (JWTExpiryHours cfg)) /\
  HTTPPort cfg <> EmptyString /\ LogLevel cfg <> EmptyString /\
  LogOutput cfg <> EmptyString /\
  AllowedOrigins cfg <> [] /\ Forall (fun o => o <> EmptyString) (AllowedOrigins cfg) /\
  (StaticFilesPath cfg = EmptyString \/ os_Stat os (StaticFilesPath cfg) = StatDir).
Proof.
  intros Hload.
  destruct (Load_fromEnv _ _ _ _ _ _ Hload) as [(Hr & _)|(Hr & _)]; [discriminate|].
  symmetry in Hr. pose proof (fromEnv_ok os env' cfg Hr) as H. cbv zeta in H.
  destruct H as (H1 & H2 & H3 & H4 & H5 & H6 & H7 & H8 & H9 & H10 & H11 & H12 & HAO & H14).
  repeat (split; [assumption|]).
  split; [|split; [|exact H14]].
  - rewrite HAO. destruct (List.filter _ _); discriminate.
  - rewrite HAO.
    destruct (List.filter _ _) as [|o l] eqn:Hf.
    + repeat constructor. discriminate.
    + rewrite <- Hf. apply Forall_forall. intros x Hx.
      apply list_elem_of_In, filter_In in Hx as [_ Hx].
      destruct (String.eqb_spec x EmptyString); [discriminate|assumption].
Qed.

(** X20.  The origins the server lets in, read off [ALLOWED_ORIGINS]: take
    its comma-separated pieces, trim each, drop the empty ones.  If nothing
    is left (the variable is unset, or blank, or only commas) every origin
    is let in; if exactly [*] is left, likewise; otherwise an origin is let
    in exactly when it is one of the entries. *)
Theorem Load_origin_policy (os : Os) (configPath : string)
    (env env' : Environ) (cfg : Config) (loadedFile origin : string) :
  Load os configPath env = (inr cfg, env', loadedFile) ->
  let entries := List.filter (fun o => negb (String.eqb o EmptyString))
                   (map GoStrings.TrimSpace
                      (GoStrings.Split (Getenv env' "ALLOWED_ORIGINS") ",")) in
  Cors.AllowOriginFunc cfg origin = true <->
  entries = [] \/ entries = ["*"] \/ In origin entries.
Proof.
  intros Hload entries.
  destruct (Load_fromEnv _ _ _ _ _ _ Hload) as [(Hr & _)|(Hr & _)]; [discriminate|].
  symmetry in Hr. pose proof (fromEnv_ok os env' cfg Hr) as H. cbv zeta in H.
  destruct H as (_ & _ & _ & _ & _ & _ & _ & _ & _ & _ & _ & _ & HAO & _).
  fold entries in HAO.
  unfold Cors.AllowOriginFunc. rewrite HAO.
  destruct entries as [|a [|b l]].
  - cbn. split; auto.
  - cbn [length Nat.eqb nth andb].
    destruct (String.eqb_spec a "*") as [->|Hne].
    + split; auto.
    + rewrite listed_In. split; [auto|].
      intros [H|[H|H]]; [discriminate|congruence|exact H].
  - cbn [length Nat.eqb nth andb]. rewrite listed_In.
    split; [auto|]. intros [H|[H|H]]; [discriminate|discriminate|exact H].
Qed.

End Loading.

Lemma triple_eta {A B C : Type} (r : A * B * C) :
  r = (fst (fst r), snd (fst r), snd r).
Proof. destruct r as [[a b] c]. reflexivity. Qed.

(** A configuration file in the current directory and an environment that
    names two origins. *)
Lemma Load_configuration_complete_witness :
  let r := ConfigLoad.Load Cases.os EmptyString Cases.environ in
  let cfg := Cases.loadedConfig in
  r = (inr cfg, snd (fst r), "pgarachne.env") /\
  Config.DBHost cfg <> EmptyString /\ Config.DBPort cfg <> 0%Z /\
  Config.JWTSecret cfg <> EmptyString /\
  Config.AllowedOrigins cfg <> [] /\
  Forall (fun o => o <> EmptyString) (Config.AllowedOrigins cfg).
Proof.
  intros r cfg.
  assert (H1 : fst (fst r) = inr cfg) by (vm_compute; reflexivity).
  assert (H2 : snd r = "pgarachne.env") by (vm_compute; reflexivity).
  assert (Hload : r = (inr cfg, snd (fst r), "pgarachne.env")).
  { rewrite (triple_eta r) at 1. rewrite H1, H2. reflexivity. }
  pose proof (Load_configuration_complete Cases.os EmptyString Cases.environ
                (snd (fst r)) cfg "pgarachne.env" Hload) as H.
  split; [exact Hload|].
  repeat split; apply H.
Defined.

(** The same environment: the two origins named are let in, a third is
    not. *)
Lemma Load_origin_policy_witness :
  let r := ConfigLoad.Load Cases.os EmptyString Cases.environ in
  let cfg := Cases.loadedConfig in
  r = (inr cfg, snd (fst r), "pgarachne.env") /\
  Cors.AllowOriginFunc cfg "https://b.example" = true /\
  Cors.AllowOriginFunc cfg "https://c.example" = false.
Proof.
  intros r cfg.
  assert (H1 : fst (fst r) = inr cfg) by (vm_compute; reflexivity).
  assert (H2 : snd r = "pgarachne.env") by (vm_compute; reflexivity).
  assert (Hload : r = (inr cfg, snd (fst r), "pgarachne.env")).
  { rewrite (triple_eta r) at 1. rewrite H1, H2. reflexivity. }
  split; [exact Hload|].
  pose proof (fun origin =>
    Load_origin_policy Cases.os EmptyString Cases.environ
      (snd (fst r)) cfg "pgarachne.env" origin Hload) as H.
  cbv zeta in H.
  assert (He : List.filter (fun o => negb (String.eqb o EmptyString))
                 (map GoStrings.TrimSpace
                    (GoStrings.Split
                       (ConfigLoad.Getenv (snd (fst r)) "ALLOWED_ORIGINS") ","))
               = ["https://a.example"; "https://b.example"])
    by (vm_compute; reflexivity).
  rewrite He in H.
  split.
  - apply H. right; right. right; left; reflexivity.
  - destruct (Cors.AllowOriginFunc cfg "https://c.example") eqn:Hc; [|reflexivity].
    apply H in Hc.
    destruct Hc as [Hc|[Hc|[Hc|[Hc|[]]]]]; discriminate.
Defined.

(** ** The daemon and [main] *)

(** *** [strconv.Atoi] reads what [strconv.Itoa] writes *)

Lemma pretty_N_char_digit (d : N) :
  (d < 10)%N ->
  Strconv.is_digit (pretty_N_char d) = true /\
  Z.of_nat (Ascii.nat_of_ascii (pretty_N_char d) - 48) = Z.of_N d.
Proof.
  intros Hd.
  assert (Hall : forallb
                   (fun k => Strconv.is_digit (pretty_N_char (N.of_nat k)) &&
                             (Z.of_nat (Ascii.nat_of_ascii (pretty_N_char (N.of_nat k)) - 48)
                              =? Z.of_N (N.of_nat k))%Z)
                   (seq 0 10) = true) by reflexivity.
  rewrite forallb_forall in Hall.
  specialize (Hall (N.to_nat d)). rewrite N2Nat.id in Hall.
  destruct (andb_prop _ _ (Hall ltac:(apply in_seq; lia))) as [H1 H2].
  split; [exact H1|]. apply Z.eqb_eq. exact H2.
Qed.

Lemma digits_pretty_N_go (x : N) :
  forall s, Strconv.digits 0 (pretty_N_go x s) = Strconv.digits (Z.of_N x) s.
Proof.
  induction (N.lt_wf_0 x) as [x _ IH]. intros s.
  destruct (N.eq_dec x 0%N) as [->|Hx].
  - rewrite pretty_N_go_0. reflexivity.
  - rewrite pretty_N_go_step by lia.
    rewrite IH by (apply N.div_lt; lia).
    cbn [Strconv.digits].
    destruct (pretty_N_char_digit (x `mod` 10)%N) as [-> ->];
      [apply N.mod_lt; lia|].
    f_equal. rewrite (N.div_mod x 10) at 3 by lia. lia.
Qed.

Lemma pretty_N_go_first_digit (x : N) :
  forall s, (0 < x)%N ->
  exists c s', pretty_N_go x s = String c s' /\ Strconv.is_digit c = true.
Proof.
  induction (N.lt_wf_0 x) as [x _ IH]. intros s Hx.
  rewrite pretty_N_go_step by exact Hx.
  destruct (N.eq_dec (x `div` 10)%N 0%N) as [->|Hd].
  - rewrite pretty_N_go_0. eexists _, _. split; [reflexivity|].
    apply pretty_N_char_digit, N.mod_lt. lia.
  - apply IH; [apply N.div_lt; lia|].
    destruct (x `div` 10)%N; [congruence|lia].
Qed.

Lemma Atoi_Itoa (n : Z) :
  (- 2 ^ 63 <= n < 2 ^ 63)%Z -> Strconv.Atoi (Daemon.Itoa n) = Some n.
Proof.
  intros Hn. unfold Daemon.Itoa, pretty, pretty_Z.
  destruct n as [|p|p]; [reflexivity| |].
  - unfold pretty, pretty_positive, pretty, pretty_N.
    destruct (decide (N.pos p = 0%N)) as [|_]; [discriminate|].
    pose proof (digits_pretty_N_go (N.pos p) EmptyString) as Hd.
    destruct (pretty_N_go_first_digit (N.pos p) EmptyString) as (c & s' & Hs & Hc);
      [lia|].
    rewrite Hs in *. unfold Strconv.Atoi.
    destruct (Ascii.eqb_spec c "-"%char) as [->|_]; [discriminate|].
    destruct (Ascii.eqb_spec c "+"%char) as [->|_]; [discriminate|].
    rewrite Hd. cbn [Strconv.digits Z.of_N].
    destruct (Z.leb_spec (- 2 ^ 63) (Z.pos p)); [|lia].
    destruct (Z.ltb_spec (Z.pos p) (2 ^ 63)); [|lia].
    reflexivity.
  - unfold pretty, pretty_positive, pretty, pretty_N.
    destruct (decide (N.pos p = 0%N)) as [|_]; [discriminate|].
    pose proof (digits_pretty_N_go (N.pos p) EmptyString) as Hd.
    destruct (pretty_N_go_first_digit (N.pos p) EmptyString) as (c & s' & Hs & Hc);
      [lia|].
    change ("-" +:+ pretty_N_go (N.pos p) EmptyString)
      with (String "-"%char (pretty_N_go (N.pos p) EmptyString)).
    unfold Strconv.Atoi. cbn [Ascii.eqb Bool.eqb].
    rewrite Hs in *. rewrite Hd. cbn [Strconv.digits Z.of_N].
    change (- Z.pos p)%Z with (Z.neg p).
    destruct (Z.leb_spec (- 2 ^ 63) (Z.neg p)); [|lia].
    destruct (Z.ltb_spec (Z.neg p) (2 ^ 63)); [|lia].
    reflexivity.
Qed.

Section Process.

Import Daemon.

Variable sys : Sys.

(** The loop of [Start] keeps, in order, the arguments that are not the
    start flag. *)
Lemma childArgs_filter (rest : list string) :
  childArgs rest =
  List.filter (fun arg => negb (String.eqb arg "-start") &&
                          negb (String.eqb arg "--start")) rest.
Proof.
  unfold childArgs.
  assert (H : forall l acc,
             fold_left
               (fun args arg =>
                  if negb (String.eqb arg "-start") && negb (String.eqb arg "--start")
                  then args ++ [arg] else args) l acc
             = acc ++ List.filter (fun arg => negb (String.eqb arg "-start") &&
                                              negb (String.eqb arg "--start")) l).
  { induction l as [|a l IH]; intros acc; cbn [fold_left List.filter].
    - rewrite app_nil_r. reflexivity.
    - rewrite IH.
      destruct (negb (String.eqb a "-start") && negb (String.eqb a "--start")).
      + rewrite <- app_assoc. reflexivity.
      + reflexivity. }
  apply (H _ []).
Qed.

(** The flag spelled with a value is not the flag the loop looks for. *)
Example childArgs_examples :
  childArgs ["-start"; "-config"; "pgarachne.env"; "--start"]
    = ["-config"; "pgarachne.env"] /\
  childArgs ["-start=true"] = ["-start=true"].
Proof. split; reflexivity. Qed.

(** X21.  The child that [Start] launches gets the arguments of the parent
    without [-start] and [--start]: neither is ever passed on, so the child
    does not start a child of its own, and every other argument is passed,
    in the order and as many times as it was given. *)
Theorem childArgs_drops_start_flag (rest : list string) :
  ~ In "-start" (childArgs rest) /\ ~ In "--start" (childArgs rest) /\
  (forall arg, arg <> "-start" -> arg <> "--start" ->
     List.filter (String.eqb arg) (childArgs rest) = List.filter (String.eqb arg) rest) /\
  sublist (childArgs rest) rest.
Proof.
  rewrite childArgs_filter.
  split; [|split; [|split]].
  - intros H. apply filter_In in H as [_ H]. discriminate.
  - intros H. apply filter_In in H as [_ H]. discriminate.
  - intros arg H1 H2. induction rest as [|a l IH]; [reflexivity|].
    cbn [List.filter].
    destruct (String.eqb_spec a "-start") as [->|Ha1]; cbn [negb andb].
    { destruct (String.eqb_spec arg "-start"); [contradiction|exact IH]. }
    destruct (String.eqb_spec a "--start") as [->|Ha2]; cbn [negb andb].
    { destruct (String.eqb_spec arg "--start"); [contradiction|exact IH]. }
    cbn [List.filter]. destruct (String.eqb arg a); [f_equal|]; exact IH.
  - induction rest as [|a l IH]; [constructor|].
    cbn [List.filter].
    destruct (negb (String.eqb a "-start") && negb (String.eqb a "--start")).
    + apply sublist_skip. exact IH.
    + apply sublist_cons. exact IH.
Qed.

(** [isRunning] reads and probes; it changes nothing and spawns nothing. *)
Lemma isRunning_cases (w : World) :
  exists b evs,
    isRunning sys w = (Returned b, w, evs) /\
    (evs = [] \/ exists pid, evs = [EvSignal pid Signal0 b] /\
                             exists data, pidFile w = Present data /\
                                          Strconv.Atoi data = Some pid).
Proof.
  unfold isRunning, bind, ReadFile, ret, Signal_.
  destruct (pidFile w) as [data| |] eqn:Hf; cbn.
  - destruct (Strconv.Atoi data) as [pid|] eqn:Ha; cbn.
    + destruct (os_FindProcess sys pid); cbn.
      * eexists _, _. split; [reflexivity|]. right. exists pid.
        split; [reflexivity|]. exists data. split; [reflexivity|exact Ha].
      * eexists _, _. split; [reflexivity|]. left; reflexivity.
    + eexists _, _. split; [reflexivity|]. left; reflexivity.
  - eexists _, _. split; [reflexivity|]. left; reflexivity.
  - eexists _, _. split; [reflexivity|]. left; reflexivity.
Qed.

(** [Start], path by path. *)
Lemma Start_paths (w : World) :
  exists running evs0,
    isRunning sys w = (Returned running, w, evs0) /\
    (evs0 = [] \/ exists pid, evs0 = [EvSignal pid Signal0 running]) /\
    let name := arg0 sys in
    let cargs := childArgs (args sys) in
    (running = true /\
     Start sys w = (Exited 1, w, evs0 ++ [EvPrint MsgAlreadyRunning]))
    \/ (running = false /\ cmd_Start sys name cargs = None /\
        Start sys w = (Exited 1, w,
                       evs0 ++ [EvSpawn name cargs None; EvPrint MsgStartFailed]))
    \/ (exists pid,
          running = false /\ cmd_Start sys name cargs = Some pid /\
          os_WriteFile sys (Itoa pid) (pidFile w) = None /\
          Start sys w = (Exited 0,
                         {| pidFile := Present (Itoa pid); environ := environ w |},
                         evs0 ++ [EvSpawn name cargs (Some pid);
                                  EvWritePid (Itoa pid) true;
                                  EvPrint (MsgStarted pid)]))
    \/ (exists pid st,
          running = false /\ cmd_Start sys name cargs = Some pid /\
          os_WriteFile sys (Itoa pid) (pidFile w) = Some st /\
          Start sys w = (Exited 0, {| pidFile := st; environ := environ w |},
                         evs0 ++ [EvSpawn name cargs (Some pid);
                                  EvWritePid (Itoa pid) false;
                                  EvPrint (MsgStartedNoPidFile pid)])).
Proof.
  destruct (isRunning_cases w) as (running & evs0 & Hr & Hevs0).
  exists running, evs0. split; [exact Hr|].
  split.
  { destruct Hevs0 as [->|(pid & -> & _)]; [left; reflexivity|right; eexists; reflexivity]. }
  cbv zeta.
  remember (Start sys w) as r eqn:HS.
  unfold Start in HS. unfold bind at 1 in HS. rewrite Hr in HS.
  destruct running.
  - left. split; [reflexivity|]. exact HS.
  - right. unfold bind at 1 in HS. unfold cmdStart at 1 in HS.
    destruct (cmd_Start sys (arg0 sys) (childArgs (args sys))) as [pid|] eqn:Hs.
    + right. unfold bind at 1 in HS. unfold WriteFile at 1 in HS.
      destruct (os_WriteFile sys (Itoa pid) (pidFile w)) as [st|] eqn:Hw.
      * right. exists pid, st. repeat split; assumption.
      * left. exists pid. repeat split; assumption.
    + left. repeat split; assumption.
Qed.

(** [Stop], path by path. *)
Lemma Stop_paths (w : World) :
  let removed := match os_Remove sys (pidFile w) with None => true | Some _ => false end in
  let w' := {| pidFile := default Absent (os_Remove sys (pidFile w));
               environ := environ w |} in
  (pidFile w = Absent /\
   Stop sys w = (Exited 1, w, [EvPrint MsgNotRunning]))
  \/ (pidFile w = Unreadable /\
      Stop sys w = (Exited 1, w, [EvPrint MsgReadFailed]))
  \/ (exists data,
        pidFile w = Present data /\ Strconv.Atoi data = None /\
        Stop sys w = (Exited 1, w, [EvPrint MsgInvalidPid]))
  \/ (exists data pid,
        pidFile w = Present data /\ Strconv.Atoi data = Some pid /\
        ((os_FindProcess sys pid = false /\
          Stop sys w = (Exited 1, w', [EvPrint MsgFindFailed; EvRemovePid removed]))
         \/ (os_FindProcess sys pid = true /\
             process_Signal sys pid SIGTERM = false /\
             Stop sys w = (Exited 1, w, [EvSignal pid SIGTERM false;
                                         EvPrint (MsgStopFailed pid)]))
         \/ (os_FindProcess sys pid = true /\
             process_Signal sys pid SIGTERM = true /\
             Stop sys w =
             (Exited 0, w',
              [EvSignal pid SIGTERM true; EvSleep; EvRemovePid removed;
               EvPrint (if negb removed then MsgStoppedNotRemoved pid
                        else MsgStopped)])))).
Proof.
  cbv zeta.
  remember (Stop sys w) as r eqn:HS.
  unfold Stop, bind, ReadFile, ret, Signal_, Remove, Sleep, Println, Exit in HS.
  destruct (pidFile w) as [data| |] eqn:Hf; cbn in HS.
  - right; right.
    destruct (Strconv.Atoi data) as [pid|] eqn:Ha; cbn in HS.
    + right. exists data, pid. split; [reflexivity|]. split; [exact Ha|].
      destruct (os_FindProcess sys pid) eqn:Hfind; cbn in HS.
      * right. destruct (process_Signal sys pid SIGTERM) eqn:Hsig; cbn in HS.
        -- right. split; [reflexivity|]. split; [reflexivity|].
           rewrite Hf in HS.
           destruct (os_Remove sys (Present data)) as [st|] eqn:Hrm; cbn in HS;
             exact HS.
        -- left. repeat split; reflexivity || exact HS.
      * left. split; [reflexivity|]. rewrite Hf in HS.
        destruct (os_Remove sys (Present data)) as [st|]; cbn in HS; exact HS.
    + left. exists data. repeat split; first [reflexivity|assumption].
  - left. split; [reflexivity|exact HS].
  - right; left. split; [reflexivity|exact HS].
Qed.

(** X22.  [Start] never returns to its caller.  It launches at most one
    child, with the executable of the parent and the arguments of
    [childArgs], and none when the PID file names a process that answers
    signal 0; it exits with status 0 exactly when a child was launched,
    also when the PID file could not be written; and when it launches none
    it leaves the PID file as it was. *)
Theorem Start_launches_one_child (w : World) :
  let r := Start sys w in
  (exists code, outcome r = Exited code) /\
  (count is_spawn (trace r) <= 1)%nat /\
  (forall name cargs pid,
     In (EvSpawn name cargs pid) (trace r) ->
     name = arg0 sys /\ cargs = childArgs (args sys) /\
     pid = cmd_Start sys name cargs /\
     outcome (isRunning sys w) = Returned false) /\
  (outcome r = Exited 0 <->
   exists pid, In (EvSpawn (arg0 sys) (childArgs (args sys)) (Some pid)) (trace r)) /\
  (count is_spawn (trace r) = 0%nat -> after r = w).
Proof.
  intros r. subst r.
  destruct (Start_paths w) as (running & evs0 & Hr & Hevs0 & Hp). cbv zeta in Hp.
  assert (Hin0 : forall e, In e evs0 -> exists pid, e = EvSignal pid Signal0 running).
  { intros e He. destruct Hevs0 as [->|(pid & ->)]; [destruct He|].
    destruct He as [<-|[]]. eexists; reflexivity. }
  assert (Hc0 : List.filter is_spawn evs0 = []).
  { destruct Hevs0 as [->|(pid & ->)]; reflexivity. }
  unfold count, outcome, after, trace. rewrite Hr. cbn [fst snd].
  destruct Hp as [(-> & ->)|[(-> & Hs & ->)|[(pid & -> & Hs & Hw & ->)
                                            |(pid & st & -> & Hs & Hw & ->)]]];
    cbn [fst snd]; rewrite List.filter_app, Hc0; cbn [List.filter is_spawn app length].
  - split; [eexists; reflexivity|]. split; [lia|]. split; [|split].
    + intros name cargs pid Hin. apply in_app_or in Hin as [Hin|[Hin|[]]].
      * apply Hin0 in Hin as (? & Hin). discriminate.
      * discriminate.
    + split; [discriminate|]. intros (pid & Hin).
      apply in_app_or in Hin as [Hin|[Hin|[]]].
      * apply Hin0 in Hin as (? & Hin). discriminate.
      * discriminate.
    + reflexivity.
  - split; [eexists; reflexivity|]. split; [lia|]. split; [|split].
    + intros name cargs pid Hin. apply in_app_or in Hin as [Hin|[Hin|[Hin|[]]]].
      * apply Hin0 in Hin as (? & Hin). discriminate.
      * injection Hin as <- <- <-. rewrite Hs. repeat split; reflexivity.
      * discriminate.
    + split; [discriminate|]. intros (pid & Hin).
      apply in_app_or in Hin as [Hin|[Hin|[Hin|[]]]].
      * apply Hin0 in Hin as (? & Hin). discriminate.
      * discriminate.
      * discriminate.
    + discriminate.
  - split; [eexists; reflexivity|]. split; [lia|]. split; [|split].
    + intros name cargs pid' Hin. apply in_app_or in Hin as [Hin|[Hin|[Hin|[Hin|[]]]]].
      * apply Hin0 in Hin as (? & Hin). discriminate.
      * injection Hin as <- <- <-. rewrite Hs. repeat split; reflexivity.
      * discriminate.
      * discriminate.
    + split; [|reflexivity]. intros _. exists pid. apply in_or_app. right. left.
      reflexivity.
    + discriminate.
  - split; [eexists; reflexivity|]. split; [lia|]. split; [|split].
    + intros name cargs pid' Hin. apply in_app_or in Hin as [Hin|[Hin|[Hin|[Hin|[]]]]].
      * apply Hin0 in Hin as (? & Hin). discriminate.
      * injection Hin as <- <- <-. rewrite Hs. repeat split; reflexivity.
      * discriminate.
      * discriminate.
    + split; [|reflexivity]. intros _. exists pid. apply in_or_app. right. left.
      reflexivity.
    + discriminate.
Qed.

(** X23.  [Stop] never returns to its caller.  The only signal it sends is
    one SIGTERM, to the process whose number the PID file spells; it sends
    none when the file is missing, unreadable or not a number.  It exits
    with status 0 exactly when that signal was delivered, whether or not
    the process has ended and whether or not the PID file could be removed;
    and it removes the PID file only then, or when the process could not be
    found. *)
Theorem Stop_signals_recorded_process (w : World) :
  let r := Stop sys w in
  (exists code, outcome r = Exited code) /\
  (count is_sigterm (trace r) <= 1)%nat /\
  (forall pid sig ok,
     In (EvSignal pid sig ok) (trace r) ->
     sig = SIGTERM /\ ok = process_Signal sys pid SIGTERM /\
     exists data, pidFile w = Present data /\ Strconv.Atoi data = Some pid) /\
  (outcome r = Exited 0 <-> exists pid, In (EvSignal pid SIGTERM true) (trace r)) /\
  (forall removed,
     In (EvRemovePid removed) (trace r) ->
     (removed = true -> pidFile (after r) = Absent) /\
     (outcome r = Exited 0
      \/ exists data pid, pidFile w = Present data /\ Strconv.Atoi data = Some pid /\
                          os_FindProcess sys pid = false)) /\
  ((forall removed, ~ In (EvRemovePid removed) (trace r)) -> after r = w).
Proof.
  intros r. subst r. unfold count, outcome, after, trace.
  pose proof (Stop_paths w) as Hp. cbv zeta in Hp.
  destruct Hp
    as [(Hf & ->)|[(Hf & ->)|[(data & Hf & Ha & ->)|(data & pid & Hf & Ha & Hp)]]];
    cbn [fst snd List.filter is_sigterm length].
  1-3: (split; [eexists; reflexivity|]); (split; [lia|]);
       (split; [intros ? ? ? [Hin|[]]; discriminate|]);
       (split; [split; [discriminate|intros (? & [Hin|[]]); discriminate]|]);
       (split; [intros ? [Hin|[]]; discriminate|reflexivity]).
  destruct Hp as [(Hfind & ->)|[(Hfind & Hsig & ->)|(Hfind & Hsig & ->)]];
    cbn [fst snd List.filter is_sigterm length].
  - split; [eexists; reflexivity|]. split; [lia|].
    split; [intros ? ? ? [Hin|[Hin|[]]]; discriminate|].
    split; [split; [discriminate|intros (? & [Hin|[Hin|[]]]); discriminate]|].
    split.
    + intros removed' [Hin|[Hin|[]]]; [discriminate|]. injection Hin as <-.
      split.
      * destruct (os_Remove sys (pidFile w)); [discriminate|reflexivity].
      * right. exists data, pid. repeat split; assumption.
    + intros Hno. exfalso. eapply Hno. right; left; reflexivity.
  - split; [eexists; reflexivity|]. split; [lia|].
    split.
    { intros pid' sig ok [Hin|[Hin|[]]]; [|discriminate].
      injection Hin as <- <- <-. rewrite Hsig.
      split; [reflexivity|]. split; [reflexivity|]. exists data. split; assumption. }
    split; [split; [discriminate|intros (? & [Hin|[Hin|[]]]); discriminate]|].
    split; [intros ? [Hin|[Hin|[]]]; discriminate|reflexivity].
  - split; [eexists; reflexivity|]. split; [lia|].
    split.
    { intros pid' sig ok [Hin|[Hin|[Hin|[Hin|[]]]]]; try discriminate.
      injection Hin as <- <- <-. rewrite Hsig.
      split; [reflexivity|]. split; [reflexivity|]. exists data. split; assumption. }
    split.
    { split; [|reflexivity]. intros _. exists pid. left; reflexivity. }
    split.
    + intros removed' [Hin|[Hin|[Hin|[Hin|[]]]]]; try discriminate.
      injection Hin as <-. split; [|left; reflexivity].
      destruct (os_Remove sys (pidFile w)); [discriminate|reflexivity].
    + intros Hno. exfalso. eapply Hno. right; right; left; reflexivity.
Qed.

(** [Start] and [Stop] end the process. *)
Lemma Start_exits (w : World) : exists code, outcome (Start sys w) = Exited code.
Proof.
  destruct (Start_paths w) as (running & evs0 & _ & _ & Hp). cbv zeta in Hp.
  destruct Hp as [(_ & ->)|[(_ & _ & ->)|[(pid & _ & _ & _ & ->)
                                         |(pid & st & _ & _ & _ & ->)]]];
    eexists; reflexivity.
Qed.

Lemma Stop_exits (w : World) : exists code, outcome (Stop sys w) = Exited code.
Proof.
  pose proof (Stop_paths w) as Hp. cbv zeta in Hp.
  destruct Hp
    as [(_ & ->)|[(_ & ->)|[(data & _ & _ & ->)|(data & pid & _ & _ & Hp)]]];
    try (eexists; reflexivity).
  destruct Hp as [(_ & ->)|[(_ & _ & ->)|(_ & _ & ->)]]; eexists; reflexivity.
Qed.

Lemma bind_exits {A B : Type} (m : M A) (k : A -> M B) (w : World) (code : Z) :
  outcome (m w) = Exited code ->
  bind m k w = (Exited code, after (m w), trace (m w)).
Proof.
  unfold bind, outcome, after, trace.
  destruct (m w) as [[[a|c] w1] ev1]; cbn; [discriminate|].
  intros [= ->]. reflexivity.
Qed.

(** With a daemon flag, [main] is the daemon call. *)
Lemma main_daemon_flags_first_aux (flags : Flags) (w : World) :
  (stopDaemon flags = true -> main sys flags w = Stop sys w) /\
  (stopDaemon flags = false -> startDaemon flags = true ->
   main sys flags w = Start sys w).
Proof.
  split.
  - intros Hstop. unfold main. rewrite Hstop.
    destruct (Stop_exits w) as [code Hc].
    rewrite (bind_exits _ _ _ _ Hc).
    unfold outcome, after, trace in *.
    destruct (Stop sys w) as [[o w1] ev1]. cbn in *. subst o. reflexivity.
  - intros Hstop Hstart. unfold main. rewrite Hstop, Hstart.
    unfold bind at 1. unfold ret at 1.
    destruct (Start_exits w) as [code Hc].
    rewrite (bind_exits _ _ _ _ Hc).
    unfold outcome, after, trace in *.
    destruct (Start sys w) as [[o w1] ev1]. cbn in *. subst o. reflexivity.
Qed.

(** X25.  The daemon flags come first and end the process: with [-stop],
    [main] does what [Stop] does and nothing more, whatever the other flags
    (so [-stop -start] does not restart the server, and no configuration is
    read); without it and with [-start], [main] does what [Start] does and
    nothing more.  In both cases it exits and never runs the server. *)
Theorem main_daemon_flags_first (flags : Flags) (w : World) :
  (stopDaemon flags = true -> main sys flags w = Stop sys w) /\
  (stopDaemon flags = false -> startDaemon flags = true ->
   main sys flags w = Start sys w) /\
  (stopDaemon flags = true \/ startDaemon flags = true ->
   (exists code, outcome (main sys flags w) = Exited code) /\
   count is_run (trace (main sys flags w)) = 0%nat).
Proof.
  destruct (main_daemon_flags_first_aux flags w) as [H1 H2].
  split; [exact H1|]. split; [exact H2|].
  intros Hflag.
  assert (Hm : main sys flags w = Stop sys w \/ main sys flags w = Start sys w).
  { destruct (stopDaemon flags); [left; auto|].
    destruct Hflag as [Hf|Hf]; [discriminate|right; auto]. }
  destruct Hm as [-> | ->].
  - split; [apply Stop_exits|].
    pose proof (Stop_paths w) as Hp. cbv zeta in Hp.
    destruct Hp
      as [(_ & ->)|[(_ & ->)|[(data & _ & _ & ->)|(data & pid & _ & _ & Hp)]]];
      try reflexivity.
    destruct Hp as [(_ & ->)|[(_ & _ & ->)|(_ & _ & ->)]]; reflexivity.
  - split; [apply Start_exits|].
    destruct (Start_paths w) as (running & evs0 & _ & Hevs0 & Hp). cbv zeta in Hp.
    assert (Hc0 : List.filter is_run evs0 = []).
    { destruct Hevs0 as [->|(pid & ->)]; reflexivity. }
    destruct Hp as [(_ & ->)|[(_ & _ & ->)|[(pid & _ & _ & _ & ->)
                                           |(pid & st & _ & _ & _ & ->)]]];
      unfold count, trace; cbn [snd]; rewrite List.filter_app, Hc0; reflexivity.
Qed.

End Process.

Section StartThenStop.

Import Daemon.

(** The system as [Start] finds it, and as [Stop] finds it later. *)
Variables sys sys' : Sys.

(** X24.  [Stop] undoes [Start]: when [Start] has written the PID file, a
    later [Stop], whatever else the system answers then, sends its SIGTERM
    to the very child [Start] launched and to no other process; if the
    signal is delivered it exits with status 0, and the PID file is gone if
    it could be removed. *)
Theorem Stop_after_Start (w w1 : World) (evs : list Event) (pid : Z) :
  Start sys w = (Exited 0, w1, evs) ->
  In (EvWritePid (Itoa pid) true) evs ->
  (- 2 ^ 63 <= pid < 2 ^ 63)%Z ->
  os_FindProcess sys' pid = true ->
  let r := Stop sys' w1 in
  cmd_Start sys (arg0 sys) (childArgs (args sys)) = Some pid /\
  In (EvSignal pid SIGTERM (process_Signal sys' pid SIGTERM)) (trace r) /\
  (forall pid' sig ok, In (EvSignal pid' sig ok) (trace r) -> pid' = pid) /\
  (process_Signal sys' pid SIGTERM = true ->
   outcome r = Exited 0 /\
   (os_Remove sys' (Present (Itoa pid)) = None -> pidFile (after r) = Absent)).
Proof.
  intros Hstart Hin Hrange Hfind r.
  destruct (Start_paths sys w) as (running & evs0 & Hr & Hevs0 & Hp). cbv zeta in Hp.
  assert (Hin0 : ~ In (EvWritePid (Itoa pid) true) evs0).
  { destruct Hevs0 as [->|(p & ->)]; [intros []|intros [H|[]]; discriminate]. }
  rewrite Hstart in Hp.
  destruct Hp as [(_ & [=])|[(_ & _ & [=])|[(pid0 & _ & Hs & Hw & Hp)
                                           |(pid0 & st & _ & Hs & Hw & Hp)]]];
    injection Hp as -> ->.
  2:{ apply in_app_or in Hin as [Hin|[Hin|[Hin|[Hin|[]]]]];
        [contradiction|discriminate..]. }
  apply in_app_or in Hin as [Hin|[Hin|[Hin|[Hin|[]]]]];
    [contradiction|discriminate| |discriminate].
  injection Hin as Heq. apply (inj pretty) in Heq. subst pid0.
  split; [exact Hs|].
  subst r. unfold outcome, after, trace.
  pose proof (Stop_paths sys' {| pidFile := Present (Itoa pid); environ := environ w |})
    as Hp.
  cbv zeta in Hp. cbn [pidFile] in Hp.
  destruct Hp as [([=] & _)|[([=] & _)|[(data & [= <-] & Ha & _)
                                       |(data & pid' & [= <-] & Ha & Hp)]]].
  { rewrite Atoi_Itoa in Ha by exact Hrange. discriminate. }
  rewrite Atoi_Itoa in Ha by exact Hrange. injection Ha as <-.
  destruct Hp as [(Hf & _)|[(_ & Hsig & ->)|(_ & Hsig & ->)]];
    [congruence| |]; cbn [fst snd]; rewrite Hsig.
  - split; [left; reflexivity|]. split; [|discriminate].
    intros pid' sig ok [H|[H|[]]]; [|discriminate]. injection H as <- _ _. reflexivity.
  - split; [left; reflexivity|]. split.
    + intros pid' sig ok [H|[H|[H|[H|[]]]]]; try discriminate.
      injection H as <- _ _. reflexivity.
    + intros _. split; [reflexivity|]. intros ->. reflexivity.
Qed.

End StartThenStop.

Section Serving.

Import Config ConfigLoad Daemon.

Variable sys : Sys.

Lemma Start_never_runs (w : World) (cfg : Config) (ok : bool) :
  ~ In (EvRun cfg ok) (trace (Start sys w)).
Proof.
  destruct (Start_paths sys w) as (running & evs0 & _ & Hevs0 & Hp). cbv zeta in Hp.
  assert (Hin0 : ~ In (EvRun cfg ok) evs0).
  { destruct Hevs0 as [->|(p & ->)]; [intros []|intros [H|[]]; discriminate]. }
  intros Hin.
  destruct Hp as [(_ & Hp)|[(_ & _ & Hp)|[(pid & _ & _ & _ & Hp)
                                         |(pid & st & _ & _ & _ & Hp)]]];
    rewrite Hp in Hin; cbn [trace snd] in Hin;
    apply in_app_or in Hin as [Hin|Hin]; try contradiction;
    cbn in Hin; repeat (destruct Hin as [Hin|Hin]; [discriminate|]); destruct Hin.
Qed.

Lemma Stop_never_runs (w : World) (cfg : Config) (ok : bool) :
  ~ In (EvRun cfg ok) (trace (Stop sys w)).
Proof.
  pose proof (Stop_paths sys w) as Hp. cbv zeta in Hp. intros Hin.
  destruct Hp
    as [(_ & Hp)|[(_ & Hp)|[(data & _ & _ & Hp)|(data & pid & _ & _ & Hp)]]].
  4: destruct Hp as [(_ & Hp)|[(_ & _ & Hp)|(_ & _ & Hp)]].
  all: rewrite Hp in Hin; cbn in Hin;
       repeat (destruct Hin as [Hin|Hin]; [discriminate|]); destruct Hin.
Qed.

(** X26.  The server is run only with a complete configuration: [Run] is
    reached only when no daemon, help or version flag was given, with the
    configuration [Load] returned for the given path, whose host, user,
    port and signing secret are set, and, when logs go to a file, after
    that file was opened.  [main] then returns if [Run] returns without an
    error and exits with status 1 otherwise, and it has not touched the PID
    file. *)
Theorem server_runs_only_configured (flags : Flags) (w : World) (cfg : Config)
    (ok : bool) :
  In (EvRun cfg ok) (trace (main sys flags w)) ->
  stopDaemon flags = false /\ startDaemon flags = false /\
  showHelp flags = false /\ showVersion flags = false /\
  fst (fst (Load (fs sys) (configPath flags) (environ w))) = inr cfg /\
  DBHost cfg <> EmptyString /\ DBUser cfg <> EmptyString /\ DBPort cfg <> 0%Z /\
  JWTSecret cfg <> EmptyString /\ AllowedOrigins cfg <> [] /\
  (LogOutput cfg <> "stdout" -> os_OpenFile sys (LogOutput cfg) = true) /\
  ok = server_Run sys cfg /\
  outcome (main sys flags w) = (if ok then Returned tt else Exited 1) /\
  pidFile (after (main sys flags w)) = pidFile w.
Proof.
  intros Hin.
  destruct (stopDaemon flags) eqn:Hstop.
  { rewrite (proj1 (main_daemon_flags_first_aux sys flags w) Hstop) in Hin.
    destruct (Stop_never_runs _ _ _ Hin). }
  destruct (startDaemon flags) eqn:Hstart.
  { rewrite (proj2 (main_daemon_flags_first_aux sys flags w) Hstop Hstart) in Hin.
    destruct (Start_never_runs _ _ _ Hin). }
  remember (main sys flags w) as r eqn:Hr.
  unfold main in Hr. rewrite Hstop, Hstart in Hr.
  unfold bind at 1 in Hr. unfold ret at 1 in Hr.
  unfold bind at 1 in Hr. unfold ret at 1 in Hr. cbn [app] in Hr.
  destruct (showHelp flags) eqn:Hhelp.
  { subst r. cbn in Hin. destruct Hin as [Hin|[]]. discriminate. }
  destruct (showVersion flags) eqn:Hver.
  { subst r. cbn in Hin. destruct Hin as [Hin|[]]. discriminate. }
  unfold bind at 1 in Hr. unfold SetDefault at 1 in Hr.
  unfold bind at 1 in Hr. unfold LoadConfig at 1 in Hr. cbn [environ pidFile] in Hr.
  destruct (Load (fs sys) (configPath flags) (environ w)) as [[res env'] loaded] eqn:Hload.
  destruct res as [err|cfg0].
  { subst r. cbn in Hin. destruct err; cbn in Hin;
      repeat (destruct Hin as [Hin|Hin]; [discriminate|]); destruct Hin. }
  assert (Hcomplete : DBHost cfg0 <> EmptyString /\ DBUser cfg0 <> EmptyString /\
                      DBPort cfg0 <> 0%Z /\ JWTSecret cfg0 <> EmptyString /\
                      AllowedOrigins cfg0 <> []).
  { destruct (Load_fromEnv _ _ _ _ _ _ Hload) as [(Hx & _)|(Hx & _)]; [discriminate|].
    symmetry in Hx. pose proof (fromEnv_ok _ _ _ Hx) as H. cbv zeta in H.
    destruct H as (_ & H2 & _ & H4 & _ & H6 & _ & H8 & _ & _ & _ & _ & HAO & _).
    repeat (split; [assumption|]).
    rewrite HAO. destruct (List.filter _ _); discriminate. }
  destruct (String.eqb_spec (LogOutput cfg0) "stdout") as [Hout|Hout];
    cbn [negb] in Hr.
  - unfold bind at 1 in Hr. unfold ret at 1 in Hr. cbn [negb] in Hr.
    destruct Hcomplete as (H1 & H2 & H3 & H4 & H5).
    unfold Run in Hr.
    destruct (server_Run sys cfg0) eqn:Hrun; subst r; cbn in Hin; cbn;
      repeat (destruct Hin as [Hin|Hin]; [try discriminate|]);
      try contradiction;
      injection Hin as <- <-;
      repeat (split; [first [reflexivity|assumption]|]);
      (split; [intros Hne; contradiction|]);
      repeat split; first [reflexivity|symmetry; assumption].
  - unfold bind at 1 in Hr. unfold OpenFile at 1 in Hr.
    destruct (os_OpenFile sys (LogOutput cfg0)) eqn:Hopen; cbn [negb] in Hr.
    + destruct Hcomplete as (H1 & H2 & H3 & H4 & H5).
      unfold Run in Hr.
      destruct (server_Run sys cfg0) eqn:Hrun; subst r; cbn in Hin; cbn;
        repeat (destruct Hin as [Hin|Hin]; [try discriminate|]);
        try contradiction;
        injection Hin as <- <-;
        repeat (split; [first [reflexivity|assumption]|]);
        (split; [intros _; exact Hopen|]);
        repeat split; first [reflexivity|symmetry; assumption].
    + subst r. cbn in Hin.
      repeat (destruct Hin as [Hin|Hin]; [try discriminate|]);
        try contradiction.
Qed.

End Serving.

(** [-start] on a machine where the server is not running, then [-stop]. *)
Lemma Stop_after_Start_witness :
  let evs := [Daemon.EvSpawn "pgarachne" ["-config"; "pgarachne.env"] (Some 4242%Z);
              Daemon.EvWritePid "4242" true;
              Daemon.EvPrint (Daemon.MsgStarted 4242)] in
  let r := Daemon.Stop Cases.sys Cases.started in
  Daemon.Start Cases.sys Cases.idle = (Daemon.Exited 0, Cases.started, evs) /\
  Daemon.cmd_Start Cases.sys (Daemon.arg0 Cases.sys)
    (Daemon.childArgs (Daemon.args Cases.sys)) = Some 4242%Z /\
  In (Daemon.EvSignal 4242 Daemon.SIGTERM
        (Daemon.process_Signal Cases.sys 4242 Daemon.SIGTERM)) (Daemon.trace r) /\
  (forall pid' sig ok, In (Daemon.EvSignal pid' sig ok) (Daemon.trace r) ->
                       pid' = 4242%Z) /\
  (Daemon.process_Signal Cases.sys 4242 Daemon.SIGTERM = true ->
   Daemon.outcome r = Daemon.Exited 0 /\
   (Daemon.os_Remove Cases.sys (Daemon.Present (Daemon.Itoa 4242)) = None ->
    Daemon.pidFile (Daemon.after r) = Daemon.Absent)).
Proof.
  intros evs r.
  assert (Hstart : Daemon.Start Cases.sys Cases.idle
                   = (Daemon.Exited 0, Cases.started, evs))
    by (vm_compute; reflexivity).
  assert (Hin : In (Daemon.EvWritePid (Daemon.Itoa 4242) true) evs)
    by (vm_compute; right; left; reflexivity).
  assert (Hrange : (- 2 ^ 63 <= 4242 < 2 ^ 63)%Z) by lia.
  split; [exact Hstart|].
  exact (Stop_after_Start Cases.sys Cases.sys Cases.idle Cases.started evs 4242
           Hstart Hin Hrange eq_refl).
Defined.

(** [-stop -start] on a machine where the server runs: the server is
    stopped and not started again. *)
Lemma main_daemon_flags_first_witness :
  Daemon.stopDaemon Cases.restart = true /\
  Daemon.main Cases.sys Cases.restart Cases.started
    = Daemon.Stop Cases.sys Cases.started /\
  Daemon.count Daemon.is_spawn
    (Daemon.trace (Daemon.main Cases.sys Cases.restart Cases.started)) = 0%nat.
Proof.
  assert (Hstop : Daemon.stopDaemon Cases.restart = true) by reflexivity.
  split; [exact Hstop|].
  split.
  - exact (proj1 (main_daemon_flags_first Cases.sys Cases.restart Cases.started) Hstop).
  - vm_compute. reflexivity.
Defined.

(** No flag: the server runs with the configuration of the file. *)
Lemma server_runs_only_configured_witness :
  let r := Daemon.main Cases.sys Cases.serve Cases.idle in
  let cfg := Cases.loadedConfig in
  In (Daemon.EvRun cfg true) (Daemon.trace r) /\
  Config.DBHost cfg <> EmptyString /\ Config.JWTSecret cfg <> EmptyString /\
  Daemon.outcome r = Daemon.Returned tt /\
  Daemon.pidFile (Daemon.after r) = Daemon.pidFile Cases.idle.
Proof.
  intros r cfg.
  assert (Hin : In (Daemon.EvRun cfg true) (Daemon.trace r))
    by (vm_compute; do 4 right; left; reflexivity).
  pose proof (server_runs_only_configured Cases.sys Cases.serve Cases.idle cfg true
                Hin) as H.
  split; [exact Hin|]. repeat split; apply H.
Defined.

(** ** API tokens: [internal/auth] and [sql/schema.sql] *)

(** The digest of the repository's own test, [TestHashToken]. *)
Example HashToken_test_vector :
  Auth.HashToken "secret_token_value"
  = "dfdd08345db4042bb40647747c75482e5a7d89c43a5085eae255385dd0675669".
Proof. vm_compute. reflexivity. Qed.

Lemma Hex_digit_is_digit (n : Z) :
  (0 <= n < 16)%Z -> Hex.is_digit (Hex.digit n) = true.
Proof.
  intros Hn.
  assert (Hall : forallb (fun k => Hex.is_digit (Hex.digit (Z.of_nat k))) (seq 0 16)
                 = true) by reflexivity.
  rewrite forallb_forall in Hall.
  rewrite <- (Z2Nat.id n) by lia. apply Hall. apply in_seq. lia.
Qed.

Lemma EncodeToString_format (src : list Z) :
  Forall (fun b => (0 <= b < 256)%Z) src ->
  String.length (Hex.EncodeToString src) = (2 * length src)%nat /\
  Forall (fun c => Hex.is_digit c = true)
    (list_ascii_of_string (Hex.EncodeToString src)).
Proof.
  induction 1 as [|b l Hb _ [IHlen IHall]]; [split; [reflexivity|constructor]|].
  cbn [Hex.EncodeToString String.length list_ascii_of_string length].
  split; [rewrite IHlen; lia|].
  constructor; [|constructor; [|exact IHall]].
  - apply Hex_digit_is_digit. rewrite Z.shiftr_div_pow2 by lia.
    change (2 ^ 4)%Z with 16%Z. split.
    + apply Z.div_pos; lia.
    + apply Z.div_lt_upper_bound; lia.
  - apply Hex_digit_is_digit. change 15%Z with (Z.ones 4).
    rewrite Z.land_ones by lia. apply Z.mod_pos_bound. lia.
Qed.

Lemma Sum256_bytes (data : list Z) :
  length (Sha256.Sum256 data) = 32%nat /\
  Forall (fun b => (0 <= b < 256)%Z) (Sha256.Sum256 data).
Proof.
  unfold Sha256.Sum256, Sha256.word_bytes.
  split; [reflexivity|].
  repeat (apply Forall_cons; split; [apply Z.mod_pos_bound; lia|]).
  constructor.
Qed.

(** X27.  Whatever the token, [HashToken] returns 64 characters, each a
    digit or a letter from [a] to [f]. *)
Theorem HashToken_format (token : string) :
  String.length (Auth.HashToken token) = 64%nat /\
  Forall (fun c => Hex.is_digit c = true)
    (list_ascii_of_string (Auth.HashToken token)).
Proof.
  destruct (Sum256_bytes (Auth.bytes token)) as [Hlen Hall].
  destruct (EncodeToString_format _ Hall) as [H1 H2].
  unfold Auth.HashToken. rewrite H1, Hlen.
  split; [reflexivity|exact H2].
Qed.

Section Tokens.

Import Schema.

(** [add_api_token], outcome by outcome. *)
Lemma add_api_token_cases (now : Z) (random : list Z)
    (token_description target_role : option string) (token_valid_to : option Z)
    (t : gmap string ApiToken) :
  let raw := Hex.EncodeToString random in
  let r := add_api_token now random token_description target_role token_valid_to t in
  (exists err, r = (inl err, t))
  \/ (exists r0,
        target_role = Some r0 /\
        in_force token_valid_to now = true /\
        t !! digest_hex raw = None /\
        r = (inr raw,
             <[digest_hex raw :=
                 {| role := r0; description := token_description;
                    created_at := now; updated_at := now;
                    valid_to := token_valid_to |}]> t)).
Proof.
  cbv zeta. unfold add_api_token, in_force.
  destruct token_valid_to as [v|].
  - destruct (Z.leb_spec v now) as [Hle|Hlt]; [left; eexists; reflexivity|].
    destruct target_role as [r0|]; [|left; eexists; reflexivity].
    destruct (negb (checks _)); [left; eexists; reflexivity|].
    destruct (t !! digest_hex (Hex.EncodeToString random)) eqn:Hk;
      [left; eexists; reflexivity|].
    right. exists r0. repeat split; try reflexivity; try assumption.
    apply Z.ltb_lt. exact Hlt.
  - destruct target_role as [r0|]; [|left; eexists; reflexivity].
    destruct (negb (checks _)); [left; eexists; reflexivity|].
    destruct (t !! digest_hex (Hex.EncodeToString random)) eqn:Hk;
      [left; eexists; reflexivity|].
    right. exists r0. repeat split; try reflexivity; assumption.
Qed.

(** X28.  A token that [add_api_token] has issued is verified as its role
    until it expires and as nothing afterwards: [verify_api_token], given
    the raw token that was returned, gives the role it was issued for at
    every time before [valid_to], or at every time when there is none, and
    NULL from [valid_to] on. *)
Theorem issued_token_verifies_until_expiry (now now' : Z) (random : list Z)
    (token_description : option string) (target_role : string)
    (token_valid_to : option Z) (t t' : gmap string ApiToken) (raw : string) :
  add_api_token now random token_description (Some target_role) token_valid_to t
    = (inr raw, t') ->
  verify_api_token now' raw t'
  = (if in_force token_valid_to now' then Some target_role else None).
Proof.
  intros Hadd.
  pose proof (add_api_token_cases now random token_description (Some target_role)
                token_valid_to t) as Hc.
  cbv zeta in Hc. rewrite Hadd in Hc.
  destruct Hc as [(err & [=])|(r0 & [= <-] & _ & _ & [= -> ->])].
  unfold verify_api_token. rewrite lookup_insert_eq. cbn [valid_to role].
  unfold in_force. reflexivity.
Qed.

(** X29.  [add_api_token] only ever adds: an error leaves the table as it
    was; a success adds one row under a key that was free, so no token in
    the table is replaced or removed and every other token verifies as
    before; and the row added satisfies the table's CHECK constraints, so
    only a [valid_to] that is not in the future, a NULL role or a key
    already taken make it fail. *)
Theorem add_api_token_only_adds (now : Z) (random : list Z)
    (token_description target_role : option string) (token_valid_to : option Z)
    (t : gmap string ApiToken) :
  let raw := Hex.EncodeToString random in
  let r := add_api_token now random token_description target_role token_valid_to t in
  (forall h row, t !! h = Some row -> snd r !! h = Some row) /\
  (forall now' tok, digest_hex tok <> digest_hex raw ->
     verify_api_token now' tok (snd r) = verify_api_token now' tok t) /\
  (forall err, fst r = inl err ->
     snd r = t /\
     (err = ValidToNotInFuture /\ in_force token_valid_to now = false
      \/ err = NotNullViolation /\ target_role = None
      \/ err = UniqueViolation /\ is_Some (t !! digest_hex raw))) /\
  (map_Forall (fun _ row => checks row = true) t ->
   map_Forall (fun _ row => checks row = true) (snd r)).
Proof.
  cbv zeta. unfold add_api_token.
  assert (Hin : (if match token_valid_to with
                     | Some v => (v <=? now)%Z | None => false end
                 then in_force token_valid_to now = false
                 else in_force token_valid_to now = true)).
  { unfold in_force. destruct token_valid_to as [v|]; [|reflexivity].
    destruct (Z.leb_spec v now), (Z.ltb_spec now v); try reflexivity; lia. }
  destruct (match token_valid_to with Some v => (v <=? now)%Z | None => false end)
    eqn:Hpast.
  { cbn [fst snd]. split; [auto|]. split; [auto|]. split; [|auto].
    intros err [= <-]. split; [reflexivity|]. left. split; [reflexivity|exact Hin]. }
  destruct target_role as [r0|].
  2:{ cbn [fst snd]. split; [auto|]. split; [auto|]. split; [|auto].
      intros err [= <-]. split; [reflexivity|]. right; left. split; reflexivity. }
  assert (Hchk : checks {| role := r0; description := token_description;
                           created_at := now; updated_at := now;
                           valid_to := token_valid_to |} = true).
  { unfold checks. cbn [created_at updated_at valid_to].
    rewrite Z.leb_refl. cbn [andb].
    destruct token_valid_to as [v|]; [|reflexivity].
    apply Z.leb_le. apply Z.leb_gt in Hpast. lia. }
  rewrite Hchk. cbn [negb].
  destruct (t !! digest_hex (Hex.EncodeToString random)) as [old|] eqn:Hk.
  { cbn [fst snd]. split; [auto|]. split; [auto|]. split; [|auto].
    intros err [= <-]. split; [reflexivity|]. right; right.
    split; [reflexivity|]. eexists; reflexivity. }
  cbn [fst snd]. split; [|split; [|split]].
  - intros h row Hrow. rewrite lookup_insert_ne; [exact Hrow|]. congruence.
  - intros now' tok Hne. unfold verify_api_token.
    rewrite lookup_insert_ne by congruence. reflexivity.
  - intros err [=].
  - intros Hall. apply map_Forall_insert_2; assumption.
Qed.

End Tokens.

Section IssuedToken.

Import Server Schema.

Context {Session : Type}.
Variable E : Env (gmap string ApiToken) Session.
Variable cfg : Config.Config.

(** X30.  A token issued by [add_api_token] opens the protected route as
    its role.  On an engine where the schema is installed, a request whose
    header carries the raw token as its second part, for a database whose
    pool is available, passes [authMiddleware] with [db_role] set to the
    role the token was issued for, as long as the token is in force and is
    not taken for a session credential; the one thing asked of the engine
    is the verification, and the table is as it was. *)
Theorem issued_token_authenticates (now0 now : Z) (random : list Z)
    (token_description : option string) (target_role : string)
    (token_valid_to : option Z) (t t' : gmap string ApiToken) (raw : string)
    (c : Context) (w : World (gmap string ApiToken) Session) (authType : string)
    (db : Database.DB) :
  add_api_token now0 random token_description (Some target_role) token_valid_to t
    = (inr raw, t') ->
  committed w = t' ->
  installed E now ->
  in_force token_valid_to now = true ->
  Strings.SplitN (GetHeader c "Authorization") " " 2 = [authType; raw] ->
  tryJWT E cfg c authType raw = None ->
  fst (Database.GetConnection (sqlenv E) cfg (Param c "database") (pools w))
    = Some db ->
  let r := authMiddleware E cfg c w in
  outcome r = Next (Set_ c "db_role" (AString target_role)) /\
  trace r = [EvQueryRow verifyQuery raw] /\
  committed (after r) = t'.
Proof.
  intros Hadd Hw Hinst Hforce Hsplit Hjwt Hpool r. subst r.
  assert (Hv : verify_api_token now raw t' = Some target_role).
  { pose proof (add_api_token_cases now0 random token_description
                  (Some target_role) token_valid_to t) as Hc.
    cbv zeta in Hc. rewrite Hadd in Hc.
    destruct Hc as [(err & [=])|(r0 & [= <-] & _ & _ & [= -> ->])].
    unfold verify_api_token. rewrite lookup_insert_eq. cbn [valid_to role].
    unfold in_force in Hforce. rewrite Hforce. reflexivity. }
  destruct (Database.GetConnection (sqlenv E) cfg (Param c "database") (pools w))
    as [got p] eqn:Hgot.
  cbn [fst] in Hpool. subst got.
  remember (authMiddleware E cfg c w) as r eqn:Hr.
  unfold authMiddleware in Hr.
  destruct (String.eqb_spec (GetHeader c "Authorization") EmptyString) as [He|_].
  { rewrite He in Hsplit. discriminate. }
  rewrite Hsplit, Hjwt in Hr.
  unfold bind at 1 in Hr. unfold GetConnection at 1 in Hr. rewrite Hgot in Hr.
  unfold bind, QueryRowNullString, with_pools in Hr. cbn [pools committed tx] in Hr.
  rewrite Hw, Hinst, Hv in Hr. cbn in Hr.
  subst r. repeat split; reflexivity.
Qed.

End IssuedToken.

(** A token issued at time 100 until time 1000, verified at time 200. *)
Lemma issued_token_verifies_until_expiry_witness :
  Schema.add_api_token 100 Cases.random (Some "ci") (Some "demo") (Some 1000%Z) ∅
    = (inr Cases.rawToken, Cases.issued) /\
  Schema.verify_api_token 200 Cases.rawToken Cases.issued = Some "demo" /\
  Schema.verify_api_token 1000 Cases.rawToken Cases.issued = None.
Proof.
  assert (H1 : fst (Schema.add_api_token 100 Cases.random (Some "ci") (Some "demo")
                      (Some 1000%Z) ∅) = inr Cases.rawToken)
    by (vm_compute; reflexivity).
  assert (Hadd : Schema.add_api_token 100 Cases.random (Some "ci") (Some "demo")
                   (Some 1000%Z) ∅ = (inr Cases.rawToken, Cases.issued)).
  { rewrite <- H1. apply surjective_pairing. }
  split; [exact Hadd|]. split.
  - exact (issued_token_verifies_until_expiry 100 200 Cases.random (Some "ci")
             "demo" (Some 1000%Z) ∅ Cases.issued Cases.rawToken Hadd).
  - exact (issued_token_verifies_until_expiry 100 1000 Cases.random (Some "ci")
             "demo" (Some 1000%Z) ∅ Cases.issued Cases.rawToken Hadd).
Defined.

(** The same token on the protected route. *)
Lemma issued_token_authenticates_witness :
  let r := Server.authMiddleware Cases.tokenEnv Demo.cfg Cases.tokenCall
             Cases.tokenWorld in
  Schema.installed Cases.tokenEnv 200 /\
  Server.outcome r
    = Server.Next (Server.Set_ Cases.tokenCall "db_role" (Server.AString "demo")) /\
  Server.trace r = [Server.EvQueryRow Server.verifyQuery Cases.rawToken] /\
  Server.committed (Server.after r) = Cases.issued.
Proof.
  intros r.
  assert (H1 : fst (Schema.add_api_token 100 Cases.random (Some "ci") (Some "demo")
                      (Some 1000%Z) ∅) = inr Cases.rawToken)
    by (vm_compute; reflexivity).
  assert (Hadd : Schema.add_api_token 100 Cases.random (Some "ci") (Some "demo")
                   (Some 1000%Z) ∅ = (inr Cases.rawToken, Cases.issued)).
  { rewrite <- H1. apply surjective_pairing. }
  assert (Hinst : Schema.installed Cases.tokenEnv 200).
  { intros arg t. reflexivity. }
  assert (Hsplit : Strings.SplitN (Server.GetHeader Cases.tokenCall "Authorization")
                     " " 2 = ["Bearer"; Cases.rawToken])
    by (vm_compute; reflexivity).
  split; [exact Hinst|].
  exact (issued_token_authenticates Cases.tokenEnv Demo.cfg 100 200 Cases.random
           (Some "ci") "demo" (Some 1000%Z) ∅ Cases.issued Cases.rawToken
           Cases.tokenCall Cases.tokenWorld "Bearer"
           {| Database.db_id := 0;
              Database.db_dsn := Database.connStr Demo.cfg "shop" |}
           Hadd eq_refl Hinst eq_refl Hsplit eq_refl eq_refl).
Defined.

(** ** Further runs on the small engine *)

(** A first call for a database without a pool, on an engine that is up. *)
Lemma GetConnection_returns_registered_probed_witness :
  let e := sqlenv (Demo.env true true true) in
  let db := {| Database.db_id := 0; Database.db_dsn := Database.connStr Demo.cfg "shop" |} in
  let p' := snd (Database.GetConnection e Demo.cfg "shop" Demo.noPools) in
  fst (Database.GetConnection e Demo.cfg "shop" Demo.noPools) = Some db /\
  Database.dbConnections p' !! "shop" = Some db /\
  exists n, (Database.clock Demo.noPools <= n < Database.clock p')%nat /\
            Database.sql_Ping e n db = true.
Proof.
  intros e db p'.
  assert (Hr : fst (Database.GetConnection e Demo.cfg "shop" Demo.noPools) = Some db)
    by (vm_compute; reflexivity).
  split; [exact Hr|].
  exact (GetConnection_returns_registered_probed e Demo.cfg "shop" Demo.noPools db Hr).
Defined.

(** The same call on an engine that is down. *)
Lemma GetConnection_error_keeps_registry_witness :
  let e := sqlenv (Demo.env false true true) in
  let p' := snd (Database.GetConnection e Demo.cfg "shop" Demo.noPools) in
  fst (Database.GetConnection e Demo.cfg "shop" Demo.noPools) = None /\
  Database.dbConnections p' = Database.dbConnections Demo.noPools /\
  Database.created "shop" p' = S (Database.created "shop" Demo.noPools).
Proof.
  intros e p'.
  assert (Hr : fst (Database.GetConnection e Demo.cfg "shop" Demo.noPools) = None)
    by (vm_compute; reflexivity).
  split; [exact Hr|].
  exact (GetConnection_error_keeps_registry e Demo.cfg "shop" Demo.noPools Hr).
Defined.

(** Two calls in a row for the same database. *)
Lemma GetConnection_reuses_pool_witness :
  let e := sqlenv (Demo.env true true true) in
  let db := {| Database.db_id := 0; Database.db_dsn := Database.connStr Demo.cfg "shop" |} in
  let p1 := snd (Database.GetConnection e Demo.cfg "shop" Demo.noPools) in
  Database.GetConnection e Demo.cfg "shop" p1 =
  (Some db, {| Database.dbConnections := Database.dbConnections p1;
               Database.clock := S (Database.clock p1);
               Database.handles := Database.handles p1;
               Database.slog := Database.slog p1 |}).
Proof.
  intros e db p1.
  exact (GetConnection_reuses_pool e Demo.cfg "shop" Demo.noPools db eq_refl eq_refl).
Defined.

(** Two callers for one database; the first has taken the write lock. *)
Lemma write_lock_exclusive_witness :
  let e := sqlenv (Demo.env true true true) in
  let s := Database.run e Demo.cfg [0; 0; 0; 0; 0; 1]%nat
             (Database.start Demo.noPools ["shop"; "shop"]) in
  let ti := {| Database.t_dbName := "shop"; Database.t_pc := Database.PcRecheck |} in
  let tj := {| Database.t_dbName := "shop"; Database.t_pc := Database.PcStart |} in
  Database.threads s !! 0%nat = Some ti /\ Database.threads s !! 1%nat = Some tj /\
  Database.holds_lock ti = true /\
  Database.holds_lock tj = false /\ Database.holds_rlock tj = false.
Proof.
  intros e s ti tj.
  assert (Hi : Database.threads s !! 0%nat = Some ti) by (vm_compute; reflexivity).
  assert (Hj : Database.threads s !! 1%nat = Some tj) by (vm_compute; reflexivity).
  assert (Hne : 0%nat <> 1%nat) by lia.
  split; [exact Hi|]. split; [exact Hj|]. split; [reflexivity|].
  exact (write_lock_exclusive e Demo.cfg Demo.noPools ["shop"; "shop"] s 0 1 ti tj
           (run_reachable _ _ _ _) Hi Hj Hne eq_refl).
Defined.

(** The same two callers: the second is blocked, the first can go on. *)
Lemma no_deadlock_witness :
  let e := sqlenv (Demo.env true true true) in
  let s := Database.run e Demo.cfg [0; 0; 0; 0; 0; 1]%nat
             (Database.start Demo.noPools ["shop"; "shop"]) in
  let tj := {| Database.t_dbName := "shop"; Database.t_pc := Database.PcStart |} in
  Database.thread_step e Demo.cfg (Database.shared s) tj = None /\
  In tj (Database.threads s) /\ Database.returned tj = None /\
  exists s', Database.step e Demo.cfg s s'.
Proof.
  intros e s tj.
  assert (Hin : In tj (Database.threads s)) by (vm_compute; right; left; reflexivity).
  split; [vm_compute; reflexivity|]. split; [exact Hin|]. split; [reflexivity|].
  exact (no_deadlock e Demo.cfg Demo.noPools ["shop"; "shop"] s tj
           (run_reachable _ _ _ _) Hin eq_refl).
Defined.

(** One statement of one caller. *)
Lemma run_length_bounded_witness :
  let e := sqlenv (Demo.env true true true) in
  let s := Database.sched_step e Demo.cfg 0 (Database.start Demo.noPools ["shop"]) in
  nsteps (Database.step e Demo.cfg) 1 (Database.start Demo.noPools ["shop"]) s /\
  (1 + Invariants.total_rank (Database.threads s) <= 11 * length ["shop"])%nat.
Proof.
  intros e s.
  assert (Hrun : nsteps (Database.step e Demo.cfg) 1
                   (Database.start Demo.noPools ["shop"]) s).
  { eapply nsteps_l; [|apply nsteps_O].
    pose (t0 := {| Database.t_dbName := "shop"; Database.t_pc := Database.PcStart |}).
    exact (Database.step_thread e Demo.cfg
             (Database.shared (Database.start Demo.noPools ["shop"])) [t0] 0 t0
             _ _ eq_refl eq_refl). }
  split; [exact Hrun|].
  exact (run_length_bounded e Demo.cfg Demo.noPools ["shop"] s 1 Hrun).
Defined.

(** Three callers taking turns, from an empty registry. *)
Lemma pools_opened_for_their_name_witness :
  let e := sqlenv (Demo.env true true true) in
  let s := Database.run e Demo.cfg Demo.roundRobin
             (Database.start Demo.noPools Demo.callers) in
  Invariants.well_named Demo.cfg (Database.dbConnections Demo.noPools) /\
  Invariants.well_named Demo.cfg
    (Database.dbConnections (Database.pools (Database.shared s))) /\
  (forall t db, In t (Database.threads s) ->
                Database.returned t = Some (Some db) ->
                Database.db_dsn db = Database.connStr Demo.cfg (Database.t_dbName t)) /\
  (forall t1 t2 db1 db2,
     In t1 (Database.threads s) -> In t2 (Database.threads s) ->
     Database.returned t1 = Some (Some db1) ->
     Database.returned t2 = Some (Some db2) ->
     Database.t_dbName t1 <> Database.t_dbName t2 -> db1 <> db2).
Proof.
  intros e s.
  assert (H0 : Invariants.well_named Demo.cfg (Database.dbConnections Demo.noPools)).
  { intros d db Hd. vm_compute in Hd. discriminate. }
  split; [exact H0|].
  exact (pools_opened_for_their_name e Demo.cfg Demo.noPools Demo.callers s H0
           (run_reachable _ _ _ _)).
Defined.

(** Two callers for [shop] while its pool recovers: the first is returned
    the pool it looked up before the second replaced it, and that pool is
    no longer the registered one. *)
Example late_probe_returns_replaced_pool :
  let s := Database.run Demo.recovering Demo.cfg Demo.lateProbe
             (Database.start Demo.onePool ["shop"; "shop"]) in
  Database.reachable Demo.recovering Demo.cfg
    (Database.start Demo.onePool ["shop"; "shop"]) s /\
  Database.all_returned s /\
  exists stale fresh,
    map Database.returned (Database.threads s)
      = [Some (Some stale); Some (Some fresh)] /\
    Database.dbConnections (Database.pools (Database.shared s)) !! "shop"
      = Some fresh /\
    stale <> fresh.
Proof.
  intros s. split; [apply run_reachable|].
  split.
  { unfold Database.all_returned. vm_compute.
    repeat constructor; eexists; reflexivity. }
  exists Demo.oldPool,
    {| Database.db_id := 1; Database.db_dsn := Database.connStr Demo.cfg "shop" |}.
  split; [vm_compute; reflexivity|].
  split; [vm_compute; reflexivity|].
  discriminate.
Qed.

(** A request with an API token the engine knows. *)
Lemma authMiddleware_accepts_resolved_role_witness :
  let E := Demo.env true true true in
  let r := authMiddleware E Demo.cfg Demo.apiKeyCall Demo.world in
  let c' := Demo.authenticated "demo" Demo.apiKeyCall in
  outcome r = Next c' /\
  exists role,
    c' = Set_ Demo.apiKeyCall "db_role" (AString role) /\
    GetString c' "db_role" = role /\
    (Resolve.bySession E Demo.cfg Demo.apiKeyCall role /\ trace r = [] /\
     after r = Demo.world
     \/ Resolve.byToken E Demo.cfg Demo.apiKeyCall Demo.world role /\ trace r <> []).
Proof.
  intros E r c'.
  assert (Hrun : r = (Next c', after r, trace r)) by (vm_compute; reflexivity).
  split; [vm_compute; reflexivity|].
  exact (authMiddleware_accepts_resolved_role E Demo.cfg Demo.apiKeyCall c'
           Demo.world (after r) (trace r) Hrun).
Defined.

(** A call of a procedure the engine does not know. *)
Lemma failed_call_answer_witness :
  let E := Demo.env true true true in
  let r := handleFunctionCall E Demo.cfg Demo.oddCall Demo.world in
  let query := callQuery Demo.oddName in
  In (EvTxQueryRow query "{}" false) (trace r) /\
  exists s1 err,
    query = callQuery (Param Demo.oddCall "function") /\
    tx_QueryRow E query "{}" s1 = inl err /\
    (if Strings.Contains err "does not exist"
     then Status (outcome r) = StatusNotFound /\
          message (outcome r) = "Function does not exist"
     else Status (outcome r) = StatusInternalServerError /\
          message (outcome r) = "Function call failed: " +:+ err) /\
    committed (after r) = committed Demo.world.
Proof.
  intros E r query.
  assert (Hin : In (EvTxQueryRow query "{}" false) (trace r))
    by (vm_compute; right; right; left; reflexivity).
  split; [exact Hin|].
  exact (failed_call_answer E Demo.cfg Demo.oddCall Demo.world (after r) (outcome r)
           (trace r) query "{}" (run_eta r) Hin).
Defined.

(** A call that succeeds. *)
Lemma success_is_committed_engine_row_witness :
  let E := Demo.env true true true in
  let r := handleFunctionCall E Demo.cfg Demo.dispatch Demo.world in
  Status (outcome r) = StatusOK /\
  exists req params s s1 s2 row,
    jsonJSONRPCRequest Demo.dispatch = Some req /\
    json_Marshal E (JSONRPCRequest.Params req) = Some params /\
    db_BeginTx E (committed Demo.world) = Some s /\
    tx_Exec E (setRoleStatement (GetString Demo.dispatch "db_role")) s = Some s1 /\
    tx_QueryRow E (callQuery (Param Demo.dispatch "function")) params s1
      = inr (s2, row) /\
    tx_Commit E s2 = Some (committed (after r)) /\
    Body (outcome r) = RPC {| JSONRPCResponse.JSONRPC := "2.0";
                              JSONRPCResponse.Result := row;
                              JSONRPCResponse.Error := None;
                              JSONRPCResponse.ID := JSONRPCRequest.ID req |}.
Proof.
  intros E r.
  assert (Hok : Status (outcome r) = StatusOK) by (vm_compute; reflexivity).
  split; [exact Hok|].
  exact (success_is_committed_engine_row E Demo.cfg Demo.dispatch Demo.world
           (after r) (outcome r) (trace r) (run_eta r) Hok).
Defined.

(** The whole protected route with an API token. *)
Lemma engine_runs_under_resolved_role_witness :
  let E := Demo.env true true true in
  let r := protectedAPI E Demo.cfg Demo.apiKeyCall Demo.world in
  let stmt := setRoleStatement "demo" in
  In (EvExec stmt true) (trace r) /\
  exists role,
    role <> EmptyString /\
    stmt = setRoleStatement role /\
    (Resolve.bySession E Demo.cfg Demo.apiKeyCall role
     \/ Resolve.byToken E Demo.cfg Demo.apiKeyCall Demo.world role).
Proof.
  intros E r stmt.
  assert (Hin : In (EvExec stmt true) (trace r))
    by (vm_compute; right; right; left; reflexivity).
  split; [exact Hin|].
  exact (engine_runs_under_resolved_role E Demo.cfg Demo.apiKeyCall Demo.world
           (after r) (outcome r) (trace r) stmt true (run_eta r) Hin).
Defined.

(** A login the database accepts. *)
Lemma login_token_requires_accepted_connection_witness :
  let E := Demo.env true true true in
  let c := Demo.loginCall in
  outcome (handleLogin E Demo.cfg c Demo.world)
    = JSON StatusOK (H [("token", "shop-token")]) /\
  exists req,
    jsonLoginRequest c = Some req /\
    LoginRequest.Login req <> EmptyString /\
    LoginRequest.Password req <> EmptyString /\
    let dsn := loginConnStr Demo.cfg (LoginRequest.Login req)
                 (LoginRequest.Password req) (Param c "database") in
    Database.sql_Open (sqlenv E) dsn = true /\
    Database.sql_Ping (sqlenv E) (Database.clock (pools Demo.world))
      {| Database.db_id := Database.handles (pools Demo.world);
         Database.db_dsn := dsn |} = true /\
    jwt_SignedString E SigningMethodHS256
      (sessionClaims Demo.cfg (LoginRequest.Login req) (Param c "database")
         (time_Now E))
      (Config.JWTSecret Demo.cfg) = Some "shop-token".
Proof.
  intros E c.
  assert (Hok : outcome (handleLogin E Demo.cfg c Demo.world)
                = JSON StatusOK (H [("token", "shop-token")]))
    by (vm_compute; reflexivity).
  split; [exact Hok|].
  exact (login_token_requires_accepted_connection E Demo.cfg c Demo.world
           "shop-token" Hok).
Defined.

(** A role and the same role with a double quote in it. *)
Lemma setRoleStatement_injective_witness :
  "demo" <> Demo.oddRole /\
  setRoleStatement "demo" <> setRoleStatement Demo.oddRole.
Proof.
  assert (Hne : "demo" <> Demo.oddRole) by (vm_compute; discriminate).
  split; [exact Hne|].
  exact (setRoleStatement_injective "demo" Demo.oddRole Hne).
Defined.
